(** * Verification of [commands/stack_outputs.py]

    A shallow embedding of the stack-output collector: the retrying caller
    [with_retries], the stack filter [filter_by_name], the per-account
    collector [collect], the summary [print_summary], the report writer
    [write_file], the orchestrator [run] and the single-call reporter
    [save_report].

    Python values are embedded as a tree type [value]; the response objects a
    paginator yields live in an object store, because [with_retries] extends
    their lists in place; printing, session creation and the report file are
    threaded through an explicit [state]; exceptions are results. *)

From Stdlib Require Import ZArith List String Ascii Lia Permutation DecimalString.
From stdpp Require Import gmap list strings sorting.

Local Open Scope Z_scope.
Local Open Scope list_scope.

(** ** Python strings

    A Python [str] is a sequence of Unicode code points. *)

Definition pystr := list N.

(** The [str] whose code points are the characters of an ASCII literal. *)
Definition py (s : string) : pystr :=
  map N_of_ascii (list_ascii_of_string s).
Arguments py : simpl never.

(** [s.startswith(p)] *)
Fixpoint startswith (s p : pystr) {struct p} : bool :=
  match p, s with
  | [], _ => true
  | _ :: _, [] => false
  | c :: p', d :: s' => (c =? d)%N && startswith s' p'
  end.

(** ** Exceptions and results *)

Inductive exn :=
| ClientError (msg : pystr)       (* botocore.exceptions.ClientError; [msg] is its [str()] *)
| AttributeError
| KeyError (key : pystr)
| TypeError (msg : pystr)
| UnicodeDecodeError
| SystemExit (code : Z)           (* raised by [exit(code)] *)
| OtherError (name : pystr).      (* any other exception of the SDK, e.g. ProfileNotFound *)

Inductive outcome (A : Type) :=
| Ret (a : A)
| Raise (e : exn).
Arguments Ret {A} a.
Arguments Raise {A} e.

#[global] Instance outcome_ret : MRet outcome := fun A a => Ret a.
#[global] Instance outcome_bind : MBind outcome := fun A B f m =>
  match m with
  | Ret a => f a
  | Raise e => Raise e
  end.
#[global] Instance outcome_fmap : FMap outcome := fun A B f m =>
  match m with
  | Ret a => Ret (f a)
  | Raise e => Raise e
  end.

(** ** Python values *)

Set Warnings "-register-all".

(** [datetime.datetime]: the calendar fields and, for an aware value, the UTC
    offset in seconds. *)
Record datetime := mkDatetime {
  dt_year : Z; dt_month : Z; dt_day : Z;
  dt_hour : Z; dt_minute : Z; dt_second : Z;
  dt_microsecond : Z;
  dt_utcoffset : option Z
}.

(** Floating-point numbers and tuples are not modelled.  [VExc msg] is a
    [ClientError] instance whose [str()] is [msg]; [VOther ty] is an object of
    any other class, named [ty], that cannot be iterated and has neither
    [get] nor [startswith]. *)
Inductive value :=
| VNone
| VBool (b : bool)
| VInt (z : Z)
| VStr (s : pystr)
| VBytes (b : list Byte.byte)
| VDatetime (d : datetime)
| VList (l : list value)
| VDict (d : list (pystr * value))
| VExc (msg : pystr)
| VOther (ty : pystr).

(** A [dict] with [str] keys, in insertion order. *)
Definition dict (V : Type) := list (pystr * V).

Fixpoint dict_get {V} (k : pystr) (d : dict V) : option V :=
  match d with
  | [] => None
  | (k', v) :: d' => if decide (k = k') then Some v else dict_get k d'
  end.

(** [d[k] = v]: an existing key keeps its position, a new key goes last. *)
Fixpoint dict_set {V} (k : pystr) (v : V) (d : dict V) : dict V :=
  match d with
  | [] => [(k, v)]
  | (k', v') :: d' =>
      if decide (k = k') then (k', v) :: d' else (k', v') :: dict_set k v d'
  end.

Definition dict_keys {V} (d : dict V) : list pystr := map fst d.

(** [k in d] *)
Definition dict_mem {V} (k : pystr) (d : dict V) : bool :=
  match dict_get k d with Some _ => true | None => false end.

(** [iter(v)]: the items a [for] loop, [filter] or [list.extend] draws from [v]. *)
Definition py_iter (v : value) : outcome (list value) :=
  match v with
  | VList l => Ret l
  | VDict d => Ret (map (fun kv => VStr (fst kv)) d)
  | VStr s => Ret (map (fun c => VStr [c]) s)
  | VBytes b => Ret (map (fun c => VInt (Z.of_N (Byte.to_N c))) b)
  | _ => Raise (TypeError (py "object is not iterable"))
  end.

(** [v.get(k, dflt)]: only a [dict] has [get]. *)
Definition py_get (v : value) (k : pystr) (dflt : value) : outcome value :=
  match v with
  | VDict d => Ret (default dflt (dict_get k d))
  | _ => Raise AttributeError
  end.

(** [v.startswith(p)] for a [str] [p]. *)
Definition py_startswith (v : value) (p : pystr) : outcome bool :=
  match v with
  | VStr s => Ret (startswith s p)
  | VBytes _ => Raise (TypeError (py "startswith first arg must be bytes or a tuple of bytes, not str"))
  | _ => Raise AttributeError
  end.

(** [list(filter(f, l))] *)
Fixpoint py_filter (f : value -> outcome bool) (l : list value) : outcome (list value) :=
  match l with
  | [] => Ret []
  | x :: l' =>
      b ← f x;
      r ← py_filter f l';
      Ret (if b : bool then x :: r else r)
  end.

(** ** Stack Filter *)

Definition filter_by_name (stacks : value) (target_prefix : pystr) : outcome (list value) :=
  items ← py_iter stacks;
  py_filter (fun stack =>
               name ← py_get stack (py "StackName") (VStr []);
               py_startswith name target_prefix) items.

(** A stack description: a [dict] whose [StackName], when present, is a [str]. *)
Definition is_stack (v : value) : Prop :=
  exists d, v = VDict d /\
    forall x, dict_get (py "StackName") d = Some x -> exists s, x = VStr s.

(** The name of a stack description; a description without [StackName] has the
    empty name. *)
Definition stack_name (v : value) : pystr :=
  match v with
  | VDict d => match dict_get (py "StackName") d with
               | Some (VStr s) => s
               | _ => []
               end
  | _ => []
  end.

(** ** The object store and the program state

    A response [dict] holds objects; [with_retries] keeps the first page it
    receives and extends the lists that page holds in place, so the objects
    of a page are kept in a store and a page maps its keys to addresses. *)

Abbreviation obj := nat (only parsing).
Definition page := dict obj.

#[global] Instance value_inhabited : Inhabited value := populate VNone.

Record state := mkState {
  heap : gmap obj value;          (* the objects of the responses *)
  stdout : list pystr;            (* the lines printed so far *)
  sessions : list (pystr * pystr);  (* the (profile, region) sessions opened so far *)
  files : gmap pystr pystr        (* path |-> content *)
}.

Definition M (A : Type) : Type := state -> outcome A * state.

#[global] Instance M_ret : MRet M := fun A a st => (Ret a, st).
#[global] Instance M_bind : MBind M := fun A B f m st =>
  match m st with
  | (Ret a, st') => f a st'
  | (Raise e, st') => (Raise e, st')
  end.

Definition raise {A} (e : exn) : M A := fun st => (Raise e, st).

Definition lift {A} (o : outcome A) : M A := fun st => (o, st).

(** [try: body except ClientError as exception: handler] *)
Definition try_except_ClientError {A} (body : M A) (handler : pystr -> M A) : M A :=
  fun st =>
    match body st with
    | (Raise (ClientError msg), st') => handler msg st'
    | r => r
    end.

Definition set_heap (h : gmap obj value) (st : state) : state :=
  mkState h (stdout st) (sessions st) (files st).

Definition add_stdout (lines : list pystr) (st : state) : state :=
  mkState (heap st) (stdout st ++ lines) (sessions st) (files st).

(** [print(line, flush=True)] *)
Definition print (line : pystr) : M unit := fun st =>
  (Ret tt, add_stdout [line] st).

Definition load (o : obj) : M value := fun st => (Ret (heap st !!! o), st).

Definition store (o : obj) (v : value) : M unit := fun st =>
  (Ret tt, set_heap (<[o := v]> (heap st)) st).

(** [isinstance(v, list)] *)
Definition is_list (v : value) : bool :=
  match v with VList _ => true | _ => false end.

(** [for x in l: body(x)] *)
Fixpoint for_each {A} (l : list A) (body : A -> M unit) : M unit :=
  match l with
  | [] => mret tt
  | x :: l' => body x;; for_each l' body
  end.

(** ** The client handle

    [can_paginate] answers [handler.can_paginate(method)]; [paginate m p n] is
    what iterating the paginator of method [m], started with the parameters
    [p], yields the [n]-th time it is started: pages in order, the iteration
    ending at the first exception; [call m p n] is the result of the [n]-th
    call of the method [m] of the handler with the parameters [p]. *)
Record handler := mkHandler {
  can_paginate : pystr -> bool;
  paginate : pystr -> value -> nat -> list (outcome page);
  call : pystr -> value -> nat -> outcome page
}.

(** ** Retrying Caller *)

(** The truth value of [data]: [None] and the empty [dict] are false. *)
Definition truthy (data : option page) : bool :=
  match data with
  | None | Some [] => false
  | Some (_ :: _) => true
  end.

(** [if isinstance(data[k], list): data[k].extend(response[k])] *)
Definition extend_field (data response : page) (k : pystr) : M unit :=
  match dict_get k data with
  | None => raise (KeyError k)
  | Some o =>
      v ← load o;
      match v with
      | VList items =>
          match dict_get k response with
          | None => raise (KeyError k)
          | Some o' =>
              v' ← load o';
              more ← lift (py_iter v');
              store o (VList (items ++ more))
          end
      | _ => mret tt
      end
  end.

(** The pages have the same shape: where the first page holds a list, the
    later page holds a list under the same key. *)
Definition same_shape (h : gmap obj value) (first later : page) : bool :=
  forallb (fun ko =>
             implb (is_list (h !!! snd ko))
               match dict_get (fst ko) later with
               | Some o' => is_list (h !!! o')
               | None => false
               end) first.

(** The lists the page [p] holds under keys other than [k] are none of the
    objects [os]. *)
Definition unshared (h : gmap obj value) (p : page) (k : pystr) (os : list obj) : bool :=
  forallb (fun ko =>
             bool_decide (fst ko = k) || negb (is_list (h !!! snd ko))
             || forallb (fun o => negb (snd ko =? o)%nat) os) p.

(** The body of [for response in page_iterator]. *)
Definition add_page (data : option page) (response : page) : M (option page) :=
  if negb (truthy data) then mret (Some response)
  else
    print (py "  ...paginating");;
    for_each (dict_keys (default [] data)) (extend_field (default [] data) response);;
    mret data.

Fixpoint iterate_pages (data : option page) (page_iterator : list (outcome page))
  : M (option page) :=
  match page_iterator with
  | [] => mret data
  | Raise e :: _ => raise e
  | Ret response :: rest =>
      data' ← add_page data response;
      iterate_pages data' rest
  end.

(** The body of [for retry in range(max_retries)]. *)
Definition attempt (h : handler) (method_to_call : pystr) (parameters : value)
    (retry : nat) (data : option page) : M (option page) :=
  if can_paginate h method_to_call then
    iterate_pages data (paginate h method_to_call parameters retry)
  else
    response ← lift (call h method_to_call parameters retry);
    mret (Some response).

(** [for retry in range(retry, retry + n)] *)
Fixpoint attempts (h : handler) (method_to_call : pystr) (parameters : value)
    (n retry : nat) (data : option page) : M (option page) :=
  match n with
  | O => mret data
  | S n' =>
      data' ← attempt h method_to_call parameters retry data;
      attempts h method_to_call parameters n' (S retry) data'
  end.

(** The value of the object [data] refers to when it is returned. *)
Definition snapshot (data : option page) : M value := fun st =>
  (Ret match data with
       | None => VNone
       | Some p => VDict (map (fun ko => (fst ko, heap st !!! snd ko)) p)
       end, st).

Definition with_retries (max_retries : Z) (h : handler) (method_to_call : pystr)
    (parameters : value) : M value :=
  try_except_ClientError
    (data ← attempts h method_to_call parameters (Z.to_nat max_retries) 0 None;
     snapshot data)
    (fun exception =>
       print (py "ClientError: " ++ exception);;
       mret (VDict [(py "exception", VExc exception)])).

(** ** The runtime and the SDK

    [py_repr] is Python's [repr] on the values whose [str()] is their [repr()]
    and is not fixed here (containers, bytes, datetimes, other objects);
    [boto3_Session] is [boto3.Session(profile_name, region_name)], whose
    result may depend on the sessions opened before. *)

Record session := mkSession { client : pystr -> outcome handler }.

Record env := mkEnv {
  py_repr : value -> pystr;
  boto3_Session : list (pystr * pystr) -> pystr -> pystr -> outcome session
}.

(** [int.__repr__] *)
Definition int_repr (z : Z) : pystr := py (NilZero.string_of_int (Z.to_int z)).

(** [str(v)] *)
Definition py_str (w : env) (v : value) : pystr :=
  match v with
  | VStr s => s
  | VExc msg => msg
  | VNone => py "None"
  | VBool true => py "True"
  | VBool false => py "False"
  | VInt z => int_repr z
  | _ => py_repr w v
  end.

Definition add_session (profile region : pystr) (st : state) : state :=
  mkState (heap st) (stdout st) (sessions st ++ [(profile, region)]) (files st).

Definition create_session (w : env) (profile region : pystr) : M session := fun st =>
  (boto3_Session w (sessions st) profile region, add_session profile region st).

(** ** Per-Account Collector *)

(** What [collect] does with the [response] of [with_retries]; this part
    touches no state. *)
Definition collect_from_response (w : env) (response : value) (target_name : pystr)
  : outcome value :=
  all_stacks ← py_get response (py "Stacks") VNone;
  returned ←
    match all_stacks with
    | VNone => Ret None
    | _ =>
        target_stacks ← filter_by_name all_stacks target_name;
        match target_stacks with
        | stack :: _ =>
            outputs ← py_get stack (py "Outputs") (VList []);
            Ret (Some (VDict [(py "outputs", outputs)]))
        | [] => Ret None
        end
    end;
  match returned with
  | Some result => Ret result
  | None =>
      match response with
      | VDict d =>
          match dict_get (py "exception") d with
          | Some exception => Ret (VDict [(py "exception", VStr (py_str w exception))])
          | None => Ret VNone
          end
      | _ => Raise (TypeError (py "argument is not iterable"))
      end
  end.

Definition collect (w : env) (profile region target_name : pystr) : M value :=
  session ← create_session w profile region;
  cfn_client ← lift (client session (py "cloudformation"));
  response ← with_retries 1 cfn_client (py "describe_stacks") (VDict []);
  lift (collect_from_response w response target_name).

(** The outputs of a stack description: [stack.get('Outputs', [])]. *)
Definition stack_outputs (stack : value) : value :=
  match stack with
  | VDict d => default (VList []) (dict_get (py "Outputs") d)
  | _ => VList []
  end.

(** ** Summary *)

(** The loop of [print_summary] that gathers the failures. *)
Fixpoint gather_failures (summary : dict value) (keys : list pystr) (failures : list value)
  : outcome (list value) :=
  match keys with
  | [] => Ret failures
  | profile :: keys' =>
      match dict_get profile summary with
      | None => Raise (KeyError profile)
      | Some entry =>
          failure ← py_get entry (py "exception") VNone;
          gather_failures summary keys'
            match failure with
            | VNone => failures
            | _ => failures ++ [failure]
            end
      end
  end.

Definition nat_repr (n : nat) : pystr := int_repr (Z.of_nat n).

Definition print_summary (w : env) (summary : dict value) : M unit :=
  print (py "--------------------------------------------------------------------");;
  failures ← lift (gather_failures summary (dict_keys summary) []);
  print (py "Summary: " ++ nat_repr (length summary) ++ py " APIs called. "
           ++ nat_repr (length failures) ++ py " errors");;
  if (0 <? length failures)%nat then
    print (py "Failures:");;
    for_each failures (fun failure => print (py_str w failure));;
    raise (SystemExit (-1))
  else mret tt.

(** ** Serialization *)

(** [bytes.decode()]: strict UTF-8. *)
Definition is_cont (b : N) : bool := ((128 <=? b) && (b <=? 191))%N.

Fixpoint utf8_decode (bs : list N) : option pystr :=
  match bs with
  | [] => Some []
  | b0 :: r0 =>
      if (b0 <? 128)%N then cons b0 <$> utf8_decode r0
      else if ((194 <=? b0) && (b0 <=? 223))%N then
        match r0 with
        | b1 :: r1 =>
            if is_cont b1
            then cons ((b0 - 192) * 64 + (b1 - 128))%N <$> utf8_decode r1
            else None
        | _ => None
        end
      else if ((224 <=? b0) && (b0 <=? 239))%N then
        match r0 with
        | b1 :: b2 :: r2 =>
            if (((if b0 =? 224 then 160 else 128) <=? b1)
                && (b1 <=? (if b0 =? 237 then 159 else 191))
                && is_cont b2)%N
            then cons ((b0 - 224) * 4096 + (b1 - 128) * 64 + (b2 - 128))%N
                   <$> utf8_decode r2
            else None
        | _ => None
        end
      else if ((240 <=? b0) && (b0 <=? 244))%N then
        match r0 with
        | b1 :: b2 :: b3 :: r3 =>
            if (((if b0 =? 240 then 144 else 128) <=? b1)
                && (b1 <=? (if b0 =? 244 then 143 else 191))
                && is_cont b2 && is_cont b3)%N
            then cons ((b0 - 240) * 262144 + (b1 - 128) * 4096
                       + (b2 - 128) * 64 + (b3 - 128))%N
                   <$> utf8_decode r3
            else None
        | _ => None
        end
      else None
  end.

Definition bytes_decode (b : list Byte.byte) : outcome pystr :=
  match utf8_decode (map Byte.to_N b) with
  | Some s => Ret s
  | None => Raise UnicodeDecodeError
  end.

(** The decimal digits of [z], padded with zeros to [width] (the [%0wd] conversion
    for a non-negative [z]). *)
Definition zero_padded (width : nat) (z : Z) : pystr :=
  let digits := int_repr z in
  repeat 48%N (width - length digits) ++ digits.

(** The UTC offset as [isoformat] prints it. *)
Definition format_offset (off : option Z) : pystr :=
  match off with
  | None => []
  | Some o =>
      let a := Z.abs o in
      (if o <? 0 then py "-" else py "+")
        ++ zero_padded 2 (a / 3600) ++ py ":" ++ zero_padded 2 (a mod 3600 / 60)
        ++ (if a mod 60 =? 0 then [] else py ":" ++ zero_padded 2 (a mod 60))
  end.

(** [datetime.isoformat()] *)
Definition isoformat (d : datetime) : pystr :=
  zero_padded 4 (dt_year d) ++ py "-" ++ zero_padded 2 (dt_month d) ++ py "-"
    ++ zero_padded 2 (dt_day d) ++ py "T" ++ zero_padded 2 (dt_hour d) ++ py ":"
    ++ zero_padded 2 (dt_minute d) ++ py ":" ++ zero_padded 2 (dt_second d)
    ++ (if dt_microsecond d =? 0 then [] else py "." ++ zero_padded 6 (dt_microsecond d))
    ++ format_offset (dt_utcoffset d).

Definition custom_serializer (x : value) : outcome value :=
  match x with
  | VDatetime d => Ret (VStr (isoformat d))
  | VBytes b => s ← bytes_decode b; Ret (VStr s)
  | _ => Raise (TypeError (py "Unknown type"))
  end.

(** The JSON string literal of a [str], as [json] writes it with
    [ensure_ascii] left on. *)
Definition hex_digit (n : N) : N := (if n <? 10 then 48 + n else 87 + n)%N.

Definition u_escape (n : N) : pystr :=
  [92; 117; hex_digit (n / 4096 mod 16); hex_digit (n / 256 mod 16);
   hex_digit (n / 16 mod 16); hex_digit (n mod 16)]%N.

Definition escape_char (c : N) : pystr :=
  (if c =? 34 then [92; 34]
   else if c =? 92 then [92; 92]
   else if c =? 10 then [92; 110]
   else if c =? 13 then [92; 114]
   else if c =? 9 then [92; 116]
   else if c =? 12 then [92; 102]
   else if c =? 8 then [92; 98]
   else if (32 <=? c) && (c <=? 126) then [c]
   else if c <? 65536 then u_escape c
   else
     let n := c - 65536 in
     u_escape (N.lor 55296 (N.land (N.shiftr n 10) 1023))
       ++ u_escape (N.lor 56320 (N.land n 1023)))%N.

Definition encode_basestring_ascii (s : pystr) : pystr :=
  [34%N] ++ concat (map escape_char s) ++ [34%N].

(** The order of [str]: by code points. *)
Fixpoint str_ltb (a b : pystr) : bool :=
  match a, b with
  | _, [] => false
  | [], _ :: _ => true
  | x :: a', y :: b' => (x <? y)%N || ((x =? y)%N && str_ltb a' b')
  end.

(** [sorted(items)] by key: a stable insertion sort. *)
Fixpoint insert_item {V} (x : pystr * V) (l : list (pystr * V)) : list (pystr * V) :=
  match l with
  | [] => [x]
  | y :: l' => if str_ltb (fst y) (fst x) then y :: insert_item x l' else x :: y :: l'
  end.

Definition sorted_items {V} (l : list (pystr * V)) : list (pystr * V) :=
  fold_right insert_item [] l.

(** [sep.join(chunks)] *)
Definition join (sep : pystr) (chunks : list pystr) : pystr :=
  match chunks with
  | [] => []
  | c :: cs => c ++ concat (map (app sep) cs)
  end.

(** A line break followed by the indentation of [level]: four spaces a level. *)
Definition newline_indent (level : nat) : pystr := 10%N :: repeat 32%N (4 * level).

(** A container: the opening bracket, the items one per line at the next
    level, the closing bracket on a line of its own; an empty container has
    only its brackets. *)
Definition bracket (opening closing : N) (level : nat) (chunks : list pystr) : pystr :=
  match chunks with
  | [] => [opening; closing]
  | _ =>
      [opening] ++ newline_indent (S level)
        ++ join (44%N :: newline_indent (S level)) chunks
        ++ newline_indent level ++ [closing]
  end.

(** The encoded members of a [dict], key order as given; the first member that
    cannot be encoded raises. *)
Fixpoint encode_members (items : list (pystr * outcome pystr)) : outcome (list pystr) :=
  match items with
  | [] => Ret []
  | (k, r) :: items' =>
      c ← r;
      cs ← encode_members items';
      Ret ((encode_basestring_ascii k ++ py ": " ++ c) :: cs)
  end.

(** [json.dumps(o, indent=4, sort_keys=True, default=custom_serializer)] at
    nesting [level].  The encoder sorts the members of a [dict] and then
    encodes them in that order; here every member is encoded (a pure
    computation) before the sort, and [encode_members] takes the results in
    sorted order, which raises the same exception.  What [custom_serializer]
    returns is encoded in turn: it is always a [str]. *)
Fixpoint iterencode (level : nat) (o : value) {struct o} : outcome pystr :=
  match o with
  | VStr s => Ret (encode_basestring_ascii s)
  | VNone => Ret (py "null")
  | VBool true => Ret (py "true")
  | VBool false => Ret (py "false")
  | VInt z => Ret (int_repr z)
  | VList l =>
      chunks ← (fix encode_items (l : list value) : outcome (list pystr) :=
                  match l with
                  | [] => Ret []
                  | x :: l' =>
                      c ← iterencode (S level) x;
                      cs ← encode_items l';
                      Ret (c :: cs)
                  end) l;
      Ret (bracket 91 93 level chunks)
  | VDict d =>
      chunks ← encode_members
                 (sorted_items
                    ((fix encode_values (d : list (pystr * value)) :=
                        match d with
                        | [] => []
                        | (k, v) :: d' => (k, iterencode (S level) v) :: encode_values d'
                        end) d));
      Ret (bracket 123 125 level chunks)
  | VBytes _ | VDatetime _ | VExc _ | VOther _ =>
      o' ← custom_serializer o;
      match o' with
      | VStr s => Ret (encode_basestring_ascii s)
      | _ => Raise (TypeError (py "Unknown type"))
      end
  end.

Definition json_dumps (contents : value) : outcome pystr := iterencode 0 contents.

(** ** Files

    Directories are not part of the state: [make_directory] swallows the
    error of [os.mkdir], and opening a file for writing is taken to succeed. *)

Definition make_directory (path : pystr) : M unit := mret tt.

(** [open(name, "w+")]: the file is created or truncated. *)
Definition open_truncate (name : pystr) : M unit := fun st =>
  (Ret tt, mkState (heap st) (stdout st) (sessions st) (<[name := []]> (files st))).

(** [f.write(text)] on the file just opened. *)
Definition file_write (name text : pystr) : M unit := fun st =>
  (Ret tt, mkState (heap st) (stdout st) (sessions st) (<[name := text]> (files st))).

Definition write_file (contents : value) (path : pystr) : M unit :=
  let name := path ++ py "/stack_outputs.json" in
  open_truncate name;;
  text ← lift (json_dumps contents);
  file_write name text.

(** [if os.path.exists(path): rmtree(path)]: the files below [path] go. *)
Definition rmtree (path : pystr) : M unit := fun st =>
  (Ret tt, mkState (heap st) (stdout st) (sessions st)
             (filter (fun kv => negb (startswith (fst kv) (path ++ py "/")) = true) (files st))).

(** ** Run Orchestrator *)

(** [s.split(",")] *)
Fixpoint split_comma (s : pystr) : list pystr :=
  match s with
  | [] => [[]]
  | c :: s' =>
      if (c =? 44)%N then [] :: split_comma s'
      else match split_comma s' with
           | h :: t => (c :: h) :: t
           | [] => [[c]]
           end
  end.

(** The parsed command line. *)
Record arguments := mkArguments {
  arg_target : pystr;
  arg_region : pystr;
  arg_profiles : pystr;
  arg_clean : bool
}.

(** [for profile in profiles: outcome[profile] = collect(profile, region, target)] *)
Fixpoint collect_profiles (w : env) (profiles : list pystr) (region target : pystr)
    (outcome : dict value) : M (dict value) :=
  match profiles with
  | [] => mret outcome
  | profile :: profiles' =>
      response ← collect w profile region target;
      collect_profiles w profiles' region target (dict_set profile response outcome)
  end.

Definition run (w : env) (args : arguments) : M unit :=
  let profiles := split_comma (arg_profiles args) in
  let target := arg_target args in
  let region := arg_region args in
  let path := py "account-data/stackset" in
  (if arg_clean args then rmtree path else mret tt);;
  outcome ← collect_profiles w profiles region target [];
  make_directory (py "account-data");;
  make_directory (py "account-data/stackset");;
  write_file (VDict outcome) (py "account-data/stackset");;
  print_summary w outcome.

(** The exit status of the process when [run] ends with [r]: 0 after a normal
    return, the low byte of the code of [exit(code)], 1 after any other
    uncaught exception. *)
Definition exit_status (r : outcome unit) : Z :=
  match r with
  | Ret _ => 0
  | Raise (SystemExit code) => code mod 256
  | Raise _ => 1
  end.

(** ** Notions of the statements *)

(** The pages a paginated operation returns over [n] attempts, the first of
    them attempt [retry]. *)
Definition pages_of (h : handler) (m : pystr) (ps : value) (retry n : nat)
  : list (outcome page) :=
  concat (map (paginate h m ps) (seq retry n)).

(** The failure an entry of the summary stands for: the value under
    [exception], when the entry has one that is not [None]. *)
Definition failure_of (entry : value) : option value :=
  match entry with
  | VDict d =>
      match dict_get (py "exception") d with
      | Some VNone | None => None
      | Some failure => Some failure
      end
  | _ => None
  end.

(** The failures of the entries of the summary under the keys [keys]. *)
Fixpoint failures_of (summary : dict value) (keys : list pystr) : list value :=
  match keys with
  | [] => []
  | profile :: keys' =>
      match dict_get profile summary ≫= failure_of with
      | Some failure => failure :: failures_of summary keys'
      | None => failures_of summary keys'
      end
  end.

Definition dashes : pystr :=
  py "--------------------------------------------------------------------".

Definition summary_line (summary : dict value) (failures : list value) : pystr :=
  py "Summary: " ++ nat_repr (length summary) ++ py " APIs called. "
    ++ nat_repr (length failures) ++ py " errors".

(** A computation keeps the world when it changes neither the sessions
    opened nor the files. *)
Definition keeps_world {A} (m : M A) : Prop :=
  forall st o st', m st = (o, st') ->
    sessions st' = sessions st /\ files st' = files st.

(** The state [run] collects from: the report directory is emptied first
    when [--clean] is given. *)
Definition cleaned (args : arguments) (st : state) : state :=
  if arg_clean args then snd (rmtree (py "account-data/stackset") st) else st.

(** The encoder of the items of a list, and the encoded values of the members
    of a [dict], as [iterencode] computes them. *)
Fixpoint encode_items (level : nat) (l : list value) : outcome (list pystr) :=
  match l with
  | [] => Ret []
  | x :: l' =>
      c ← iterencode level x;
      cs ← encode_items level l';
      Ret (c :: cs)
  end.

Definition encode_values (level : nat) (d : list (pystr * value))
  : list (pystr * outcome pystr) :=
  map (fun kv => (fst kv, iterencode level (snd kv))) d.

(** A value holds an object of a class the serializer does not know. *)
Inductive holds_unknown : value -> Prop :=
| unknown_exc msg : holds_unknown (VExc msg)
| unknown_other ty : holds_unknown (VOther ty)
| unknown_item l x : x ∈ l -> holds_unknown x -> holds_unknown (VList l)
| unknown_member d k x : (k, x) ∈ d -> holds_unknown x -> holds_unknown (VDict d).

(** A value holds a binary value that is not valid UTF-8. *)
Inductive holds_undecodable : value -> Prop :=
| undecodable_bytes b : bytes_decode b = Raise UnicodeDecodeError ->
    holds_undecodable (VBytes b)
| undecodable_item l x : x ∈ l -> holds_undecodable x -> holds_undecodable (VList l)
| undecodable_member d k x : (k, x) ∈ d -> holds_undecodable x ->
    holds_undecodable (VDict d).

(** The text [s] with four more spaces after each of its line breaks. *)
Definition deepen (s : pystr) : pystr :=
  concat (map (fun c => if (c =? 10)%N then 10%N :: repeat 32%N 4 else [c]) s).

(** The order of the keys the encoder sorts by. *)
Definition key_lt {V} (x y : pystr * V) : Prop := str_ltb (fst x) (fst y) = true.

(** The UTF-8 encoding of a code point, and of a [str]: [str.encode()]. *)
Definition utf8_encode_char (c : N) : list N :=
  (if c <? 128 then [c]
   else if c <? 2048 then [192 + c / 64; 128 + c mod 64]
   else if c <? 65536 then [224 + c / 4096; 128 + c / 64 mod 64; 128 + c mod 64]
   else [240 + c / 262144; 128 + c / 4096 mod 64; 128 + c / 64 mod 64;
         128 + c mod 64])%N.

Definition utf8_encode (s : pystr) : list N := concat (map utf8_encode_char s).

(** The code points a [str] can be encoded from: no surrogates, none beyond
    U+10FFFF. *)
Definition is_scalar (c : N) : bool :=
  ((c <? 55296) || ((57344 <=? c) && (c <=? 1114111)))%N.

(** A message names a type when the name of the type occurs in it. *)
Definition names_type (msg ty : pystr) : Prop := exists a b, msg = a ++ ty ++ b.

(** A text without a line break. *)
Definition one_line (s : pystr) : bool := forallb (fun c => negb (c =? 10)%N) s.

Definition set_files (fs : gmap pystr pystr) (st : state) : state :=
  mkState (heap st) (stdout st) (sessions st) fs.

(** The calls of [collect] for the profiles of a list, one after the other
    from a state, when every one of them returns: the values returned, in
    order, and the state they leave. *)
Inductive collected (w : env) (region target : pystr)
  : state -> list pystr -> list value -> state -> Prop :=
| collected_nil st : collected w region target st [] [] st
| collected_cons st profile v st1 profiles vs st2 :
    collect w profile region target st = (Ret v, st1) ->
    collected w region target st1 profiles vs st2 ->
    collected w region target st (profile :: profiles) (v :: vs) st2.

(** The report after the results [vs] of the profiles [ps] are stored. *)
Definition record_results (ps : list pystr) (vs : list value) (outcome : dict value)
  : dict value :=
  fold_left (fun o pv => dict_set (fst pv) (snd pv) o) (zip ps vs) outcome.

(** The two variants of a collection result. *)
Definition Success (outputs : value) : value := VDict [(py "outputs", outputs)].
Definition Failure (message : pystr) : value := VDict [(py "exception", VStr message)].

(** ** Example data *)

Module Sample.

Definition url : value :=
  VDict [(py "Key", VStr (py "Url")); (py "Value", VStr (py "http://x"))].

Definition foo : value :=
  VDict [(py "StackName", VStr (py "proj-foo")); (py "Outputs", VList [url])].

Definition bar : value :=
  VDict [(py "StackName", VStr (py "proj-bar")); (py "Outputs", VList [])].

Definition other : value :=
  VDict [(py "StackName", VStr (py "network"))].

(** The objects of the responses: the [Stacks] lists at 0, 2 and 3, a
    pagination token at 1. *)
Definition objects : gmap obj value :=
  <[0%nat := VList [other; foo]]>
    (<[1%nat := VStr (py "token")]>
       (<[2%nat := VList [bar]]> (<[3%nat := VList [bar]]> ∅))).

Definition page1 : page := [(py "Stacks", 0%nat); (py "NextToken", 1%nat)].
Definition page2 : page := [(py "Stacks", 2%nat)].

(** Two pages of another shape: the first holds one list object under two
    keys. *)
Definition shared1 : page := [(py "Stacks", 0%nat); (py "Exports", 0%nat)].
Definition shared2 : page := [(py "Stacks", 2%nat); (py "Exports", 3%nat)].

Definition initial : state := mkState objects [] [] ∅.

(** A client whose operations paginate and return the two pages each time. *)
Definition two_pages : handler :=
  mkHandler (fun _ => true) (fun _ _ _ => [Ret page1; Ret page2])
    (fun _ _ _ => Raise AttributeError).

(** A client whose operations paginate and return one page with the stack
    [bar], a new object each time the operation is started. *)
Definition one_page : handler :=
  mkHandler (fun _ => true) (fun _ _ n => [Ret [(py "Stacks", (2 + n)%nat)]])
    (fun _ _ _ => Raise AttributeError).

(** A client whose operations paginate and return the two pages that share a
    list. *)
Definition shared_pages : handler :=
  mkHandler (fun _ => true) (fun _ _ _ => [Ret shared1; Ret shared2])
    (fun _ _ _ => Raise AttributeError).

(** A client whose operations do not paginate and return the second page. *)
Definition plain : handler :=
  mkHandler (fun _ => false) (fun _ _ _ => [])
    (fun _ _ _ => Ret page2).

(** A client whose calls are denied. *)
Definition denied : handler :=
  mkHandler (fun _ => true) (fun _ _ _ => [Raise (ClientError (py "AccessDenied"))])
    (fun _ _ _ => Raise (ClientError (py "AccessDenied"))).

(** A world with three kinds of profiles: [a] sees the two pages, [b] is
    denied, every other profile sees the one page with [bar]. *)
Definition world : env :=
  mkEnv (fun _ => [])
    (fun _ profile _ =>
       Ret (mkSession (fun _ =>
         Ret (if decide (profile = py "a") then two_pages
              else if decide (profile = py "b") then denied
              else one_page)))).

End Sample.

(** ** The rest of the module *)

(** [os.path.isfile(name)] *)
Definition isfile (name : pystr) : M bool := fun st =>
  (Ret (bool_decide (is_Some (files st !! name))), st).

(** [save_report]: its last statement calls [write_file] with one argument,
    and [write_file] has the two required parameters [contents] and [path],
    so the call raises [TypeError] before the body of [write_file] runs. *)
Definition save_report (outputfile path : pystr) (h : handler) (method_to_call : pystr)
    (parameters : value) : M unit :=
  make_directory (py "account-data");;
  make_directory (py "account-data/" ++ path);;
  already ← isfile outputfile;
  (if already : bool
   then print (py "Response already collected at " ++ outputfile)
   else mret tt);;
  print (py "Making call for " ++ outputfile);;
  output ← with_retries 1 h method_to_call parameters;
  raise (TypeError (py "write_file() missing 1 required positional argument: 'path'")).

(** ** Further notions of the statements *)

(** The lines [save_report] prints before the call. *)
Definition save_report_notice (outputfile : pystr) (st : state) : list pystr :=
  (if bool_decide (is_Some (files st !! outputfile))
   then [py "Response already collected at " ++ outputfile] else [])
    ++ [py "Making call for " ++ outputfile].

(** [",".join(parts)] *)
Definition join_comma (parts : list pystr) : pystr := join [44%N] parts.

(** The members of a list in the order of their first occurrence. *)
Fixpoint first_occurrences (ps : list pystr) : list pystr :=
  match ps with
  | [] => []
  | p :: ps' => p :: filter (fun q => q <> p) (first_occurrences ps')
  end.

(** [isinstance(v, dict)] *)
Definition is_dict (v : value) : bool :=
  match v with VDict _ => true | _ => false end.

(** The path of the report. *)
Definition report_path : pystr := py "account-data/stackset/stack_outputs.json".

(** A path below the report directory. *)
Definition in_report_dir (q : pystr) : bool := startswith q (py "account-data/stackset/").

(** The exceptions a remote call fails with: an error response of the
    service (authorization, throttling, not found), which the SDK raises as
    [ClientError], or another exception of the SDK, such as the network
    failure [EndpointConnectionError]. *)
Definition remote_error (e : exn) : bool :=
  match e with ClientError _ | OtherError _ => true | _ => false end.

(** The report file can be opened for writing, as far as the files tell: no
    regular file stands where a directory of its path has to be, and its own
    path is not a directory.  Permissions and the like are not part of the
    state. *)
Definition report_can_be_opened (st : state) : Prop :=
  files st !! py "account-data" = None
  /\ files st !! py "account-data/stackset" = None
  /\ forall q, startswith q (report_path ++ py "/") = true -> files st !! q = None.

(** What [with_retries] may do to the state: print, and extend the lists of
    the store. *)
Definition appends_only (st st' : state) : Prop :=
  sessions st' = sessions st /\ files st' = files st
  /\ stdout st `prefix_of` stdout st'
  /\ forall o : nat,
       match heap st !!! o with
       | VList l => exists more, heap st' !!! o = VList (l ++ more)
       | v => heap st' !!! o = v
       end.

(** A character of a document: a line break or a printable ASCII character. *)
Definition is_plain_char (c : N) : bool := ((c =? 10) || ((32 <=? c) && (c <=? 126)))%N.

(** A computation that only prints and extends lists of the store. *)
Definition appends {A} (m : M A) : Prop := forall st, appends_only st (snd (m st)).

(** The values [json.dumps] can write with [custom_serializer] as default. *)
Fixpoint serializable (v : value) : bool :=
  match v with
  | VNone | VBool _ | VInt _ | VStr _ | VDatetime _ => true
  | VBytes b => match bytes_decode b with Ret _ => true | Raise _ => false end
  | VList l => forallb serializable l
  | VDict d => forallb (fun kv => serializable (snd kv)) d
  | VExc _ | VOther _ => false
  end.

(** The exceptions of calling a method an object does not have or with an
    argument of the wrong type. *)
Definition is_misuse (e : exn) : bool :=
  match e with AttributeError | TypeError _ => true | _ => false end.

(** A text of line breaks and printable ASCII characters. *)
Definition plain (s : pystr) : bool := forallb is_plain_char s.

Module Cases.

(** A stack whose outputs hold an object the serializer does not know. *)
Definition odd : value :=
  VDict [(py "StackName", VStr (py "proj-odd"));
         (py "Outputs", VList [VOther (py "set")])].

(** The objects of the responses: the [Stacks] lists at 0, 1 and 3, a list of
    exports at 2, an empty list at 4. *)
Definition objects : gmap obj value :=
  <[0%nat := VList [Sample.foo]]>
    (<[1%nat := VList [odd]]>
       (<[2%nat := VList [VStr (py "e1")]]>
          (<[3%nat := VList [Sample.bar]]> (<[4%nat := VList []]> ∅)))).

(** A state with a file left by an earlier run below the report directory
    and a file elsewhere. *)
Definition initial : state :=
  mkState objects [] []
    (<[py "account-data/stackset/old.json" := py "{}"]>
       (<[py "notes.txt" := py "keep"]> ∅)).

(** A client that returns one page with the stack [foo]. *)
Definition good : handler :=
  mkHandler (fun _ => true) (fun _ _ _ => [Ret [(py "Stacks", 0%nat)]])
    (fun _ _ _ => Raise AttributeError).

(** A client that returns one page with the stack [odd]. *)
Definition odd_outputs : handler :=
  mkHandler (fun _ => true) (fun _ _ _ => [Ret [(py "Stacks", 1%nat)]])
    (fun _ _ _ => Raise AttributeError).

(** A client whose paginator yields no page. *)
Definition no_page : handler :=
  mkHandler (fun _ => true) (fun _ _ _ => []) (fun _ _ _ => Raise AttributeError).

(** A client whose first page has a list of exports that the second page
    lacks. *)
Definition ragged : handler :=
  mkHandler (fun _ => true)
    (fun _ _ _ => [Ret [(py "Stacks", 0%nat); (py "Exports", 2%nat)];
                   Ret [(py "Stacks", 3%nat)]])
    (fun _ _ _ => Raise AttributeError).

(** A client that cannot reach the service: the paginator raises the
    network failure of the SDK. *)
Definition unreachable : handler :=
  mkHandler (fun _ => true)
    (fun _ _ _ => [Raise (OtherError (py "EndpointConnectionError"))])
    (fun _ _ _ => Raise (OtherError (py "EndpointConnectionError"))).

(** A client whose first page is the empty [dict]. *)
Definition empty_first : handler :=
  mkHandler (fun _ => true) (fun _ _ _ => [Ret []; Ret [(py "Stacks", 0%nat)]])
    (fun _ _ _ => Raise AttributeError).

(** A client that returns its pages one an attempt: the page with [foo] at
    the first attempt, the page with [bar] at the second, none later. *)
Definition page_an_attempt : handler :=
  mkHandler (fun _ => true)
    (fun _ _ n => match n with
                  | 0%nat => [Ret [(py "Stacks", 0%nat)]]
                  | 1%nat => [Ret [(py "Stacks", 3%nat)]]
                  | _ => []
                  end)
    (fun _ _ _ => Raise AttributeError).

(** The same pages in one attempt. *)
Definition both_pages : handler :=
  mkHandler (fun _ => true)
    (fun _ _ _ => [Ret [(py "Stacks", 0%nat)]; Ret [(py "Stacks", 3%nat)]])
    (fun _ _ _ => Raise AttributeError).

(** A client whose operation does not paginate and answers the page with
    [foo] first and the page with [bar] from then on. *)
Definition changing : handler :=
  mkHandler (fun _ => false) (fun _ _ _ => [])
    (fun _ _ n => match n with
                  | 0%nat => Ret [(py "Stacks", 0%nat)]
                  | _ => Ret [(py "Stacks", 3%nat)]
                  end).

(** A world where the profile [good] has the stack [foo], the profile [odd]
    the stack [odd], the profile [none] gets no page, and no other profile
    is configured. *)
Definition world : env :=
  mkEnv (fun _ => [])
    (fun _ profile _ =>
       if decide (profile = py "good") then Ret (mkSession (fun _ => Ret good))
       else if decide (profile = py "odd") then Ret (mkSession (fun _ => Ret odd_outputs))
       else if decide (profile = py "none") then Ret (mkSession (fun _ => Ret no_page))
       else Raise (OtherError (py "ProfileNotFound"))).

End Cases.

(** * Properties *)

(** ** Stack Filter *)

Lemma startswith_prefix (s p : pystr) : startswith s p = true <-> p `prefix_of` s.
Proof.
  revert s; induction p as [|c p IH]; intros s; simpl.
  - split; [intros _; apply prefix_nil | done].
  - destruct s as [|d s].
    + split; [done | intros [k Hk]; discriminate].
    + rewrite andb_true_iff, N.eqb_eq, IH. split.
      * intros [-> H]. by apply prefix_cons.
      * intros [k Hk]. injection Hk as -> ->. split; [done | by exists k].
Qed.

Lemma startswith_decide (s p : pystr) :
  startswith s p = bool_decide (p `prefix_of` s).
Proof.
  destruct (startswith s p) eqn:E; symmetry.
  - apply bool_decide_eq_true, startswith_prefix, E.
  - apply bool_decide_eq_false. rewrite <- startswith_prefix. congruence.
Qed.

(** On a stack description the predicate of the filter returns, and says
    whether the name starts with the prefix. *)
Lemma stack_predicate (stack : value) (P : pystr) :
  is_stack stack ->
  (name ← py_get stack (py "StackName") (VStr []); py_startswith name P)
  = Ret (bool_decide (P `prefix_of` stack_name stack)).
Proof.
  intros (d & -> & Hname). unfold stack_name. cbn.
  destruct (dict_get (py "StackName") d) as [x|] eqn:E; cbn.
  - destruct (Hname x eq_refl) as [s ->]. cbn. by rewrite startswith_decide.
  - by rewrite startswith_decide.
Qed.

Lemma py_filter_stacks (L : list value) (P : pystr) :
  Forall is_stack L ->
  py_filter (fun stack =>
               name ← py_get stack (py "StackName") (VStr []);
               py_startswith name P) L
  = Ret (filter (fun s => P `prefix_of` stack_name s) L).
Proof.
  induction 1 as [|s L Hs HL IH]; [done|].
  cbn [py_filter]. rewrite (stack_predicate s P Hs), IH, filter_cons.
  destruct (decide (P `prefix_of` stack_name s)) as [Hp|Hp].
  - by rewrite bool_decide_eq_true_2.
  - by rewrite bool_decide_eq_false_2.
Qed.

Lemma filter_by_name_stacks (L : list value) (P : pystr) :
  Forall is_stack L ->
  filter_by_name (VList L) P = Ret (filter (fun s => P `prefix_of` stack_name s) L).
Proof. intros HL. unfold filter_by_name. cbn. by apply py_filter_stacks. Qed.

(** C1.  For every list [L] of stack descriptions and every prefix [P],
    [filter_by_name] returns the stacks of [L] whose name starts with [P], and
    only those, in the order they have in [L]; with the empty prefix it
    returns [L]. *)
Theorem filter_by_name_spec (L : list value) (P : pystr) :
  Forall is_stack L ->
  exists R,
    filter_by_name (VList L) P = Ret R
    /\ R = filter (fun s => P `prefix_of` stack_name s) L
    /\ (forall s, s ∈ R <-> s ∈ L /\ P `prefix_of` stack_name s)
    /\ R `sublist_of` L
    /\ (P = [] -> R = L).
Proof.
  intros HL. eexists. split; [|split; [reflexivity|]].
  - by apply filter_by_name_stacks.
  - split; [|split].
    + intros s. rewrite list_elem_of_filter. tauto.
    + apply sublist_filter.
    + intros ->. clear HL. induction L as [|s L IH]; [done|].
      rewrite filter_cons_True by apply prefix_nil. by f_equal.
Qed.

(** ** Retrying Caller *)

Lemma bind_Ret {A B} (m : M A) (k : A -> M B) st a st' :
  m st = (Ret a, st') -> (m ≫= k) st = k a st'.
Proof. intros H. unfold mbind, M_bind. by rewrite H. Qed.

Lemma bind_Raise {A B} (m : M A) (k : A -> M B) st e st' :
  m st = (Raise e, st') -> (m ≫= k) st = (Raise e, st').
Proof. intros H. unfold mbind, M_bind. by rewrite H. Qed.

Lemma for_each_app {A} (l1 l2 : list A) (body : A -> M unit) st st1 :
  for_each l1 body st = (Ret tt, st1) ->
  for_each (l1 ++ l2) body st = for_each l2 body st1.
Proof.
  revert st. induction l1 as [|x l1 IH]; intros st H; cbn in *.
  - by injection H as <-.
  - unfold mbind, M_bind in *. destruct (body x st) as [[[]|e] st2]; [|done].
    by apply IH.
Qed.

Lemma set_heap_id st : set_heap (heap st) st = st.
Proof. by destruct st. Qed.

Lemma extend_field_other (data response : page) k o st :
  dict_get k data = Some o -> is_list (heap st !!! o) = false ->
  extend_field data response k st = (Ret tt, st).
Proof.
  intros Hk Hl. unfold extend_field. rewrite Hk.
  unfold mbind, M_bind, load. by destruct (heap st !!! o).
Qed.

Lemma extend_field_list (data response : page) k o o' a b st :
  dict_get k data = Some o -> heap st !!! o = VList a ->
  dict_get k response = Some o' -> heap st !!! o' = VList b ->
  extend_field data response k st
  = (Ret tt, set_heap (<[o := VList (a ++ b)]> (heap st)) st).
Proof.
  intros Hk Ha Hk' Hb. unfold extend_field. rewrite Hk.
  unfold mbind, M_bind, load. rewrite Ha, Hk', Hb. done.
Qed.

Lemma is_list_VList v : is_list v = true -> exists l, v = VList l.
Proof. destruct v; try done. eauto. Qed.

(** The merge loop over the keys [ks] of the first page: when every list the
    first page holds under a key of [ks] meets a list under the same key of
    the later page, the loop ends normally; it changes only the store, keeps
    lists lists, and touches only the lists the first page holds under [ks]. *)
Lemma for_each_extend (data response : page) (ks : list pystr) : forall st,
  (forall k, k ∈ ks -> exists o, dict_get k data = Some o /\
     (is_list (heap st !!! o) = true ->
      exists o', dict_get k response = Some o' /\ is_list (heap st !!! o') = true)) ->
  exists h',
    for_each ks (extend_field data response) st = (Ret tt, set_heap h' st)
    /\ (forall o, is_list (h' !!! o) = is_list (heap st !!! o))
    /\ (forall o,
          (forall k, k ∈ ks -> dict_get k data = Some o -> is_list (heap st !!! o) = false) ->
          h' !!! o = heap st !!! o).
Proof.
  induction ks as [|k ks IH]; intros st Hks.
  - exists (heap st). cbn. by rewrite set_heap_id.
  - destruct (Hks k) as (o & Hk & Hshape); [left|].
    destruct (is_list (heap st !!! o)) eqn:Hl.
    + destruct (is_list_VList _ Hl) as [a Ha].
      destruct Hshape as (o' & Hk' & Hl'); [done|].
      destruct (is_list_VList _ Hl') as [b Hb].
      set (st1 := set_heap (<[o := VList (a ++ b)]> (heap st)) st).
      assert (Hsame : forall x, is_list (heap st1 !!! x) = is_list (heap st !!! x)).
      { intros x. cbn. destruct (decide (x = o)) as [->|Hne].
        - by rewrite lookup_total_insert_eq, Hl.
        - by rewrite lookup_total_insert_ne. }
      destruct (IH st1) as (h' & Hrun & Hlist & Hframe).
      { intros k' Hin. destruct (Hks k') as (x & Hx & Hsh); [by right|].
        exists x. split; [done|]. rewrite Hsame. intros Hx'.
        destruct (Hsh Hx') as (x' & ? & ?). exists x'. by rewrite Hsame. }
      exists h'. split; [|split].
      * cbn [for_each]. erewrite bind_Ret by (eapply extend_field_list; eauto).
        apply Hrun.
      * intros x. by rewrite Hlist, Hsame.
      * intros x Hx. rewrite Hframe.
        -- cbn. apply lookup_total_insert_ne. intros <-.
           specialize (Hx k (list_elem_of_here _ _) Hk). congruence.
        -- intros k' Hin Hk2. rewrite Hsame. apply (Hx k'); [by right|done].
    + destruct (IH st) as (h' & Hrun & Hlist & Hframe).
      { intros k' Hin. apply Hks. by right. }
      exists h'. split; [|split].
      * cbn [for_each]. erewrite bind_Ret by (eapply extend_field_other; eauto).
        apply Hrun.
      * done.
      * intros x Hx. apply Hframe. intros k' Hin. apply Hx. by right.
Qed.

Lemma dict_get_keys {V} (k : pystr) (d : dict V) :
  k ∈ dict_keys d <-> exists v, dict_get k d = Some v.
Proof.
  induction d as [|[k' v'] d IH]; cbn.
  - split; [by intros ?%elem_of_nil | by intros [? ?]].
  - rewrite elem_of_cons, IH. destruct (decide (k = k')) as [->|Hne].
    + split; eauto.
    + split; [intros [?|?]; done | by right].
Qed.

Lemma dict_get_map {V W} (f : V -> W) (k : pystr) (d : dict V) :
  dict_get k (map (fun kv => (fst kv, f (snd kv))) d) = f <$> dict_get k d.
Proof.
  induction d as [|[k' v'] d IH]; cbn; [done|].
  by destruct (decide (k = k')).
Qed.

Lemma dict_keys_map {V W} (f : V -> W) (d : dict V) :
  dict_keys (map (fun kv => (fst kv, f (snd kv))) d) = dict_keys d.
Proof. unfold dict_keys. rewrite map_map. done. Qed.

(** The merge of a later page into the first one, seen from the field
    [Stacks]. *)
Lemma merge_Stacks (P1 P2 : page) (o1 o2 : obj) (s1 s2 : list value) (st : state) :
  NoDup (dict_keys P1) ->
  dict_get (py "Stacks") P1 = Some o1 -> heap st !!! o1 = VList s1 ->
  dict_get (py "Stacks") P2 = Some o2 -> heap st !!! o2 = VList s2 ->
  (forall k o, dict_get k P1 = Some o -> is_list (heap st !!! o) = true ->
     exists o', dict_get k P2 = Some o' /\ is_list (heap st !!! o') = true) ->
  (forall k o, k <> py "Stacks" -> dict_get k P1 = Some o ->
     is_list (heap st !!! o) = true -> o <> o1 /\ o <> o2) ->
  exists h',
    for_each (dict_keys P1) (extend_field P1 P2) st = (Ret tt, set_heap h' st)
    /\ h' !!! o1 = VList (s1 ++ s2)
    /\ (forall o, is_list (heap st !!! o) = false -> h' !!! o = heap st !!! o).
Proof.
  intros Hnd H1 Hs1 H2 Hs2 Hshape Hsep.
  assert (Hin : py "Stacks" ∈ dict_keys P1) by (apply dict_get_keys; eauto).
  apply list_elem_of_split in Hin as (pre & post & Hks).
  rewrite Hks in Hnd |- *.
  apply NoDup_app in Hnd as (_ & Hpre & Hpost%NoDup_cons).
  destruct Hpost as [Hpost _].
  assert (Hkeys : forall k, k ∈ dict_keys P1 -> exists o, dict_get k P1 = Some o)
    by (intros k; apply dict_get_keys).
  (* the keys before Stacks *)
  destruct (for_each_extend P1 P2 pre st) as (ha & Ha & Hla & Hfa).
  { intros k Hk. destruct (Hkeys k) as [o Ho].
    { rewrite Hks, elem_of_app. by left. }
    exists o. split; [done|]. by apply Hshape. }
  assert (Hne_pre : forall k, k ∈ pre -> k <> py "Stacks").
  { intros k Hk ->. by apply (Hpre (py "Stacks")); [|left]. }
  assert (Ha1 : ha !!! o1 = VList s1).
  { rewrite Hfa; [done|]. intros k Hk Hget.
    destruct (is_list (heap st !!! o1)) eqn:E; [|done].
    by destruct (Hsep k o1 (Hne_pre k Hk) Hget E). }
  assert (Ha2 : ha !!! o2 = VList s2).
  { rewrite Hfa; [done|]. intros k Hk Hget.
    destruct (is_list (heap st !!! o2)) eqn:E; [|done].
    by destruct (Hsep k o2 (Hne_pre k Hk) Hget E). }
  (* Stacks, then the keys after it *)
  set (sta := set_heap ha st).
  set (stb := set_heap (<[o1 := VList (s1 ++ s2)]> ha) st).
  assert (Hlb : forall o, is_list (heap stb !!! o) = is_list (heap st !!! o)).
  { intros o. cbn. destruct (decide (o = o1)) as [->|Hne].
    - by rewrite lookup_total_insert_eq, Hs1.
    - by rewrite lookup_total_insert_ne, Hla. }
  destruct (for_each_extend P1 P2 post stb) as (hc & Hc & Hlc & Hfc).
  { intros k Hk. destruct (Hkeys k) as [o Ho].
    { rewrite Hks, elem_of_app, elem_of_cons. by right; right. }
    exists o. split; [done|]. rewrite Hlb. intros Hl.
    destruct (Hshape k o Ho Hl) as (o' & ? & ?). exists o'. by rewrite Hlb. }
  exists hc. split; [|split].
  - rewrite (for_each_app pre _ _ st sta Ha). cbn [for_each].
    erewrite bind_Ret; [apply Hc|].
    by apply (extend_field_list P1 P2 _ o1 o2 s1 s2 sta).
  - rewrite Hfc; [cbn; by rewrite lookup_total_insert_eq|].
    intros k Hk Hget. rewrite Hlb.
    destruct (is_list (heap st !!! o1)) eqn:E; [|done].
    assert (k <> py "Stacks") as Hne by (intros ->; done).
    by destruct (Hsep k o1 Hne Hget E).
  - intros o Ho. rewrite Hfc.
    + cbn. rewrite lookup_total_insert_ne; [by apply Hfa|].
      intros <-. by rewrite Hs1 in Ho.
    + intros k _ _. by rewrite Hlb.
Qed.

Lemma iterate_pages_app (l1 l2 : list (outcome page)) (data : option page) (st : state) :
  iterate_pages data (l1 ++ l2) st
  = (data' ← iterate_pages data l1; iterate_pages data' l2) st.
Proof.
  revert data st. induction l1 as [|[response|e] l1 IH]; intros data st;
    cbn [app iterate_pages]; [done| |done].
  unfold mbind at 1 2 3, M_bind.
  destruct (add_page data response st) as [[data'|e] st1]; [apply IH | done].
Qed.

(** The attempts of a paginated operation make one pass over the pages of all
    of them. *)
Lemma attempts_pages (h : handler) (m : pystr) (ps : value) (n retry : nat)
    (data : option page) (st : state) :
  can_paginate h m = true ->
  attempts h m ps n retry data st = iterate_pages data (pages_of h m ps retry n) st.
Proof.
  intros Hcan. revert retry data st. induction n as [|n IH]; intros retry data st.
  - done.
  - unfold pages_of. cbn [attempts seq map concat]. rewrite iterate_pages_app.
    unfold attempt. rewrite Hcan. unfold mbind, M_bind.
    destruct (iterate_pages data (paginate h m ps retry) st) as [[data'|e] st1];
      [apply IH | done].
Qed.

(** Two pages in all: the first page is kept, the second is merged into it
    after the progress notice. *)
Lemma with_retries_two_pages (max_retries : Z) (h : handler) (m : pystr) (ps : value)
    (st st' : state) (P1 P2 : page) :
  can_paginate h m = true ->
  pages_of h m ps 0 (Z.to_nat max_retries) = [Ret P1; Ret P2] ->
  P1 <> [] ->
  for_each (dict_keys P1) (extend_field P1 P2) (add_stdout [py "  ...paginating"] st)
    = (Ret tt, st') ->
  with_retries max_retries h m ps st
  = (Ret (VDict (map (fun ko => (fst ko, heap st' !!! snd ko)) P1)), st').
Proof.
  intros Hcan Hpages Hne Hloop.
  unfold with_retries, try_except_ClientError.
  unfold mbind at 1, M_bind at 1. rewrite (attempts_pages _ _ _ _ _ _ _ Hcan), Hpages.
  cbn [iterate_pages].
  unfold add_page at 2. cbn [truthy negb].
  destruct P1 as [|kv P1]; [done|]. clear Hne.
  unfold mbind at 1 2 3, M_bind, mret, M_ret.
  unfold add_page. cbn [truthy negb default].
  unfold mbind, M_bind, print, id. rewrite Hloop. done.
Qed.

Lemma dict_get_In {V} (k : pystr) (d : dict V) (v : V) :
  dict_get k d = Some v -> In (k, v) d.
Proof.
  induction d as [|[k' v'] d IH]; cbn; [done|].
  destruct (decide (k = k')) as [->|Hne].
  - intros [= ->]. by left.
  - intros H. right. by apply IH.
Qed.

(** C2.  A paginated operation that returns, over the attempts of the call,
    the pages [P1] then [P2] (for the one attempt the callers ask for: the
    pages of that attempt), both with a list under [Stacks]: [with_retries]
    returns a result whose [Stacks] is the list of [P1] followed by the list
    of [P2], and every field of [P1] that is not a list is returned as it
    was.  The pages have the same shape, and the lists [P1] holds under its
    other keys are not the two [Stacks] objects. *)
Theorem pagination_merge (max_retries : Z) (h : handler) (m : pystr) (ps : value)
    (st : state) (P1 P2 : page) (o1 o2 : obj) (s1 s2 : list value) :
  can_paginate h m = true ->
  pages_of h m ps 0 (Z.to_nat max_retries) = [Ret P1; Ret P2] ->
  NoDup (dict_keys P1) ->
  dict_get (py "Stacks") P1 = Some o1 -> heap st !!! o1 = VList s1 ->
  dict_get (py "Stacks") P2 = Some o2 -> heap st !!! o2 = VList s2 ->
  same_shape (heap st) P1 P2 = true ->
  unshared (heap st) P1 (py "Stacks") [o1; o2] = true ->
  exists d h',
    with_retries max_retries h m ps st
      = (Ret (VDict d), add_stdout [py "  ...paginating"] (set_heap h' st))
    /\ dict_get (py "Stacks") d = Some (VList (s1 ++ s2))
    /\ dict_keys d = dict_keys P1
    /\ (forall k o, dict_get k P1 = Some o -> is_list (heap st !!! o) = false ->
          dict_get k d = Some (heap st !!! o)).
Proof.
  intros Hcan Hpages Hnd H1 Hs1 H2 Hs2 Hshape Hsep.
  destruct (merge_Stacks P1 P2 o1 o2 s1 s2 (add_stdout [py "  ...paginating"] st))
    as (h' & Hloop & Hstacks & Hother); try done.
  { intros k o Hk Hl. cbn in Hl.
    unfold same_shape in Hshape. rewrite forallb_forall in Hshape.
    specialize (Hshape _ (dict_get_In _ _ _ Hk)). cbn [fst snd] in Hshape.
    rewrite Hl in Hshape. cbn [implb] in Hshape.
    destruct (dict_get k P2) as [o'|]; [|done]. by exists o'. }
  { intros k o Hne Hk Hl. cbn in Hl.
    unfold unshared in Hsep. rewrite forallb_forall in Hsep.
    specialize (Hsep _ (dict_get_In _ _ _ Hk)). cbn [fst snd] in Hsep.
    rewrite Hl, bool_decide_eq_false_2 in Hsep by done.
    cbn [negb orb forallb] in Hsep.
    rewrite andb_true_r in Hsep. apply andb_true_iff in Hsep as [Ho1 Ho2].
    apply negb_true_iff, Nat.eqb_neq in Ho1, Ho2. done. }
  exists (map (fun ko => (fst ko, h' !!! snd ko)) P1), h'. split; [|split; [|split]].
  - assert (P1 <> []) as Hne by (by intros ->).
    by rewrite (with_retries_two_pages max_retries h m ps st _ P1 P2 Hcan Hpages Hne Hloop).
  - by rewrite (dict_get_map (fun o => h' !!! o)), H1, <- Hstacks.
  - apply (dict_keys_map (fun o => h' !!! o)).
  - intros k o Hk Hl. rewrite (dict_get_map (fun o => h' !!! o)), Hk.
    cbn. f_equal. by apply Hother.
Qed.

(** A first page that holds one list object under two keys: the object is
    extended once for each key, and [Stacks] ends with the lists of both
    fields of the second page. *)
Example shared_list_is_extended_twice :
  unshared (heap Sample.initial) Sample.shared1 (py "Stacks") [0%nat; 2%nat] = false
  /\ fst (with_retries 1 Sample.shared_pages (py "describe_stacks") (VDict [])
            Sample.initial)
     = Ret (VDict [(py "Stacks", VList [Sample.other; Sample.foo; Sample.bar; Sample.bar]);
                   (py "Exports", VList [Sample.other; Sample.foo; Sample.bar; Sample.bar])]).
Proof. split; vm_compute; reflexivity. Qed.

(** *** Retries *)

Lemma attempts_raise h m ps n retry data st e st' :
  attempt h m ps retry data st = (Raise e, st') ->
  attempts h m ps (S n) retry data st = (Raise e, st').
Proof. intros H. cbn [attempts]. by apply bind_Raise. Qed.

Lemma attempts_app h m ps a b retry data st data' st' :
  attempts h m ps a retry data st = (Ret data', st') ->
  attempts h m ps (a + b) retry data st = attempts h m ps b (retry + a) data' st'.
Proof.
  revert retry data st. induction a as [|a IH]; intros retry data st H; cbn in H.
  - injection H as <- <-. by rewrite Nat.add_0_r.
  - cbn [Nat.add attempts]. unfold mbind, M_bind in *.
    destruct (attempt h m ps retry data st) as [[d1|e] st1]; [|done].
    rewrite (IH _ _ _ H). f_equal. lia.
Qed.

(** Where the operation does not paginate, every attempt replaces [data]:
    the attempts after the first change nothing when the call answers the
    same each time. *)
Lemma attempts_call (h : handler) (m : pystr) (ps : value) (k retry : nat)
    (data : option page) (st : state) :
  can_paginate h m = false ->
  (forall n, call h m ps n = call h m ps 0) ->
  attempts h m ps (S k) retry data st
  = (Some <$> call h m ps 0%nat, st).
Proof.
  intros Hcan Hdet. revert retry data.
  induction k as [|k IH]; intros retry data.
  - cbn [attempts]. unfold attempt. rewrite Hcan, Hdet.
    unfold mbind, M_bind, lift. by destruct (call h m ps 0).
  - change (attempts h m ps (S (S k)) retry data st)
      with ((attempt h m ps retry data ≫= attempts h m ps (S k) (S retry)) st).
    unfold attempt at 1. rewrite Hcan, Hdet.
    unfold mbind at 1 2, M_bind, lift.
    destruct (call h m ps 0) as [r|e] eqn:E; [|done].
    unfold mret, M_ret. apply IH.
Qed.

Lemma with_retries_call (h : handler) (m : pystr) (ps : value) (k : nat) (st : state) :
  can_paginate h m = false ->
  (forall n, call h m ps n = call h m ps 0) ->
  with_retries (Z.of_nat (S k)) h m ps st = with_retries 1 h m ps st.
Proof.
  intros Hcan Hdet. unfold with_retries, try_except_ClientError.
  rewrite Nat2Z.id. change (Z.to_nat 1) with 1%nat.
  assert (Hk : (attempts h m ps (S k) 0 None ≫= fun data => snapshot data) st
               = (attempts h m ps 1 0 None ≫= fun data => snapshot data) st).
  { unfold mbind, M_bind. by rewrite !attempts_call. }
  by rewrite Hk.
Qed.

Example plain_call_twice :
  with_retries 2 Sample.plain (py "describe_stacks") (VDict []) Sample.initial
  = with_retries 1 Sample.plain (py "describe_stacks") (VDict []) Sample.initial
  /\ fst (with_retries 2 Sample.plain (py "describe_stacks") (VDict []) Sample.initial)
     = Ret (VDict [(py "Stacks", VList [Sample.bar])]).
Proof.
  split; [|vm_compute; reflexivity].
  by apply (with_retries_call Sample.plain _ _ 1).
Qed.

(** C3.  A paginated operation that returns one page with the stack [bar],
    on a new object at every attempt: after one attempt the result holds
    [bar] once, after two attempts twice.  The second attempt is merged into
    the result of the first. *)
Theorem retries_repeat_pages :
  fst (with_retries 1 Sample.one_page (py "describe_stacks") (VDict []) Sample.initial)
    = Ret (VDict [(py "Stacks", VList [Sample.bar])])
  /\ fst (with_retries 2 Sample.one_page (py "describe_stacks") (VDict []) Sample.initial)
    = Ret (VDict [(py "Stacks", VList [Sample.bar; Sample.bar])]).
Proof. split; vm_compute; reflexivity. Qed.

(** *** Remote errors *)

Lemma with_retries_not_ClientError mr h m ps st e :
  fst (with_retries mr h m ps st) = Raise e -> forall msg, e <> ClientError msg.
Proof.
  unfold with_retries, try_except_ClientError.
  destruct ((attempts h m ps (Z.to_nat mr) 0 None ≫= snapshot) st) as [[v|[]] st1];
    cbn; intros H msg'; try congruence.
  unfold mbind, M_bind, print in H. cbn in H. congruence.
Qed.

Lemma with_retries_client_error mr h m ps (i : nat) data st st_i st_e msg :
  Z.of_nat i < mr ->
  attempts h m ps i 0 None st = (Ret data, st_i) ->
  attempt h m ps i data st_i = (Raise (ClientError msg), st_e) ->
  with_retries mr h m ps st
  = (Ret (VDict [(py "exception", VExc msg)]), add_stdout [py "ClientError: " ++ msg] st_e).
Proof.
  intros Hi Hpre Herr. unfold with_retries, try_except_ClientError.
  replace (Z.to_nat mr) with (i + S (Z.to_nat mr - S i))%nat by lia.
  erewrite bind_Raise.
  2:{ rewrite (attempts_app _ _ _ _ _ _ _ _ _ _ Hpre). apply attempts_raise, Herr. }
  reflexivity.
Qed.

(** The remote call of an attempt raises: the call itself where the operation
    does not paginate, the request of a page where it does. *)
Lemma attempt_call_error h m ps retry data st e :
  can_paginate h m = false -> call h m ps retry = Raise e ->
  attempt h m ps retry data st = (Raise e, st).
Proof. intros Hcan Hcall. unfold attempt. rewrite Hcan, Hcall. done. Qed.

Lemma attempt_page_error h m ps retry data st e rest :
  can_paginate h m = true -> paginate h m ps retry = Raise e :: rest ->
  attempt h m ps retry data st = (Raise e, st).
Proof. intros Hcan Hpages. unfold attempt. rewrite Hcan, Hpages. done. Qed.

(** An operation that does not paginate: the calls that return leave the
    state as it was. *)
Lemma attempts_calls (h : handler) (m : pystr) (ps : value) (n retry : nat)
    (data : option page) (st : state) :
  can_paginate h m = false ->
  (forall j, (j < n)%nat -> exists r, call h m ps (retry + j) = Ret r) ->
  exists data', attempts h m ps n retry data st = (Ret data', st).
Proof.
  intros Hcan. revert retry data. induction n as [|n IH]; intros retry data Hcalls.
  - by exists data.
  - destruct (Hcalls 0%nat) as [r Hr]; [lia|]. rewrite Nat.add_0_r in Hr.
    destruct (IH (S retry) (Some r)) as [data' Hn].
    { intros j Hj. destruct (Hcalls (S j)) as [r' Hr']; [lia|].
      exists r'. by rewrite Nat.add_succ_comm. }
    exists data'. cbn [attempts]. erewrite bind_Ret; [exact Hn|].
    unfold attempt. rewrite Hcan. unfold mbind, M_bind, lift. by rewrite Hr.
Qed.

(** The [i]-th call of an operation that does not paginate raises a remote
    error, the calls before it having returned: the error is caught at once. *)
Lemma with_retries_call_error (max_retries : Z) (h : handler) (m : pystr) (ps : value)
    (i : nat) (st : state) (msg : pystr) :
  can_paginate h m = false ->
  Z.of_nat i < max_retries ->
  (forall j, (j < i)%nat -> exists r, call h m ps j = Ret r) ->
  call h m ps i = Raise (ClientError msg) ->
  with_retries max_retries h m ps st
  = (Ret (VDict [(py "exception", VExc msg)]), add_stdout [py "ClientError: " ++ msg] st).
Proof.
  intros Hcan Hi Hcalls Herr.
  destruct (attempts_calls h m ps i 0 None st Hcan Hcalls) as [data Hpre].
  apply (with_retries_client_error _ _ _ _ i data st st); [done..|].
  by apply attempt_call_error.
Qed.

Lemma collect_response w profile region target st sess cfn response st1 :
  boto3_Session w (sessions st) profile region = Ret sess ->
  client sess (py "cloudformation") = Ret cfn ->
  with_retries 1 cfn (py "describe_stacks") (VDict []) (add_session profile region st)
    = (Ret response, st1) ->
  collect w profile region target st = (collect_from_response w response target, st1).
Proof.
  intros Hs Hc Hr. unfold collect.
  erewrite bind_Ret; [|unfold create_session; by rewrite Hs].
  erewrite bind_Ret; [|unfold lift; by rewrite Hc].
  erewrite bind_Ret; [|apply Hr]. done.
Qed.

(** An exception of another class raised by an attempt is not caught. *)
Lemma with_retries_other_error mr h m ps (i : nat) data st st_i st_e e :
  Z.of_nat i < mr ->
  attempts h m ps i 0 None st = (Ret data, st_i) ->
  attempt h m ps i data st_i = (Raise e, st_e) ->
  (forall msg, e <> ClientError msg) ->
  with_retries mr h m ps st = (Raise e, st_e).
Proof.
  intros Hi Hpre Herr Hne. unfold with_retries, try_except_ClientError.
  replace (Z.to_nat mr) with (i + S (Z.to_nat mr - S i))%nat by lia.
  erewrite bind_Raise.
  2:{ rewrite (attempts_app _ _ _ _ _ _ _ _ _ _ Hpre). apply attempts_raise, Herr. }
  destruct e; try reflexivity. by destruct (Hne msg).
Qed.

(** C4, as the claim states it: every remote error raised during the call
    is converted to a value and none leaves [with_retries].  It fails for a
    network failure, which is no [ClientError]: the exception leaves
    [with_retries]. *)
Lemma network_error_is_not_captured :
  ~ (forall (h : handler) (m : pystr) (ps : value) (st st_e : state) (e : exn),
       remote_error e = true ->
       attempt h m ps 0 None st = (Raise e, st_e) ->
       exists v st', with_retries 1 h m ps st = (Ret v, st')).
Proof.
  intros H.
  destruct (H Cases.unreachable (py "describe_stacks") (VDict []) Sample.initial
              Sample.initial (OtherError (py "EndpointConnectionError")))
    as (v & st' & Hr); [reflexivity | reflexivity |].
  rewrite (with_retries_other_error 1 Cases.unreachable (py "describe_stacks")
             (VDict []) 0%nat None Sample.initial Sample.initial Sample.initial
             (OtherError (py "EndpointConnectionError"))) in Hr;
    [discriminate | lia | reflexivity | reflexivity | discriminate].
Qed.

(** C4.  An error response of the service ([ClientError]) raised by an
    attempt, the attempts before it having returned: [with_retries] prints
    it and returns the failure [{'exception': error}] from the state the
    error left, whatever number of attempts remained; no call of
    [with_retries] ever raises a [ClientError]; [collect], whose one attempt
    raised it, returns the failure whose message is the text of the error;
    and an exception of any other class raised by an attempt - a network
    failure, say - ends the attempts as well but is not caught: it leaves
    [with_retries]. *)
Theorem remote_error_is_captured (max_retries : Z) (h : handler) (m : pystr) (ps : value)
    (i : nat) (data : option page) (st st_i st_e : state) (msg : pystr) :
  Z.of_nat i < max_retries ->
  attempts h m ps i 0 None st = (Ret data, st_i) ->
  attempt h m ps i data st_i = (Raise (ClientError msg), st_e) ->
  with_retries max_retries h m ps st
    = (Ret (VDict [(py "exception", VExc msg)]),
       add_stdout [py "ClientError: " ++ msg] st_e)
  /\ (forall mr h' m' ps' st' e,
        fst (with_retries mr h' m' ps' st') = Raise e -> forall msg', e <> ClientError msg')
  /\ (forall w profile region target s sess cfn s_e msg',
        boto3_Session w (sessions s) profile region = Ret sess ->
        client sess (py "cloudformation") = Ret cfn ->
        attempt cfn (py "describe_stacks") (VDict []) 0 None (add_session profile region s)
          = (Raise (ClientError msg'), s_e) ->
        collect w profile region target s
          = (Ret (Failure msg'), add_stdout [py "ClientError: " ++ msg'] s_e))
  /\ (forall mr h' m' ps' (j : nat) data' s s_j s_e e,
        Z.of_nat j < mr ->
        attempts h' m' ps' j 0 None s = (Ret data', s_j) ->
        attempt h' m' ps' j data' s_j = (Raise e, s_e) ->
        (forall msg', e <> ClientError msg') ->
        with_retries mr h' m' ps' s = (Raise e, s_e)).
Proof.
  intros Hi Hpre Herr. split; [|split; [|split]].
  4:{ intros mr h' m' ps' j data' s s_j s_e e. apply with_retries_other_error. }
  - by apply (with_retries_client_error _ _ _ _ i data st st_i).
  - intros mr h' m' ps' st' e. apply with_retries_not_ClientError.
  - intros w profile region target s sess cfn s_e msg' Hs Hc He.
    rewrite (collect_response w profile region target s sess cfn
               (VDict [(py "exception", VExc msg')])
               (add_stdout [py "ClientError: " ++ msg'] s_e) Hs Hc).
    + reflexivity.
    + by apply (with_retries_client_error _ _ _ _ 0%nat None _
                  (add_session profile region s) s_e).
Qed.

(** ** Per-Account Collector *)

(** What [collect] makes of a response whose [Stacks] is a list of stack
    descriptions. *)
Lemma collect_from_stacks (w : env) (d : dict value) (stacks : list value) (target : pystr) :
  dict_get (py "Stacks") d = Some (VList stacks) ->
  Forall is_stack stacks ->
  collect_from_response w (VDict d) target
  = match filter (fun s => target `prefix_of` stack_name s) stacks with
    | first :: _ => Ret (Success (stack_outputs first))
    | [] =>
        match dict_get (py "exception") d with
        | Some exception => Ret (Failure (py_str w exception))
        | None => Ret VNone
        end
    end.
Proof.
  intros Hstacks Hwf.
  unfold collect_from_response. cbn [py_get]. rewrite Hstacks.
  cbn [default from_option id mbind outcome_bind].
  rewrite (filter_by_name_stacks stacks target Hwf).
  cbn [mbind outcome_bind].
  destruct (filter (fun s => target `prefix_of` stack_name s) stacks)
    as [|first others] eqn:E; [done|].
  assert (is_stack first) as (df & -> & _).
  { rewrite Forall_forall in Hwf. apply Hwf.
    apply (list_elem_of_filter (fun s => target `prefix_of` stack_name s)).
    rewrite E. left. }
  reflexivity.
Qed.

(** C5.  The call of [describe_stacks] for the profile returns a response
    whose [Stacks] is a list of stack descriptions, and at least one of them
    has a name that starts with the target prefix: [collect] returns the
    success that carries the outputs of the first of them, in the order of
    the filter. *)
Theorem collect_first_match (w : env) (profile region target : pystr) (st st1 : state)
    (sess : session) (cfn : handler) (d : dict value) (stacks : list value)
    (first : value) (others : list value) :
  boto3_Session w (sessions st) profile region = Ret sess ->
  client sess (py "cloudformation") = Ret cfn ->
  with_retries 1 cfn (py "describe_stacks") (VDict []) (add_session profile region st)
    = (Ret (VDict d), st1) ->
  dict_get (py "Stacks") d = Some (VList stacks) ->
  Forall is_stack stacks ->
  filter (fun s => target `prefix_of` stack_name s) stacks = first :: others ->
  collect w profile region target st = (Ret (Success (stack_outputs first)), st1).
Proof.
  intros Hs Hc Hr Hstacks Hwf Hfilter.
  rewrite (collect_response w profile region target st sess cfn (VDict d) st1 Hs Hc Hr).
  by rewrite (collect_from_stacks w d stacks target Hstacks Hwf), Hfilter.
Qed.

(** ** Summary *)

Lemma gather_failures_dicts (summary : dict value) (keys : list pystr) (acc : list value) :
  (forall p, p ∈ keys -> exists d, dict_get p summary = Some (VDict d)) ->
  gather_failures summary keys acc = Ret (acc ++ failures_of summary keys).
Proof.
  revert acc. induction keys as [|p keys IH]; intros acc Hkeys.
  - cbn. by rewrite app_nil_r.
  - destruct (Hkeys p) as [d Hd]; [left|].
    cbn [gather_failures]. rewrite Hd. cbn [py_get mbind outcome_bind].
    rewrite IH by (intros q Hq; apply Hkeys; by right).
    cbn [failures_of]. rewrite Hd. cbn [mbind option_bind failure_of].
    destruct (dict_get (py "exception") d) as [[]|]; cbn [default from_option id];
      by rewrite <- ?app_assoc.
Qed.

Lemma gather_failures_None (summary : dict value) (keys : list pystr) (acc : list value)
    (p : pystr) :
  (forall q, q ∈ keys -> q ∈ dict_keys summary) ->
  p ∈ keys -> dict_get p summary = Some VNone ->
  gather_failures summary keys acc = Raise AttributeError.
Proof.
  revert acc. induction keys as [|q keys IH]; intros acc Hkeys Hin Hp.
  - by apply elem_of_nil in Hin.
  - cbn [gather_failures].
    destruct (proj1 (dict_get_keys q summary) (Hkeys q (list_elem_of_here _ _)))
      as [entry Hentry].
    rewrite Hentry. destruct entry; try done. cbn [py_get mbind outcome_bind].
    apply IH; [intros; apply Hkeys; by right| |done].
    apply elem_of_cons in Hin as [->|Hin]; [congruence|done].
Qed.

Lemma add_stdout_app (l1 l2 : list pystr) (st : state) :
  add_stdout l2 (add_stdout l1 st) = add_stdout (l1 ++ l2) st.
Proof. unfold add_stdout. cbn. by rewrite app_assoc. Qed.

Lemma add_stdout_nil (st : state) : add_stdout [] st = st.
Proof. unfold add_stdout. rewrite app_nil_r. by destruct st. Qed.

Lemma for_each_print (lines : list pystr) (st : state) :
  for_each lines print st = (Ret tt, add_stdout lines st).
Proof.
  revert st. induction lines as [|l lines IH]; intros st.
  - cbn. by rewrite add_stdout_nil.
  - cbn [for_each]. erewrite bind_Ret by reflexivity. rewrite IH.
    by rewrite add_stdout_app.
Qed.

Lemma for_each_print_str (w : env) (failures : list value) (st : state) :
  for_each failures (fun failure => print (py_str w failure)) st
  = (Ret tt, add_stdout (map (py_str w) failures) st).
Proof.
  revert st. induction failures as [|f failures IH]; intros st.
  - cbn. by rewrite add_stdout_nil.
  - cbn [for_each]. erewrite bind_Ret by reflexivity. rewrite IH.
    by rewrite add_stdout_app.
Qed.

(** [print_summary] on a summary whose entries are all [dict]s: it returns
    when no entry holds a failure, and otherwise prints every failure, in the
    order of the summary, and leaves with [exit(-1)]. *)
Lemma print_summary_dicts (w : env) (summary : dict value) (st : state) :
  (forall p, p ∈ dict_keys summary -> exists d, dict_get p summary = Some (VDict d)) ->
  let failures := failures_of summary (dict_keys summary) in
  print_summary w summary st
  = match failures with
    | [] => (Ret tt, add_stdout [dashes; summary_line summary failures] st)
    | _ =>
        (Raise (SystemExit (-1)),
         add_stdout ([dashes; summary_line summary failures; py "Failures:"]
                       ++ map (py_str w) failures) st)
    end.
Proof.
  intros Hd failures. unfold print_summary.
  erewrite bind_Ret by reflexivity.
  erewrite bind_Ret by (unfold lift; by rewrite gather_failures_dicts).
  erewrite bind_Ret by reflexivity. cbn [app]. fold failures.
  destruct failures as [|f fs] eqn:E.
  - cbn [length Nat.ltb Nat.leb]. unfold mret, M_ret. by rewrite add_stdout_app.
  - cbn [length Nat.ltb Nat.leb]. erewrite bind_Ret by reflexivity.
    erewrite bind_Ret by apply for_each_print_str.
    unfold raise. by rewrite !add_stdout_app.
Qed.

(** [print_summary] on a summary with a [None] entry. *)
Lemma print_summary_None (w : env) (summary : dict value) (st : state) (p : pystr) :
  dict_get p summary = Some VNone ->
  print_summary w summary st = (Raise AttributeError, add_stdout [dashes] st).
Proof.
  intros Hp. unfold print_summary.
  erewrite bind_Ret by reflexivity.
  erewrite bind_Raise; [reflexivity|].
  unfold lift. f_equal. apply (gather_failures_None _ _ _ p); [done| |done].
  apply dict_get_keys. eauto.
Qed.

(** ** What the caller leaves alone *)

Lemma keeps_ret {A} (a : A) : keeps_world (mret a).
Proof. by intros st o st' [= <- <-]. Qed.

Lemma keeps_raise {A} (e : exn) : keeps_world (@raise A e).
Proof. by intros st o st' [= <- <-]. Qed.

Lemma keeps_lift {A} (r : outcome A) : keeps_world (lift r).
Proof. by intros st o st' [= <- <-]. Qed.

Lemma keeps_print (line : pystr) : keeps_world (print line).
Proof. by intros st o st' [= <- <-]. Qed.

Lemma keeps_load (o : nat) : keeps_world (load o).
Proof. by intros st r st' [= <- <-]. Qed.

Lemma keeps_store (o : nat) (v : value) : keeps_world (store o v).
Proof. by intros st r st' [= <- <-]. Qed.

Lemma keeps_snapshot (data : option page) : keeps_world (snapshot data).
Proof. by intros st r st' [= <- <-]. Qed.

Lemma keeps_bind {A B} (m : M A) (k : A -> M B) :
  keeps_world m -> (forall a, keeps_world (k a)) -> keeps_world (m ≫= k).
Proof.
  intros Hm Hk st o st'. unfold mbind, M_bind.
  destruct (m st) as [[a|e] st1] eqn:E; destruct (Hm _ _ _ E) as [Hs Hf].
  - intros H. destruct (Hk a _ _ _ H). split; congruence.
  - by intros [= <- <-].
Qed.

Lemma keeps_try {A} (body : M A) (handler : pystr -> M A) :
  keeps_world body -> (forall msg, keeps_world (handler msg)) ->
  keeps_world (try_except_ClientError body handler).
Proof.
  intros Hb Hh st o st'. unfold try_except_ClientError.
  destruct (body st) as [[a|e] st1] eqn:E; destruct (Hb _ _ _ E) as [Hs Hf].
  - by intros [= <- <-].
  - destruct e; try by intros [= <- <-].
    intros H. destruct (Hh _ _ _ _ H). split; congruence.
Qed.

Lemma keeps_for_each {A} (l : list A) (body : A -> M unit) :
  (forall x, keeps_world (body x)) -> keeps_world (for_each l body).
Proof.
  intros Hb. induction l as [|x l IH]; cbn [for_each].
  - apply keeps_ret.
  - apply keeps_bind; [apply Hb | intros _; apply IH].
Qed.

Create HintDb keeps.
#[local] Hint Resolve keeps_ret keeps_raise keeps_lift keeps_print keeps_load
  keeps_store keeps_snapshot : keeps.

Lemma keeps_extend_field (data response : page) (k : pystr) :
  keeps_world (extend_field data response k).
Proof.
  unfold extend_field. destruct (dict_get k data); [|auto with keeps].
  apply keeps_bind; [auto with keeps|]. intros v.
  destruct v; auto with keeps.
  destruct (dict_get k response); [|auto with keeps].
  repeat (apply keeps_bind; [auto with keeps|]; intros ?). auto with keeps.
Qed.

Lemma keeps_add_page (data : option page) (response : page) :
  keeps_world (add_page data response).
Proof.
  unfold add_page. destruct (negb (truthy data)); [auto with keeps|].
  apply keeps_bind; [auto with keeps|]. intros _.
  apply keeps_bind; [|auto with keeps].
  apply keeps_for_each. intros k. apply keeps_extend_field.
Qed.

Lemma keeps_iterate_pages (pages : list (outcome page)) (data : option page) :
  keeps_world (iterate_pages data pages).
Proof.
  revert data. induction pages as [|[response|e] pages IH]; intros data;
    cbn [iterate_pages]; auto with keeps.
  apply keeps_bind; [apply keeps_add_page | intros; apply IH].
Qed.

Lemma keeps_attempts h m ps (n retry : nat) (data : option page) :
  keeps_world (attempts h m ps n retry data).
Proof.
  revert retry data. induction n as [|n IH]; intros retry data; cbn [attempts].
  - auto with keeps.
  - apply keeps_bind; [|intros; apply IH].
    unfold attempt. destruct (can_paginate h m).
    + apply keeps_iterate_pages.
    + apply keeps_bind; auto with keeps.
Qed.

Lemma keeps_with_retries mr h m ps : keeps_world (with_retries mr h m ps).
Proof.
  unfold with_retries. apply keeps_try.
  - apply keeps_bind; [apply keeps_attempts | auto with keeps].
  - intros msg. apply keeps_bind; auto with keeps.
Qed.

(** [collect] opens one session, for its profile, and writes no file. *)
Lemma collect_world (w : env) (profile region target : pystr) (st st' : state)
    (r : outcome value) :
  collect w profile region target st = (r, st') ->
  sessions st' = sessions st ++ [(profile, region)] /\ files st' = files st.
Proof.
  unfold collect, create_session.
  unfold mbind at 1, M_bind at 1.
  destruct (boto3_Session w (sessions st) profile region) as [sess|e];
    [|by intros [= <- <-]].
  intros H.
  assert (Hk : keeps_world
            (cfn_client ← lift (client sess (py "cloudformation"));
             response ← with_retries 1 cfn_client (py "describe_stacks") (VDict []);
             lift (collect_from_response w response target))).
  { apply keeps_bind; [auto with keeps|]. intros cfn.
    apply keeps_bind; [apply keeps_with_retries | auto with keeps]. }
  by destruct (Hk _ _ _ H) as [-> ->].
Qed.

(** ** Run Orchestrator *)

Lemma dict_get_set_eq {V} (k : pystr) (v : V) (d : dict V) :
  dict_get k (dict_set k v d) = Some v.
Proof.
  induction d as [|[k' v'] d IH]; cbn.
  - by rewrite decide_True.
  - destruct (decide (k = k')) as [->|Hne]; cbn.
    + by rewrite decide_True.
    + by rewrite decide_False.
Qed.

Lemma dict_get_set_ne {V} (k k' : pystr) (v : V) (d : dict V) :
  k <> k' -> dict_get k' (dict_set k v d) = dict_get k' d.
Proof.
  intros Hne. induction d as [|[k0 v0] d IH]; cbn.
  - by rewrite decide_False.
  - destruct (decide (k = k0)) as [->|Hne0]; cbn.
    + by rewrite !decide_False.
    + by rewrite IH.
Qed.

Lemma dict_set_keys {V} (k : pystr) (v : V) (d : dict V) :
  dict_keys (dict_set k v d)
  = if decide (k ∈ dict_keys d) then dict_keys d else dict_keys d ++ [k].
Proof.
  unfold dict_keys. induction d as [|[k' v'] d IH]; cbn.
  - rewrite decide_False; [done | apply not_elem_of_nil].
  - destruct (decide (k = k')) as [->|Hne]; cbn.
    + rewrite decide_True; [done | left].
    + rewrite IH. destruct (decide (k ∈ map fst d)) as [Hin|Hin].
      * rewrite decide_True; [done | by right].
      * rewrite decide_False; [done|]. by intros [?|?]%elem_of_cons.
Qed.

Lemma dict_set_NoDup {V} (k : pystr) (v : V) (d : dict V) :
  NoDup (dict_keys d) -> NoDup (dict_keys (dict_set k v d)).
Proof.
  intros Hd. rewrite dict_set_keys. destruct (decide (k ∈ dict_keys d)); [done|].
  apply NoDup_app. split; [done|]. split; [|apply NoDup_singleton].
  intros x Hx ->%list_elem_of_singleton. done.
Qed.

Lemma dict_set_elem {V} (k p : pystr) (v : V) (d : dict V) :
  p ∈ dict_keys (dict_set k v d) <-> p ∈ dict_keys d \/ p = k.
Proof.
  rewrite dict_set_keys. destruct (decide (k ∈ dict_keys d)) as [Hin|Hin].
  - split; [by left | by intros [?| ->]].
  - rewrite elem_of_app, list_elem_of_singleton. done.
Qed.

(** The report has one entry for each profile, and no other. *)
Lemma record_results_keys (ps : list pystr) (vs : list value) (outcome : dict value) :
  length ps = length vs -> NoDup (dict_keys outcome) ->
  NoDup (dict_keys (record_results ps vs outcome))
  /\ forall p, p ∈ dict_keys (record_results ps vs outcome)
               <-> p ∈ dict_keys outcome \/ p ∈ ps.
Proof.
  revert vs outcome. induction ps as [|q ps IH]; intros [|v vs] outcome Hlen Hnd;
    try discriminate.
  - split; [done|]. intros p. rewrite elem_of_nil. tauto.
  - cbn in Hlen. injection Hlen as Hlen.
    destruct (IH vs (dict_set q v outcome) Hlen (dict_set_NoDup _ _ _ Hnd)) as [H1 H2].
    split; [done|]. intros p.
    change (record_results (q :: ps) (v :: vs) outcome)
      with (record_results ps vs (dict_set q v outcome)).
    rewrite H2, dict_set_elem, elem_of_cons. tauto.
Qed.

(** The entry of a profile is the result of its last call. *)
Lemma record_results_last (pre post : list pystr) (p : pystr)
    (vpre vpost : list value) (v : value) (outcome : dict value) :
  length pre = length vpre -> p ∉ post ->
  dict_get p (record_results (pre ++ p :: post) (vpre ++ v :: vpost) outcome) = Some v.
Proof.
  intros Hlen Hpost. unfold record_results.
  rewrite zip_with_app by done. rewrite fold_left_app. cbn [zip_with fold_left fst snd].
  generalize (fold_left (fun o pv => dict_set pv.1 pv.2 o) (zip pre vpre) outcome).
  intros o. assert (Hv : dict_get p (dict_set p v o) = Some v) by apply dict_get_set_eq.
  revert Hv. generalize (dict_set p v o). clear o.
  revert vpost. induction post as [|q post IH]; intros vpost o Hv; [done|].
  destruct vpost as [|v' vpost]; [done|]. cbn.
  apply IH.
  - intros Hin. apply Hpost. by right.
  - rewrite dict_get_set_ne; [done|]. intros ->. apply Hpost. left.
Qed.

Lemma collected_length w region target st ps vs st' :
  collected w region target st ps vs st' -> length ps = length vs.
Proof. induction 1; cbn; congruence. Qed.

Lemma collected_world w region target st ps vs st' :
  collected w region target st ps vs st' ->
  sessions st' = sessions st ++ map (fun p => (p, region)) ps
  /\ files st' = files st.
Proof.
  induction 1 as [st|st p v st1 ps vs st2 Hc _ [IHs IHf]].
  - by rewrite app_nil_r.
  - destruct (collect_world _ _ _ _ _ _ _ Hc) as [Hs Hf].
    rewrite IHs, IHf, Hs, Hf, <- app_assoc. done.
Qed.

Lemma collect_profiles_collected w region target st ps vs st' (outcome : dict value) :
  collected w region target st ps vs st' ->
  collect_profiles w ps region target outcome st
  = (Ret (record_results ps vs outcome), st').
Proof.
  intros H. revert outcome. induction H as [st|st p v st1 ps vs st2 Hc _ IH];
    intros outcome; [done|].
  cbn [collect_profiles]. erewrite bind_Ret by apply Hc. apply IH.
Qed.

Lemma collect_profiles_returns w region target ps st (outcome outcome' : dict value) st' :
  collect_profiles w ps region target outcome st = (Ret outcome', st') ->
  exists vs, collected w region target st ps vs st'
             /\ outcome' = record_results ps vs outcome.
Proof.
  revert st outcome. induction ps as [|p ps IH]; intros st outcome.
  - intros [= <- <-]. exists []. split; [constructor | done].
  - cbn [collect_profiles]. unfold mbind, M_bind.
    destruct (collect w p region target st) as [[v|e] st1] eqn:E; [|done].
    intros H. destruct (IH _ _ H) as (vs & Hvs & ->).
    exists (v :: vs). split; [by econstructor | done].
Qed.

(** The report of a loop that ends has exactly one entry for each distinct
    profile. *)
Lemma report_keys w region target ps st (outcome : dict value) st' :
  collect_profiles w ps region target [] st = (Ret outcome, st') ->
  NoDup (dict_keys outcome) /\ forall p, p ∈ dict_keys outcome <-> p ∈ ps.
Proof.
  intros H. destruct (collect_profiles_returns _ _ _ _ _ _ _ _ H) as (vs & Hc & ->).
  destruct (record_results_keys ps vs [] (collected_length _ _ _ _ _ _ _ Hc))
    as [Hnd Hkeys]; [constructor|].
  split; [done|]. intros p. rewrite Hkeys, elem_of_nil. tauto.
Qed.

(** The loop done, [run] writes the report and prints the summary. *)
Lemma run_collected (w : env) (args : arguments) (st st' : state) (outcome : dict value) :
  collect_profiles w (split_comma (arg_profiles args)) (arg_region args)
    (arg_target args) [] (cleaned args st) = (Ret outcome, st') ->
  run w args st
  = (write_file (VDict outcome) (py "account-data/stackset");;
     print_summary w outcome) st'.
Proof.
  intros H. unfold run.
  erewrite (bind_Ret _ _ st tt (cleaned args st)).
  2:{ unfold cleaned. by destruct (arg_clean args). }
  erewrite bind_Ret by apply H. done.
Qed.

(** C8.  The calls of [collect] for the profiles, whatever each of them
    returns (a success, a failure or nothing): the loop of [run] makes them
    in the order of the profiles, one session a profile, goes on after a
    failure, and records the result of every profile in the report, which
    [run] then writes and summarizes. *)
Theorem every_profile_is_collected (w : env) (region target : pystr)
    (profiles : list pystr) (results : list value) (st st' : state) :
  collected w region target st profiles results st' ->
  let outcome := record_results profiles results [] in
  collect_profiles w profiles region target [] st = (Ret outcome, st')
  /\ sessions st' = sessions st ++ map (fun p => (p, region)) profiles
  /\ (forall p, p ∈ profiles -> dict_mem p outcome = true)
  /\ (forall pre p post vpre v vpost,
        profiles = pre ++ p :: post -> results = vpre ++ v :: vpost ->
        length pre = length vpre -> p ∉ post ->
        dict_get p outcome = Some v)
  /\ (forall pre p post msg,
        profiles = pre ++ p :: post -> results !! length pre = Some (Failure msg) ->
        forall q, q ∈ post ->
          (q, region) ∈ sessions st' /\ dict_mem q outcome = true)
  /\ (forall args st0,
        split_comma (arg_profiles args) = profiles -> arg_region args = region ->
        arg_target args = target -> cleaned args st0 = st ->
        run w args st0
        = (write_file (VDict outcome) (py "account-data/stackset");;
           print_summary w outcome) st').
Proof.
  intros Hc outcome.
  pose proof (collect_profiles_collected _ _ _ _ _ _ _ [] Hc) as Hloop.
  destruct (collected_world _ _ _ _ _ _ _ Hc) as [Hs _].
  destruct (record_results_keys profiles results [] (collected_length _ _ _ _ _ _ _ Hc))
    as [_ Hkeys]; [constructor|].
  assert (Hmem : forall p, p ∈ profiles -> dict_mem p outcome = true).
  { intros p Hp. unfold dict_mem.
    destruct (proj1 (dict_get_keys p outcome)) as [v ->]; [|done].
    apply Hkeys. by right. }
  split; [done|]. split; [done|]. split; [done|]. split; [|split].
  - intros pre p post vpre v vpost -> -> Hlen Hpost.
    by apply record_results_last.
  - intros pre p post msg -> _ q Hq. split.
    + rewrite Hs, elem_of_app. right.
      apply (list_elem_of_fmap_2 (fun p => (p, region))).
      rewrite elem_of_app, elem_of_cons. by right; right.
    + apply Hmem. rewrite elem_of_app, elem_of_cons. by right; right.
  - intros args st0 <- <- <- <-. by apply run_collected.
Qed.

(** ** Collection results *)

Lemma first_stack_outputs (all_stacks : value) (target : pystr) (x : value) :
  (target_stacks ← filter_by_name all_stacks target;
   match target_stacks with
   | stack :: _ =>
       outputs ← py_get stack (py "Outputs") (VList []);
       Ret (Some (VDict [(py "outputs", outputs)]))
   | [] => Ret None
   end) = Ret (Some x) ->
  exists outputs, x = Success outputs.
Proof.
  destruct (filter_by_name all_stacks target) as [[|stack ?]|]; cbn; [done| |done].
  destruct (py_get stack (py "Outputs") (VList [])) as [outputs|]; cbn; [|done].
  intros [= <-]. by exists outputs.
Qed.

(** What [collect] returns is a success, a failure, or [None]. *)
Lemma collect_from_response_variants (w : env) (response : value) (target : pystr)
    (v : value) :
  collect_from_response w response target = Ret v ->
  (exists outputs, v = Success outputs) \/ (exists message, v = Failure message)
  \/ v = VNone.
Proof.
  unfold collect_from_response.
  destruct (py_get response (py "Stacks") VNone) as [all_stacks|e] eqn:Eget; [|done].
  unfold mbind at 1, outcome_bind at 1. cbv beta iota.
  lazymatch goal with
  | |- mbind ?K ?S = _ -> _ => destruct S as [[x|]|e] eqn:ES; [| |done]
  end; cbn [mbind outcome_bind].
  - intros [= <-]. left.
    destruct all_stacks; try discriminate; exact (first_stack_outputs _ _ _ ES).
  - destruct response; try done.
    destruct (dict_get (py "exception") d); intros [= <-]; eauto.
Qed.

Lemma collect_variants (w : env) (profile region target : pystr) (st st' : state)
    (v : value) :
  collect w profile region target st = (Ret v, st') ->
  (exists outputs, v = Success outputs) \/ (exists message, v = Failure message)
  \/ v = VNone.
Proof.
  unfold collect, mbind, M_bind, create_session, lift.
  destruct (boto3_Session w (sessions st) profile region) as [sess|]; [|done].
  destruct (client sess (py "cloudformation")) as [cfn|]; [|done].
  destruct (with_retries 1 cfn (py "describe_stacks") (VDict [])
              (add_session profile region st)) as [[response|] st1]; [|done].
  intros [= H _]. by apply collect_from_response_variants in H.
Qed.

Lemma filter_none {A} (P : A -> Prop) `{!forall x, Decision (P x)} (l : list A) :
  Forall (fun x => ~ P x) l -> filter P l = [].
Proof.
  induction 1 as [|x l Hx _ IH]; [done|]. by rewrite filter_cons_False.
Qed.

(** C9.  In the example world the profile [c] has the one stack [proj-bar]:
    collecting the prefix [proj-foo] for it returns [None], which is neither a
    success nor a failure. *)
Theorem collect_returns_neither_variant :
  fst (collect Sample.world (py "c") (py "eu-west-1") (py "proj-foo") Sample.initial)
  = Ret VNone
  /\ (forall outputs, VNone <> Success outputs)
  /\ (forall message, VNone <> Failure message).
Proof. split; [vm_compute; reflexivity | split; intros; discriminate]. Qed.

(** C6.  In the example world the profile [b] is denied and the profile [c]
    has no stack with the prefix: the run over the two ends in
    [print_summary] with an [AttributeError]; the failure of [b] is not
    among the lines the summary prints, and the exit status is the one of an
    uncaught exception. *)
Theorem summary_lost_on_missing_result :
  let args := mkArguments (py "proj-foo") (py "eu-west-1") (py "b,c") false in
  let end_of_run := run Sample.world args Sample.initial in
  fst end_of_run = Raise AttributeError
  /\ stdout (snd end_of_run) = [py "ClientError: AccessDenied"; dashes]
  /\ exit_status (fst end_of_run) = 1
  /\ print_summary Sample.world
       [(py "b", Failure (py "AccessDenied")); (py "c", VNone)] Sample.initial
     = (Raise AttributeError, add_stdout [dashes] Sample.initial).
Proof. repeat split; vm_compute; reflexivity. Qed.

(** C10.  The call of [describe_stacks] for a profile returns a response whose
    [Stacks] is a list of stack descriptions, none with a name that starts
    with the target prefix, and which has no [exception] key: [collect]
    returns [None].  A summary with a [None] entry: [print_summary] prints the
    separator and raises [AttributeError], so the summary line is not printed;
    and a run whose report has such an entry, once the report is written,
    ends with that exception, neither returning nor leaving through
    [exit]. *)
Theorem no_match_ends_run_with_exception (w : env) (profile region target : pystr)
    (st st1 st2 : state) (sess : session) (cfn : handler) (d : dict value)
    (stacks : list value) (summary : dict value) (p : pystr) :
  boto3_Session w (sessions st) profile region = Ret sess ->
  client sess (py "cloudformation") = Ret cfn ->
  with_retries 1 cfn (py "describe_stacks") (VDict []) (add_session profile region st)
    = (Ret (VDict d), st1) ->
  dict_get (py "Stacks") d = Some (VList stacks) ->
  Forall is_stack stacks ->
  Forall (fun s => ~ target `prefix_of` stack_name s) stacks ->
  dict_get (py "exception") d = None ->
  dict_get p summary = Some VNone ->
  collect w profile region target st = (Ret VNone, st1)
  /\ print_summary w summary st2 = (Raise AttributeError, add_stdout [dashes] st2)
  /\ (forall args st0 st' text,
        collect_profiles w (split_comma (arg_profiles args)) (arg_region args)
          (arg_target args) [] (cleaned args st0) = (Ret summary, st') ->
        json_dumps (VDict summary) = Ret text ->
        exists st_end,
          run w args st0 = (Raise AttributeError, st_end)
          /\ stdout st_end = stdout st' ++ [dashes]
          /\ exit_status (fst (run w args st0)) = 1).
Proof.
  intros Hs Hc Hr Hstacks Hwf Hnone Hexc Hp. split; [|split].
  - rewrite (collect_response w profile region target st sess cfn (VDict d) st1 Hs Hc Hr).
    rewrite (collect_from_stacks w d stacks target Hstacks Hwf), Hexc.
    by rewrite filter_none.
  - by apply (print_summary_None w summary st2 p).
  - intros args st0 st' text Hloop Htext.
    rewrite (run_collected w args st0 st' summary Hloop).
    unfold write_file. eexists. split; [|split].
    + erewrite bind_Ret.
      2:{ erewrite bind_Ret by reflexivity.
          erewrite bind_Ret by (unfold lift; by rewrite Htext). reflexivity. }
      by apply (print_summary_None w summary _ p).
    + cbn. done.
    + erewrite bind_Ret.
      2:{ erewrite bind_Ret by reflexivity.
          erewrite bind_Ret by (unfold lift; by rewrite Htext). reflexivity. }
      by rewrite (print_summary_None w summary _ p).
Qed.

(** ** Serialization *)

Lemma value_induction (P : value -> Prop) :
  P VNone -> (forall b, P (VBool b)) -> (forall z, P (VInt z)) ->
  (forall s, P (VStr s)) -> (forall b, P (VBytes b)) -> (forall d, P (VDatetime d)) ->
  (forall l, Forall P l -> P (VList l)) ->
  (forall d, Forall (fun kv => P (snd kv)) d -> P (VDict d)) ->
  (forall msg, P (VExc msg)) -> (forall ty, P (VOther ty)) ->
  forall v, P v.
Proof.
  intros HNone HBool HInt HStr HBytes HDate HList HDict HExc HOther.
  fix IH 1. intros [ |b|z|s|b|d|l|d|msg|ty];
    [apply HNone | apply HBool | apply HInt | apply HStr | apply HBytes
     | apply HDate | | | apply HExc | apply HOther].
  - apply HList. induction l as [|x l IHl]; constructor; [apply IH | exact IHl].
  - apply HDict. induction d as [|[k x] d IHd]; constructor; [apply IH | exact IHd].
Qed.

Lemma iterencode_list (level : nat) (l : list value) :
  iterencode level (VList l)
  = (chunks ← encode_items (S level) l; Ret (bracket 91 93 level chunks)).
Proof.
  cbn [iterencode]. f_equal.
  induction l as [|x l IH]; [done|]. cbn [encode_items]. by rewrite <- IH.
Qed.

Lemma iterencode_dict (level : nat) (d : list (pystr * value)) :
  iterencode level (VDict d)
  = (chunks ← encode_members (sorted_items (encode_values (S level) d));
     Ret (bracket 123 125 level chunks)).
Proof.
  cbn [iterencode]. do 3 f_equal. unfold encode_values.
  induction d as [|[k v] d IH]; [done|]. cbn [map fst snd]. by rewrite <- IH.
Qed.

(** *** The order of the keys *)

Lemma str_ltb_irrefl (a : pystr) : str_ltb a a = false.
Proof.
  induction a as [|x a IH]; [done|]. cbn.
  by rewrite N.ltb_irrefl, N.eqb_refl, IH.
Qed.

Lemma str_ltb_trans (a b c : pystr) :
  str_ltb a b = true -> str_ltb b c = true -> str_ltb a c = true.
Proof.
  revert b c. induction a as [|x a IH]; intros [|y b] [|z c]; cbn; try done.
  rewrite !orb_true_iff, !andb_true_iff, !N.ltb_lt, !N.eqb_eq.
  intros [Hxy|[-> Hab]] [Hyz|[-> Hbc]].
  - left. lia.
  - by left.
  - by left.
  - right. eauto.
Qed.

Lemma str_ltb_total (a b : pystr) :
  a <> b -> str_ltb a b = true \/ str_ltb b a = true.
Proof.
  revert b. induction a as [|x a IH]; intros [|y b] Hne; cbn; try done; auto.
  rewrite !orb_true_iff, !andb_true_iff, !N.ltb_lt, !N.eqb_eq.
  destruct (N.lt_trichotomy x y) as [?|[->|?]]; auto.
  destruct (IH b) as [?|?]; [congruence | auto..].
Qed.

Lemma key_lt_asym {V} (x y : pystr * V) : key_lt x y -> key_lt y x -> False.
Proof.
  unfold key_lt. intros Hxy Hyx.
  pose proof (str_ltb_trans _ _ _ Hxy Hyx) as H. by rewrite str_ltb_irrefl in H.
Qed.

Lemma insert_item_perm {V} (x : pystr * V) (l : list (pystr * V)) :
  insert_item x l ≡ₚ x :: l.
Proof.
  induction l as [|y l IH]; [done|]. cbn.
  destruct (str_ltb (fst y) (fst x)); [|done].
  rewrite IH. apply Permutation_swap.
Qed.

Lemma sorted_items_perm {V} (l : list (pystr * V)) : sorted_items l ≡ₚ l.
Proof.
  induction l as [|x l IH]; [done|].
  change (sorted_items (x :: l)) with (insert_item x (sorted_items l)).
  by rewrite insert_item_perm, IH.
Qed.

Lemma insert_item_sorted {V} (x : pystr * V) (l : list (pystr * V)) :
  StronglySorted key_lt l -> Forall (fun y => fst y <> fst x) l ->
  StronglySorted key_lt (insert_item x l).
Proof.
  induction 1 as [|y l Hl IH Hy]; intros Hne; cbn.
  - repeat constructor.
  - apply Forall_cons in Hne as [Hyx Hne].
    destruct (str_ltb (fst y) (fst x)) eqn:E.
    + constructor; [by apply IH|].
      rewrite insert_item_perm. by constructor.
    + assert (key_lt x y) as Hxy.
      { destruct (str_ltb_total (fst y) (fst x) Hyx) as [?|?]; [congruence|done]. }
      constructor; [by constructor|]. constructor; [done|].
      eapply Forall_impl; [exact Hy|]. intros z Hz.
      unfold key_lt in *. by eapply str_ltb_trans.
Qed.

Lemma sorted_items_sorted {V} (l : list (pystr * V)) :
  NoDup (map fst l) -> StronglySorted key_lt (sorted_items l).
Proof.
  induction l as [|x l IH]; [constructor|].
  change (sorted_items (x :: l)) with (insert_item x (sorted_items l)).
  cbn [map]. intros [Hx Hl]%NoDup_cons. apply insert_item_sorted; [by apply IH|].
  rewrite sorted_items_perm. apply Forall_forall. intros y Hy Heq.
  apply Hx. rewrite <- Heq. by apply list_elem_of_fmap_2.
Qed.

(** The sorted members do not depend on the order of insertion. *)
Lemma sorted_items_unique {V} (l1 l2 : list (pystr * V)) :
  NoDup (map fst l1) -> l1 ≡ₚ l2 -> sorted_items l1 = sorted_items l2.
Proof.
  intros Hnd Hperm.
  apply (StronglySorted_unique_strong key_lt).
  - intros x y _ _ Hxy Hyx. destruct (key_lt_asym x y Hxy Hyx).
  - by apply sorted_items_sorted.
  - apply sorted_items_sorted. by rewrite <- Hperm.
  - by rewrite !sorted_items_perm.
Qed.

Lemma insert_item_map {V W} (f : V -> W) (x : pystr * V) (l : list (pystr * V)) :
  insert_item (fst x, f (snd x)) (map (fun kv => (fst kv, f (snd kv))) l)
  = map (fun kv => (fst kv, f (snd kv))) (insert_item x l).
Proof.
  induction l as [|y l IH]; [done|]. cbn.
  destruct (str_ltb (fst y) (fst x)); [|done]. cbn. by rewrite IH.
Qed.

Lemma sorted_items_map {V W} (f : V -> W) (l : list (pystr * V)) :
  sorted_items (map (fun kv => (fst kv, f (snd kv))) l)
  = map (fun kv => (fst kv, f (snd kv))) (sorted_items l).
Proof.
  induction l as [|x l IH]; [done|].
  change (sorted_items (x :: l)) with (insert_item x (sorted_items l)).
  rewrite <- insert_item_map, <- IH. done.
Qed.

Lemma encode_values_keys (level : nat) (d : list (pystr * value)) :
  map fst (encode_values level d) = map fst d.
Proof. unfold encode_values. by rewrite map_map. Qed.

(** The document of a [dict] does not depend on the order in which its keys
    were inserted. *)
Lemma iterencode_dict_perm (level : nat) (d d' : list (pystr * value)) :
  NoDup (dict_keys d) -> d ≡ₚ d' ->
  iterencode level (VDict d) = iterencode level (VDict d').
Proof.
  intros Hnd Hperm. rewrite !iterencode_dict.
  rewrite (sorted_items_unique (encode_values (S level) d) (encode_values (S level) d')).
  - done.
  - by rewrite encode_values_keys.
  - unfold encode_values. by apply Permutation_map.
Qed.

(** *** Indentation *)

Lemma deepen_app (a b : pystr) : deepen (a ++ b) = deepen a ++ deepen b.
Proof. unfold deepen. by rewrite map_app, concat_app. Qed.

Lemma deepen_one_line (s : pystr) : one_line s = true -> deepen s = s.
Proof.
  induction s as [|c s IH]; [done|].
  change (one_line (c :: s)) with (negb (c =? 10)%N && one_line s).
  change (deepen (c :: s))
    with ((if (c =? 10)%N then 10%N :: repeat 32%N 4 else [c]) ++ deepen s).
  intros [Hc Hs]%andb_true_iff. rewrite IH by done.
  apply negb_true_iff in Hc. by rewrite Hc.
Qed.

Lemma deepen_spaces (n : nat) : deepen (repeat 32%N n) = repeat 32%N n.
Proof.
  apply deepen_one_line. unfold one_line. induction n; [done|]. cbn. done.
Qed.

Lemma deepen_newline_indent (level : nat) :
  deepen (newline_indent level) = newline_indent (S level).
Proof.
  unfold newline_indent. change (10%N :: ?l) with ([10%N] ++ l).
  rewrite deepen_app, deepen_spaces.
  replace (4 * S level)%nat with (4 + 4 * level)%nat by lia.
  by rewrite repeat_app.
Qed.

Lemma one_line_app (a b : pystr) : one_line (a ++ b) = one_line a && one_line b.
Proof. unfold one_line. apply forallb_app. Qed.

Lemma one_line_concat (l : list pystr) :
  Forall (fun s => one_line s = true) l -> one_line (concat l) = true.
Proof.
  induction 1 as [|s l Hs _ IH]; [done|]. cbn. by rewrite one_line_app, Hs, IH.
Qed.

Lemma hex_digit_one_line (n : N) : negb (hex_digit n =? 10)%N = true.
Proof.
  unfold hex_digit. apply negb_true_iff, N.eqb_neq.
  destruct (n <? 10)%N; lia.
Qed.

Lemma u_escape_one_line (n : N) : one_line (u_escape n) = true.
Proof. unfold u_escape, one_line. cbn. by rewrite !hex_digit_one_line. Qed.

Lemma escape_char_one_line (c : N) : one_line (escape_char c) = true.
Proof.
  unfold escape_char.
  repeat match goal with
         | |- context [if (c =? ?k)%N then _ else _] =>
             destruct (c =? k)%N eqn:?; [done|]
         end.
  destruct ((32 <=? c) && (c <=? 126))%N eqn:E.
  - unfold one_line. cbn. by rewrite Heqb1.
  - destruct (c <? 65536)%N.
    + apply u_escape_one_line.
    + by rewrite one_line_app, !u_escape_one_line.
Qed.

Lemma encode_basestring_ascii_one_line (s : pystr) :
  one_line (encode_basestring_ascii s) = true.
Proof.
  unfold encode_basestring_ascii. rewrite !one_line_app.
  rewrite one_line_concat; [done|].
  apply Forall_forall. intros x [c [-> _]]%list_elem_of_fmap_1.
  apply escape_char_one_line.
Qed.

Lemma py_String (a : ascii) (s : string) : py (String a s) = N_of_ascii a :: py s.
Proof. done. Qed.

Lemma string_of_uint_one_line (d : Decimal.uint) :
  one_line (py (NilEmpty.string_of_uint d)) = true.
Proof. induction d; cbn [NilEmpty.string_of_uint]; rewrite ?py_String; done. Qed.

Lemma int_repr_one_line (z : Z) : one_line (int_repr z) = true.
Proof.
  unfold int_repr, NilZero.string_of_int, NilZero.string_of_uint.
  destruct (Z.to_int z) as [d|d]; [destruct d|rewrite py_String; destruct d];
    try done; cbn [one_line forallb]; try apply string_of_uint_one_line;
    (change (one_line (py (NilEmpty.string_of_uint ?u)) = true);
     apply string_of_uint_one_line).
Qed.

Lemma deepen_concat (l : list pystr) : deepen (concat l) = concat (map deepen l).
Proof.
  induction l as [|x l IH]; [done|]. cbn [concat map]. by rewrite deepen_app, IH.
Qed.

Lemma deepen_join (sep : pystr) (chunks : list pystr) :
  deepen (join sep chunks) = join (deepen sep) (map deepen chunks).
Proof.
  destruct chunks as [|c cs]; [done|]. cbn [join map].
  rewrite deepen_app, deepen_concat, !map_map. f_equal. f_equal.
  apply map_ext. intros x. apply deepen_app.
Qed.

Lemma deepen_bracket (opening closing : N) (level : nat) (chunks : list pystr) :
  opening <> 10%N -> closing <> 10%N ->
  deepen (bracket opening closing level chunks)
  = bracket opening closing (S level) (map deepen chunks).
Proof.
  intros Ho Hc.
  assert (Hone : forall c, c <> 10%N -> deepen [c] = [c]).
  { intros c Hne. apply deepen_one_line. unfold one_line. cbn.
    by rewrite (proj2 (N.eqb_neq c 10) Hne). }
  destruct chunks as [|c cs].
  - cbn [bracket map]. change [opening; closing] with ([opening] ++ [closing]).
    by rewrite deepen_app, !Hone.
  - unfold bracket. cbn [map].
    rewrite !deepen_app, deepen_join, !Hone by done.
    change (44%N :: newline_indent (S level)) with ([44%N] ++ newline_indent (S level)).
    rewrite deepen_app, !deepen_newline_indent. done.
Qed.

Lemma encode_items_deepen (level : nat) (l : list value) :
  Forall (fun x => forall level, iterencode (S level) x = deepen <$> iterencode level x) l ->
  encode_items (S level) l = map deepen <$> encode_items level l.
Proof.
  induction 1 as [|x l Hx _ IH]; [done|]. cbn [encode_items].
  rewrite Hx, IH. destruct (iterencode level x); [|done].
  by destruct (encode_items level l).
Qed.

Lemma encode_members_deepen (items : list (pystr * outcome pystr)) :
  encode_members (map (fun kv => (fst kv, deepen <$> snd kv)) items)
  = map deepen <$> encode_members items.
Proof.
  induction items as [|[k r] items IH]; [done|]. cbn [map encode_members fst snd].
  rewrite IH. destruct r as [c|]; [|done]. destruct (encode_members items); [|done].
  cbn [fmap outcome_fmap mbind outcome_bind map]. do 2 f_equal.
  rewrite !deepen_app.
  rewrite (deepen_one_line (encode_basestring_ascii k))
    by apply encode_basestring_ascii_one_line.
  by rewrite (deepen_one_line (py ": ")).
Qed.

Lemma encode_values_deepen (level : nat) (d : list (pystr * value)) :
  Forall (fun kv => forall level,
            iterencode (S level) (snd kv) = deepen <$> iterencode level (snd kv)) d ->
  encode_values (S level) d
  = map (fun kv => (fst kv, deepen <$> snd kv)) (encode_values level d).
Proof.
  unfold encode_values. induction 1 as [|[k x] d Hx _ IH]; [done|].
  cbn [map fst snd]. by rewrite Hx, IH.
Qed.

(** One level deeper, every line of the document of a value is indented by
    four more spaces. *)
Lemma iterencode_deepen (v : value) :
  forall level, iterencode (S level) v = deepen <$> iterencode level v.
Proof.
  induction v as [ |b|z|s|b|d|l IH|d IH|msg|ty] using value_induction; intros level.
  - done.
  - by destruct b.
  - cbn [iterencode fmap outcome_fmap].
    by rewrite deepen_one_line by apply int_repr_one_line.
  - cbn [iterencode fmap outcome_fmap].
    by rewrite deepen_one_line by apply encode_basestring_ascii_one_line.
  - cbn [iterencode custom_serializer]. destruct (bytes_decode b); [|done].
    cbn [mbind outcome_bind fmap outcome_fmap].
    by rewrite deepen_one_line by apply encode_basestring_ascii_one_line.
  - cbn [iterencode custom_serializer mbind outcome_bind fmap outcome_fmap].
    by rewrite deepen_one_line by apply encode_basestring_ascii_one_line.
  - rewrite !iterencode_list, (encode_items_deepen _ _ IH).
    destruct (encode_items (S level) l); [|done].
    cbn [mbind outcome_bind fmap outcome_fmap].
    by rewrite deepen_bracket.
  - rewrite !iterencode_dict, (encode_values_deepen _ _ IH).
    rewrite (sorted_items_map (fmap deepen)), encode_members_deepen.
    destruct (encode_members (sorted_items (encode_values (S level) d))); [|done].
    cbn [mbind outcome_bind fmap outcome_fmap].
    by rewrite deepen_bracket.
  - done.
  - done.
Qed.

(** *** Values that cannot be serialized *)

Lemma encode_items_raise (level : nat) (l : list value) (e : exn) :
  encode_items level l = Raise e -> exists x, x ∈ l /\ iterencode level x = Raise e.
Proof.
  induction l as [|x l IH]; [done|]. cbn [encode_items].
  destruct (iterencode level x) as [c|e'] eqn:E; cbn [mbind outcome_bind].
  - destruct (encode_items level l) as [cs|e'']; [done|]. cbn [mbind outcome_bind].
    intros [= ->]. destruct IH as (y & Hy & Hey); [done|].
    exists y. split; [by right | done].
  - intros [= ->]. exists x. split; [left | done].
Qed.

Lemma encode_items_elem_raise (level : nat) (l : list value) (x : value) (e : exn) :
  x ∈ l -> iterencode level x = Raise e -> exists e', encode_items level l = Raise e'.
Proof.
  induction 1 as [x l|x y l _ IH]; intros He; cbn [encode_items].
  - rewrite He. eauto.
  - destruct (iterencode level y); [|cbn; eauto].
    destruct (IH He) as [e' ->]. cbn. eauto.
Qed.

Lemma encode_members_raise (items : list (pystr * outcome pystr)) (e : exn) :
  encode_members items = Raise e -> exists k, (k, Raise e) ∈ items.
Proof.
  induction items as [|[k r] items IH]; [done|]. cbn [encode_members].
  destruct r as [c|e']; cbn [mbind outcome_bind].
  - destruct (encode_members items) as [cs|e'']; [done|]. cbn [mbind outcome_bind].
    intros [= ->]. destruct IH as [k' Hk']; [done|]. exists k'. by right.
  - intros [= ->]. exists k. left.
Qed.

Lemma encode_members_elem_raise (items : list (pystr * outcome pystr)) (k : pystr)
    (e : exn) :
  (k, Raise e) ∈ items -> exists e', encode_members items = Raise e'.
Proof.
  induction items as [|[k' r] items IH]; [by intros ?%elem_of_nil|].
  intros [[= <- <-]|Hin]%elem_of_cons; cbn [encode_members].
  - cbn. eauto.
  - destruct r; [|cbn; eauto]. destruct (IH Hin) as [e' ->]. cbn. eauto.
Qed.

(** The serializer raises nothing but the two errors of [custom_serializer]. *)
Lemma iterencode_errors (v : value) :
  forall level e, iterencode level v = Raise e ->
    e = TypeError (py "Unknown type") \/ e = UnicodeDecodeError.
Proof.
  induction v as [ |b|z|s|b|d|l IH|d IH|msg|ty] using value_induction; intros level e.
  - done.
  - by destruct b.
  - done.
  - done.
  - cbn [iterencode custom_serializer]. unfold bytes_decode.
    destruct (utf8_decode (map Byte.to_N b)); cbn; [done|]. intros [= <-]. by right.
  - done.
  - rewrite iterencode_list.
    destruct (encode_items (S level) l) as [cs|e'] eqn:E; [done|].
    intros [= ->]. destruct (encode_items_raise _ _ _ E) as (x & Hx & Hex).
    rewrite Forall_forall in IH. by apply (IH x Hx (S level)).
  - rewrite iterencode_dict.
    destruct (encode_members _) as [cs|e'] eqn:E; [done|].
    intros [= ->]. destruct (encode_members_raise _ _ E) as [k Hk].
    rewrite sorted_items_perm in Hk. unfold encode_values in Hk.
    apply list_elem_of_fmap_1 in Hk as ([k' x] & [= -> Hex] & Hin).
    rewrite Forall_forall in IH. by apply (IH (k', x) Hin (S level)).
  - intros [= <-]. by left.
  - intros [= <-]. by left.
Qed.

(** The serializer raises [UnicodeDecodeError] only for a value that holds a
    binary value that does not decode. *)
Lemma iterencode_undecodable (v : value) :
  forall level, iterencode level v = Raise UnicodeDecodeError -> holds_undecodable v.
Proof.
  induction v as [ |b|z|s|b|d|l IH|d IH|msg|ty] using value_induction; intros level.
  - done.
  - by destruct b.
  - done.
  - done.
  - cbn [iterencode custom_serializer].
    destruct (bytes_decode b) as [s|e] eqn:E; [done|].
    cbn [mbind outcome_bind]. intros [= ->]. by constructor.
  - done.
  - rewrite iterencode_list.
    destruct (encode_items (S level) l) as [cs|e'] eqn:E; [done|].
    intros [= ->]. destruct (encode_items_raise _ _ _ E) as (x & Hx & Hex).
    rewrite Forall_forall in IH. apply (undecodable_item _ x Hx).
    by apply (IH x Hx (S level)).
  - rewrite iterencode_dict.
    destruct (encode_members _) as [cs|e'] eqn:E; [done|].
    intros [= ->]. destruct (encode_members_raise _ _ E) as [k Hk].
    rewrite sorted_items_perm in Hk. unfold encode_values in Hk.
    apply list_elem_of_fmap_1 in Hk as ([k' x] & [= -> Hex] & Hin).
    rewrite Forall_forall in IH. apply (undecodable_member _ k' x Hin).
    by apply (IH (k', x) Hin (S level)).
  - done.
  - done.
Qed.

(** A value that holds an object of an unknown class is not serialized. *)
Lemma iterencode_unknown (v : value) :
  holds_unknown v -> forall level, exists e, iterencode level v = Raise e.
Proof.
  induction 1 as [msg|ty|l x Hx _ IH|d k x Hx _ IH]; intros level.
  - cbn. eauto.
  - cbn. eauto.
  - rewrite iterencode_list. destruct (IH (S level)) as [e He].
    destruct (encode_items_elem_raise _ _ _ _ Hx He) as [e' ->]. cbn. eauto.
  - rewrite iterencode_dict. destruct (IH (S level)) as [e He].
    destruct (encode_members_elem_raise
                (sorted_items (encode_values (S level) d)) k e) as [e' ->].
    + rewrite sorted_items_perm. unfold encode_values.
      apply list_elem_of_fmap. exists (k, x).
      split; [cbn [fst snd]; by rewrite He | done].
    + cbn. eauto.
Qed.

(** [write_file] when the serializer raises: the file was opened, and is left
    empty. *)
Lemma write_file_raise (contents : value) (path : pystr) (st : state) (e : exn) :
  json_dumps contents = Raise e ->
  write_file contents path st
  = (Raise e, set_files (<[path ++ py "/stack_outputs.json" := []]> (files st)) st).
Proof.
  intros He. unfold write_file.
  erewrite bind_Ret by reflexivity.
  erewrite bind_Raise; [reflexivity|]. unfold lift. by rewrite He.
Qed.

Lemma write_file_text (contents : value) (path : pystr) (st : state) (text : pystr) :
  json_dumps contents = Ret text ->
  write_file contents path st
  = (Ret tt, set_files (<[path ++ py "/stack_outputs.json" := text]> (files st)) st).
Proof.
  intros He. unfold write_file.
  erewrite bind_Ret by reflexivity.
  erewrite bind_Ret by (unfold lift; by rewrite He).
  unfold file_write, set_files. cbn. by rewrite insert_insert_eq.
Qed.

(** *** Decoding *)

#[local] Ltac Zify.zify_post_hook ::= Z.to_euclidean_division_equations.

Ltac decide_tests :=
  repeat match goal with
         | |- context [(?a <? ?b)%N] =>
             first [ rewrite (proj2 (N.ltb_lt a b)) by lia
                   | rewrite (proj2 (N.ltb_ge a b)) by lia ]
         | |- context [(?a <=? ?b)%N] =>
             first [ rewrite (proj2 (N.leb_le a b)) by lia
                   | rewrite (proj2 (N.leb_gt a b)) by lia ]
         | |- context [(?a =? ?b)%N] =>
             first [ rewrite (proj2 (N.eqb_eq a b)) by lia
                   | rewrite (proj2 (N.eqb_neq a b)) by lia ]
         end.

Lemma utf8_decode_encode_char (c : N) (rest : list N) :
  is_scalar c = true ->
  utf8_decode (utf8_encode_char c ++ rest) = cons c <$> utf8_decode rest.
Proof.
  unfold is_scalar, utf8_encode_char.
  rewrite orb_true_iff, andb_true_iff, N.ltb_lt, !N.leb_le. intros Hc.
  destruct (N.lt_ge_cases c 128%N); [|destruct (N.lt_ge_cases c 2048%N);
    [|destruct (N.lt_ge_cases c 65536%N)]].
  - decide_tests. cbn [app utf8_decode]. by decide_tests.
  - decide_tests. cbn [app utf8_decode]. unfold is_cont. decide_tests. cbn [andb].
    do 2 f_equal. lia.
  - decide_tests. cbn [app utf8_decode]. unfold is_cont.
    destruct (N.eq_dec (224 + c / 4096)%N 224%N) as [E|E];
      destruct (N.eq_dec (224 + c / 4096)%N 237%N) as [E'|E']; try lia;
      decide_tests; cbn [andb]; do 2 f_equal; lia.
  - decide_tests. cbn [app utf8_decode]. unfold is_cont.
    destruct (N.eq_dec (240 + c / 262144)%N 240%N) as [E|E];
      destruct (N.eq_dec (240 + c / 262144)%N 244%N) as [E'|E']; try lia;
      decide_tests; cbn [andb]; do 2 f_equal; lia.
Qed.

(** Decoding the UTF-8 encoding of a [str] gives the [str] back. *)
Lemma utf8_decode_encode (s : pystr) :
  forallb is_scalar s = true -> utf8_decode (utf8_encode s) = Some s.
Proof.
  induction s as [|c s IH]; [done|].
  cbn [forallb]. intros [Hc Hs]%andb_true_iff.
  unfold utf8_encode. cbn [map concat].
  rewrite utf8_decode_encode_char by done.
  fold (utf8_encode s). by rewrite IH.
Qed.

(** The members of a [dict] are written in the increasing order of their
    keys. *)
Lemma iterencode_dict_sorted (level : nat) (d : list (pystr * value)) :
  NoDup (dict_keys d) ->
  StronglySorted key_lt (sorted_items d)
  /\ sorted_items d ≡ₚ d
  /\ iterencode level (VDict d)
     = (chunks ← encode_members (encode_values (S level) (sorted_items d));
        Ret (bracket 123 125 level chunks)).
Proof.
  intros Hnd. split; [by apply sorted_items_sorted|]. split; [apply sorted_items_perm|].
  rewrite iterencode_dict. unfold encode_values.
  by rewrite (sorted_items_map (iterencode (S level))).
Qed.

(** The report of the scenario with a success for [a] and a failure for [b],
    and the text of a date. *)
Example report_text :
  json_dumps (VDict [(py "b", Failure (py "AccessDenied"));
                     (py "a", Success (VList [Sample.url]))])
  = Ret (concat
      [py "{"; [10%N];
       py "    "; [34%N]; py "a"; [34%N]; py ": {"; [10%N];
       py "        "; [34%N]; py "outputs"; [34%N]; py ": ["; [10%N];
       py "            {"; [10%N];
       py "                "; [34%N]; py "Key"; [34%N]; py ": ";
         [34%N]; py "Url"; [34%N]; py ","; [10%N];
       py "                "; [34%N]; py "Value"; [34%N]; py ": ";
         [34%N]; py "http://x"; [34%N]; [10%N];
       py "            }"; [10%N];
       py "        ]"; [10%N];
       py "    },"; [10%N];
       py "    "; [34%N]; py "b"; [34%N]; py ": {"; [10%N];
       py "        "; [34%N]; py "exception"; [34%N]; py ": ";
         [34%N]; py "AccessDenied"; [34%N]; [10%N];
       py "    }"; [10%N];
       py "}"]).
Proof. vm_compute. reflexivity. Qed.

(** The scenario of two profiles, [a] with the stack [proj-foo] and [b]
    denied: the report, the lines printed and the exit status. *)
Example scenario_two_profiles :
  let args := mkArguments (py "proj-foo") (py "eu-west-1") (py "a,b") false in
  let end_of_run := run Sample.world args Sample.initial in
  fst end_of_run = Raise (SystemExit (-1))
  /\ exit_status (fst end_of_run) = 255
  /\ stdout (snd end_of_run)
     = [py "  ...paginating"; py "ClientError: AccessDenied"; dashes;
        py "Summary: 2 APIs called. 1 errors"; py "Failures:"; py "AccessDenied"]
  /\ Ret <$> files (snd end_of_run) !! py "account-data/stackset/stack_outputs.json"
     = Some (json_dumps (VDict [(py "b", Failure (py "AccessDenied"));
                                (py "a", Success (VList [Sample.url]))])).
Proof. repeat split; vm_compute; reflexivity. Qed.

Example bytes_decode_text :
  bytes_decode [Byte.x41; Byte.xc3; Byte.xa9; Byte.xf0; Byte.x9f; Byte.x98; Byte.x80]
    = Ret [65; 233; 128512]%N
  /\ bytes_decode [Byte.xc2; Byte.x80; Byte.xe0; Byte.xa0; Byte.x80;
                   Byte.xed; Byte.x9f; Byte.xbf; Byte.xee; Byte.x80; Byte.x80;
                   Byte.xf4; Byte.x8f; Byte.xbf; Byte.xbf]
     = Ret [128; 2048; 55295; 57344; 1114111]%N
  /\ bytes_decode [Byte.xff] = Raise UnicodeDecodeError
  /\ bytes_decode [Byte.xc1; Byte.xbf] = Raise UnicodeDecodeError
  /\ bytes_decode [Byte.xe0; Byte.x9f; Byte.xbf] = Raise UnicodeDecodeError
  /\ bytes_decode [Byte.xed; Byte.xa0; Byte.x80] = Raise UnicodeDecodeError
  /\ bytes_decode [Byte.xf0; Byte.x8f; Byte.xbf; Byte.xbf] = Raise UnicodeDecodeError
  /\ bytes_decode [Byte.xf4; Byte.x90; Byte.x80; Byte.x80] = Raise UnicodeDecodeError
  /\ bytes_decode [Byte.xe2; Byte.x82] = Raise UnicodeDecodeError.
Proof. repeat split; vm_compute; reflexivity. Qed.

Example json_string_text :
  encode_basestring_ascii [34; 92; 10; 233; 128512; 127; 31; 65]%N
  = concat [[34%N]; [92; 34]%N; py "\\"; py "\n"; py "\u00e9"; py "\ud83d\ude00";
            py "\u007f"; py "\u001f"; py "A"; [34%N]].
Proof. vm_compute. reflexivity. Qed.

Example isoformat_text :
  isoformat (mkDatetime 2020 1 2 3 4 5 0 None) = py "2020-01-02T03:04:05"
  /\ isoformat (mkDatetime 2020 1 2 3 4 5 123 (Some (-19800)))
     = py "2020-01-02T03:04:05.000123-05:30".
Proof. split; vm_compute; reflexivity. Qed.

(** C7, as stated: the error for a value of an unrecognized type would name
    the type.  It does not: for an object of class [set] the message is
    [Unknown type]. *)
Lemma unknown_type_is_not_named :
  ~ (forall ty, exists msg,
       custom_serializer (VOther ty) = Raise (TypeError msg) /\ names_type msg ty).
Proof.
  intros H. destruct (H (py "set")) as (msg & [= <-] & a & b & Hmsg).
  assert (Hin : In 115%N (py "Unknown type")).
  { rewrite Hmsg. apply in_or_app. right. apply in_or_app. left. by left. }
  vm_compute in Hin. repeat (destruct Hin as [Hin|Hin]; [discriminate|]). done.
Qed.

(** C7, amended.  The document of a [dict] does not depend on the order of
    insertion of its keys, and its members are written in the increasing
    order of their keys; a value nested one level deeper is indented by four
    more spaces; a datetime is written as the string of its [isoformat()], a
    binary value as the string it decodes to, which for the UTF-8 encoding
    of a [str] is that [str]; for a value of an unrecognized
    type [custom_serializer] raises [TypeError] with the fixed message
    [Unknown type]; and a report that holds such a value is not written:
    [write_file] raises that error, or the error of a binary value of the
    report that does not decode, and leaves the file empty. *)
Theorem report_serialization :
  (forall level d d', NoDup (dict_keys d) -> d ≡ₚ d' ->
     iterencode level (VDict d) = iterencode level (VDict d'))
  /\ (forall level d, NoDup (dict_keys d) ->
        StronglySorted key_lt (sorted_items d)
        /\ sorted_items d ≡ₚ d
        /\ iterencode level (VDict d)
           = (chunks ← encode_members (encode_values (S level) (sorted_items d));
              Ret (bracket 123 125 level chunks)))
  /\ (forall level v, iterencode (S level) v = deepen <$> iterencode level v)
  /\ (forall level d,
        iterencode level (VDatetime d) = iterencode level (VStr (isoformat d)))
  /\ (forall level b s, bytes_decode b = Ret s ->
        iterencode level (VBytes b) = iterencode level (VStr s))
  /\ (forall level b s, map Byte.to_N b = utf8_encode s -> forallb is_scalar s = true ->
        iterencode level (VBytes b) = iterencode level (VStr s))
  /\ (forall ty, custom_serializer (VOther ty) = Raise (TypeError (py "Unknown type")))
  /\ (forall contents path st, holds_unknown contents ->
        exists e,
          (e = TypeError (py "Unknown type")
           \/ e = UnicodeDecodeError /\ holds_undecodable contents)
          /\ write_file contents path st
             = (Raise e,
                set_files (<[path ++ py "/stack_outputs.json" := []]> (files st)) st)).
Proof.
  split; [apply iterencode_dict_perm|].
  split; [apply iterencode_dict_sorted|].
  split; [intros; apply iterencode_deepen|].
  split; [done|].
  split; [intros level b s Hs; cbn [iterencode custom_serializer]; by rewrite Hs|].
  split.
  { intros level b s Hb Hs. cbn [iterencode custom_serializer]. unfold bytes_decode.
    by rewrite Hb, utf8_decode_encode. }
  split; [done|].
  intros contents path st Hu.
  destruct (iterencode_unknown contents Hu 0) as [e He].
  exists e. split; [|by apply write_file_raise].
  destruct (iterencode_errors contents 0 e He) as [->| ->]; [by left|].
  right. split; [done|]. by apply (iterencode_undecodable contents 0).
Qed.

(** * The theorems at the example data *)

Lemma is_stack_named (d : dict value) (s : pystr) :
  dict_get (py "StackName") d = Some (VStr s) -> is_stack (VDict d).
Proof.
  intros H. exists d. split; [reflexivity|].
  intros x Hx. rewrite H in Hx. injection Hx as <-. by exists s.
Defined.

Lemma sample_stacks : Forall is_stack [Sample.other; Sample.foo; Sample.bar].
Proof.
  repeat apply Forall_cons_2; [| | |apply Forall_nil_2].
  - by apply (is_stack_named _ (py "network")).
  - by apply (is_stack_named _ (py "proj-foo")).
  - by apply (is_stack_named _ (py "proj-bar")).
Defined.

Lemma filter_by_name_spec_witness :
  Forall is_stack [Sample.other; Sample.foo; Sample.bar]
  /\ exists R,
       filter_by_name (VList [Sample.other; Sample.foo; Sample.bar]) (py "proj") = Ret R
       /\ R = filter (fun s => py "proj" `prefix_of` stack_name s)
                [Sample.other; Sample.foo; Sample.bar]
       /\ (forall s, s ∈ R <->
             s ∈ [Sample.other; Sample.foo; Sample.bar]
             /\ py "proj" `prefix_of` stack_name s)
       /\ R `sublist_of` [Sample.other; Sample.foo; Sample.bar]
       /\ (py "proj" = [] -> R = [Sample.other; Sample.foo; Sample.bar]).
Proof.
  split; [exact sample_stacks|].
  exact (filter_by_name_spec [Sample.other; Sample.foo; Sample.bar] (py "proj")
           sample_stacks).
Defined.

Lemma pagination_merge_witness :
  exists d h',
    with_retries 1 Sample.two_pages (py "describe_stacks") (VDict []) Sample.initial
      = (Ret (VDict d), add_stdout [py "  ...paginating"] (set_heap h' Sample.initial))
    /\ dict_get (py "Stacks") d
       = Some (VList ([Sample.other; Sample.foo] ++ [Sample.bar]))
    /\ dict_keys d = dict_keys Sample.page1
    /\ (forall k o, dict_get k Sample.page1 = Some o ->
          is_list (heap Sample.initial !!! o) = false ->
          dict_get k d = Some (heap Sample.initial !!! o)).
Proof.
  apply (pagination_merge 1 Sample.two_pages (py "describe_stacks") (VDict [])
           Sample.initial Sample.page1 Sample.page2 0%nat 2%nat).
  - reflexivity.
  - reflexivity.
  - exact (bool_decide_unpack (NoDup (dict_keys Sample.page1)) I).
  - reflexivity.
  - vm_compute. reflexivity.
  - reflexivity.
  - vm_compute. reflexivity.
  - vm_compute. reflexivity.
  - vm_compute. reflexivity.
Defined.

Lemma remote_error_is_captured_witness :
  with_retries 3 Sample.denied (py "describe_stacks") (VDict []) Sample.initial
  = (Ret (VDict [(py "exception", VExc (py "AccessDenied"))]),
     add_stdout [py "ClientError: " ++ py "AccessDenied"] Sample.initial).
Proof.
  apply (remote_error_is_captured 3 Sample.denied (py "describe_stacks") (VDict [])
           0%nat None Sample.initial Sample.initial Sample.initial (py "AccessDenied")).
  - lia.
  - reflexivity.
  - reflexivity.
Defined.

Lemma collect_first_match_witness :
  fst (collect Sample.world (py "a") (py "eu-west-1") (py "proj") Sample.initial)
  = Ret (Success (VList [Sample.url])).
Proof.
  erewrite (collect_first_match Sample.world (py "a") (py "eu-west-1") (py "proj")
              Sample.initial _ _ Sample.two_pages _
              [Sample.other; Sample.foo; Sample.bar] Sample.foo [Sample.bar]).
  - reflexivity.
  - reflexivity.
  - reflexivity.
  - vm_compute. reflexivity.
  - vm_compute. reflexivity.
  - exact sample_stacks.
  - vm_compute. reflexivity.
Defined.

Lemma report_serialization_witness :
  holds_unknown (VDict [(py "a", Success (VList [VOther (py "set")]))])
  /\ (exists e,
        (e = TypeError (py "Unknown type")
         \/ e = UnicodeDecodeError
            /\ holds_undecodable (VDict [(py "a", Success (VList [VOther (py "set")]))]))
        /\ write_file (VDict [(py "a", Success (VList [VOther (py "set")]))])
             (py "account-data/stackset") Sample.initial
           = (Raise e,
              set_files
                (<[py "account-data/stackset" ++ py "/stack_outputs.json" := []]>
                   (files Sample.initial)) Sample.initial))
  /\ iterencode 0 (VDict [(py "b", VNone); (py "a", VNone)])
     = iterencode 0 (VDict [(py "a", VNone); (py "b", VNone)]).
Proof.
  assert (Hu : holds_unknown (VDict [(py "a", Success (VList [VOther (py "set")]))])).
  { apply (unknown_member _ (py "a") (Success (VList [VOther (py "set")])));
      [left|].
    apply (unknown_member _ (py "outputs") (VList [VOther (py "set")])); [left|].
    apply (unknown_item _ (VOther (py "set"))); [left|]. apply unknown_other. }
  destruct report_serialization as (Hperm & _ & _ & _ & _ & _ & _ & Hwrite).
  split; [exact Hu|]. split.
  - exact (Hwrite _ (py "account-data/stackset") Sample.initial Hu).
  - apply Hperm.
    + exact (bool_decide_unpack
               (NoDup (dict_keys [(py "b", VNone); (py "a", VNone)])) I).
    + apply Permutation_swap.
Defined.

Lemma every_profile_is_collected_witness :
  exists st',
    collected Sample.world (py "eu-west-1") (py "proj-foo") Sample.initial
      [py "a"; py "b"; py "c"]
      [Success (VList [Sample.url]); Failure (py "AccessDenied"); VNone] st'
    /\ sessions st'
       = [(py "a", py "eu-west-1"); (py "b", py "eu-west-1"); (py "c", py "eu-west-1")]
    /\ dict_get (py "c")
         (record_results [py "a"; py "b"; py "c"]
            [Success (VList [Sample.url]); Failure (py "AccessDenied"); VNone] [])
       = Some VNone.
Proof.
  evar (st' : state).
  assert (Hc : collected Sample.world (py "eu-west-1") (py "proj-foo") Sample.initial
                 [py "a"; py "b"; py "c"]
                 [Success (VList [Sample.url]); Failure (py "AccessDenied"); VNone]
                 st').
  { subst st'. eapply collected_cons; [vm_compute; reflexivity|].
    eapply collected_cons; [vm_compute; reflexivity|].
    eapply collected_cons; [vm_compute; reflexivity|].
    apply collected_nil. }
  destruct (every_profile_is_collected _ _ _ _ _ _ _ Hc)
    as (_ & Hs & _ & Hlast & _).
  exists st'. split; [exact Hc|]. split; [exact Hs|].
  apply (Hlast [py "a"; py "b"] (py "c") []
           [Success (VList [Sample.url]); Failure (py "AccessDenied")] VNone []);
    [reflexivity | reflexivity | reflexivity | apply not_elem_of_nil].
Defined.

Lemma no_match_ends_run_with_exception_witness :
  fst (collect Sample.world (py "c") (py "eu-west-1") (py "proj-foo") Sample.initial)
    = Ret VNone
  /\ print_summary Sample.world
       [(py "b", Failure (py "AccessDenied")); (py "c", VNone)] Sample.initial
     = (Raise AttributeError, add_stdout [dashes] Sample.initial).
Proof.
  destruct (no_match_ends_run_with_exception Sample.world (py "c") (py "eu-west-1")
              (py "proj-foo") Sample.initial
              (add_session (py "c") (py "eu-west-1") Sample.initial) Sample.initial
              (mkSession (fun _ => Ret Sample.one_page)) Sample.one_page
              [(py "Stacks", VList [Sample.bar])] [Sample.bar]
              [(py "b", Failure (py "AccessDenied")); (py "c", VNone)] (py "c"))
    as (Hcollect & Hsummary & _).
  - reflexivity.
  - reflexivity.
  - vm_compute. reflexivity.
  - vm_compute. reflexivity.
  - apply Forall_cons_2; [|apply Forall_nil_2].
    by apply (is_stack_named _ (py "proj-bar")).
  - apply Forall_cons_2; [|apply Forall_nil_2].
    intros Hp. apply startswith_prefix in Hp. vm_compute in Hp. discriminate.
  - vm_compute. reflexivity.
  - vm_compute. reflexivity.
  - split; [by rewrite Hcollect | exact Hsummary].
Defined.

(** * Further properties *)

(** ** The report of a single call *)

(** X1. [save_report] never returns and writes no file: it makes the call
    whether or not the output file exists, after the notice, and then raises
    the exception of the call or, when the call returns, [TypeError] at
    [write_file(output)], which lacks the argument [path]. *)
Theorem save_report_never_returns (outputfile path : pystr) (h : handler) (m : pystr)
    (ps : value) (st : state) :
  let called := with_retries 1 h m ps (add_stdout (save_report_notice outputfile st) st) in
  exists e,
    save_report outputfile path h m ps st = (Raise e, snd called)
    /\ files (snd called) = files st
    /\ sessions (snd called) = sessions st
    /\ match fst called with
       | Ret _ =>
           e = TypeError (py "write_file() missing 1 required positional argument: 'path'")
       | Raise e' => e = e'
       end.
Proof.
  intros called.
  assert (Hrun :
            save_report outputfile path h m ps st
            = match called with
              | (Ret _, st') =>
                  (Raise (TypeError
                     (py "write_file() missing 1 required positional argument: 'path'")), st')
              | (Raise e, st') => (Raise e, st')
              end).
  { subst called. unfold save_report, save_report_notice, make_directory, isfile.
    unfold mbind, M_bind, mret, M_ret, print, raise. cbn [fst snd].
    destruct (bool_decide (is_Some (files st !! outputfile))); cbn [app].
    - rewrite add_stdout_app.
      destruct (with_retries 1 h m ps _) as [[v|e] st']; reflexivity.
    - destruct (with_retries 1 h m ps _) as [[v|e] st']; reflexivity. }
  destruct (keeps_with_retries 1 h m ps
              (add_stdout (save_report_notice outputfile st) st) (fst called) (snd called))
    as [Hs Hf].
  { subst called. by destruct (with_retries 1 h m ps _). }
  destruct called as [[v|e] st']; cbn [fst snd] in *.
  - eexists. split; [exact Hrun|]. by repeat split.
  - exists e. split; [exact Hrun|]. by repeat split.
Qed.

(** ** The profiles of the command line *)

Lemma split_comma_cons (s : pystr) : exists h t, split_comma s = h :: t.
Proof.
  destruct s as [|c s]; cbn [split_comma]; [by eauto|].
  destruct (c =? 44)%N; [by eauto|].
  destruct (split_comma s); by eauto.
Qed.

Lemma split_comma_sep (p r : pystr) :
  44%N ∉ p -> split_comma (p ++ 44%N :: r) = p :: split_comma r.
Proof.
  induction p as [|c p IH]; intros Hp; [reflexivity|].
  apply not_elem_of_cons in Hp as [Hc Hp].
  cbn [app split_comma]. rewrite (IH Hp).
  destruct (N.eqb_spec c 44) as [->|_]; [done|reflexivity].
Qed.

Lemma split_comma_piece (p : pystr) : 44%N ∉ p -> split_comma p = [p].
Proof.
  induction p as [|c p IH]; intros Hp; [reflexivity|].
  apply not_elem_of_cons in Hp as [Hc Hp].
  cbn [split_comma]. rewrite (IH Hp).
  destruct (N.eqb_spec c 44) as [->|_]; [done|reflexivity].
Qed.

Lemma join_comma_cons (p q : pystr) (ps : list pystr) :
  join_comma (p :: q :: ps) = p ++ 44%N :: join_comma (q :: ps).
Proof. reflexivity. Qed.

(** X2. Splitting what was joined with commas gives the names back, when
    there is at least one name and no name holds a comma: [run] collects
    exactly the profiles listed in [--profiles]. *)
Theorem split_comma_join (parts : list pystr) :
  parts <> [] ->
  Forall (fun p => 44%N ∉ p) parts ->
  split_comma (join_comma parts) = parts.
Proof.
  intros Hne Hall. destruct parts as [|p ps]; [done|]. clear Hne.
  revert p Hall. induction ps as [|q ps IH]; intros p Hall.
  - apply Forall_cons_1 in Hall as [Hp _].
    unfold join_comma, join. cbn [map concat]. rewrite app_nil_r.
    by apply split_comma_piece.
  - apply Forall_cons_1 in Hall as [Hp Hall].
    rewrite join_comma_cons, split_comma_sep by done.
    by rewrite IH.
Qed.

(** X3. [args.profiles.split(',')]: joining the pieces with commas gives the
    argument back; no piece holds a comma; there is one piece more than
    there are commas, so the empty argument gives one profile with the empty
    name, and two commas in a row or a comma at an end give one too. *)
Theorem split_comma_pieces (s : pystr) :
  join_comma (split_comma s) = s
  /\ Forall (fun p => 44%N ∉ p) (split_comma s)
  /\ length (split_comma s) = S (length (filter (fun c => c = 44%N) s)).
Proof.
  unfold pystr in *.
  induction s as [|c s (IHj & IHf & IHl)].
  - split; [reflexivity|]. split; [|reflexivity].
    apply Forall_cons_2; [apply not_elem_of_nil | apply Forall_nil_2].
  - cbn [split_comma].
    destruct (split_comma_cons s) as (h & t & Hs). rewrite Hs in *.
    destruct (N.eqb_spec c 44) as [->|Hc].
    + split; [|split].
      * change (join_comma ([] :: h :: t)) with (44%N :: join_comma (h :: t)).
        by rewrite IHj.
      * apply Forall_cons_2; [apply not_elem_of_nil | done].
      * rewrite filter_cons_True by done. cbn [length] in *. by rewrite IHl.
    + split; [|split].
      * change (join_comma ((c :: h) :: t)) with (c :: join_comma (h :: t)).
        by rewrite IHj.
      * apply Forall_cons_1 in IHf as [Hh Ht].
        apply Forall_cons_2; [|done].
        apply not_elem_of_cons. split; [congruence | done].
      * rewrite filter_cons_False by done. exact IHl.
Qed.

(** ** The keys of the report *)

Lemma filter_filter_absorb (p : pystr) (acc l : list pystr) :
  p ∈ acc ->
  filter (fun q => q ∉ acc) (filter (fun q => q <> p) l) = filter (fun q => q ∉ acc) l.
Proof.
  intros Hp. induction l as [|x l IH]; [reflexivity|].
  destruct (decide (x = p)) as [->|Hx].
  - rewrite (filter_cons_False (fun q => q <> p)) by (intros H; by apply H).
    rewrite (filter_cons_False (fun q => q ∉ acc)) by (intros H; by apply H).
    exact IH.
  - rewrite (filter_cons_True (fun q => q <> p)) by done.
    destruct (decide (x ∈ acc)) as [Hin|Hin].
    + rewrite !(filter_cons_False (fun q => q ∉ acc)) by (intros H; by apply H).
      exact IH.
    + rewrite !(filter_cons_True (fun q => q ∉ acc)) by done. by rewrite IH.
Qed.

Lemma filter_not_in_snoc (p : pystr) (acc l : list pystr) :
  filter (fun q => q ∉ acc ++ [p]) l
  = filter (fun q => q ∉ acc) (filter (fun q => q <> p) l).
Proof.
  induction l as [|x l IH]; [reflexivity|].
  destruct (decide (x = p)) as [->|Hx].
  - rewrite (filter_cons_False (fun q => q <> p)) by (intros H; by apply H).
    rewrite filter_cons_False; [exact IH|].
    intros H. apply H. apply elem_of_app. right. apply list_elem_of_singleton. done.
  - rewrite (filter_cons_True (fun q => q <> p)) by done.
    destruct (decide (x ∈ acc)) as [Hin|Hin].
    + rewrite (filter_cons_False (fun q => q ∉ acc)) by (intros H; by apply H).
      rewrite filter_cons_False; [exact IH|].
      intros H. apply H. apply elem_of_app. by left.
    + rewrite (filter_cons_True (fun q => q ∉ acc)) by done.
      rewrite filter_cons_True; [by rewrite IH|].
      intros [H|H]%elem_of_app; [done|]. by apply list_elem_of_singleton in H.
Qed.

Lemma record_results_order (ps : list pystr) (vs : list value) (outcome : dict value) :
  length ps = length vs ->
  dict_keys (record_results ps vs outcome)
  = dict_keys outcome
      ++ filter (fun q => q ∉ dict_keys outcome) (first_occurrences ps).
Proof.
  revert vs outcome. induction ps as [|p ps IH]; intros [|v vs] outcome Hlen;
    try discriminate.
  - cbn. by rewrite app_nil_r.
  - injection Hlen as Hlen.
    change (record_results (p :: ps) (v :: vs) outcome)
      with (record_results ps vs (dict_set p v outcome)).
    rewrite (IH vs _ Hlen), dict_set_keys. cbn [first_occurrences].
    destruct (decide (p ∈ dict_keys outcome)) as [Hin|Hin].
    + rewrite (filter_cons_False (fun q => q ∉ dict_keys outcome))
        by (intros H; by apply H).
      by rewrite filter_filter_absorb.
    + rewrite (filter_cons_True (fun q => q ∉ dict_keys outcome)) by done.
      rewrite filter_not_in_snoc, <- app_assoc. reflexivity.
Qed.

Lemma filter_all {A} (P : A -> Prop) `{!forall x, Decision (P x)} (l : list A) :
  (forall x, P x) -> filter P l = l.
Proof.
  intros HP. induction l as [|x l IH]; [reflexivity|].
  rewrite filter_cons_True by done. by rewrite IH.
Qed.

(** X4. When the loop of [run] completes, the keys of the report are the
    profiles in the order of their first occurrence, each once, while a
    session was opened for every occurrence: the summary counts the distinct
    profiles, not the calls. *)
Theorem report_keys_in_order (w : env) (region target : pystr) (ps : list pystr)
    (st st' : state) (outcome : dict value) :
  collect_profiles w ps region target [] st = (Ret outcome, st') ->
  dict_keys outcome = first_occurrences ps
  /\ sessions st' = sessions st ++ map (fun p => (p, region)) ps.
Proof.
  intros Hrun.
  destruct (collect_profiles_returns _ _ _ _ _ _ _ _ Hrun) as (vs & Hc & ->).
  split.
  - rewrite record_results_order by (by eapply collected_length).
    cbn [dict_keys map app]. apply filter_all. intros x. apply not_elem_of_nil.
  - by destruct (collected_world _ _ _ _ _ _ _ Hc).
Qed.

(** ** What the caller may change *)

Lemma appends_only_refl (st : state) : appends_only st st.
Proof.
  repeat split; [done|]. intros o. destruct (heap st !!! o); try done.
  exists []. by rewrite app_nil_r.
Qed.

Lemma appends_only_trans (st1 st2 st3 : state) :
  appends_only st1 st2 -> appends_only st2 st3 -> appends_only st1 st3.
Proof.
  intros (Hs1 & Hf1 & Ho1 & Hh1) (Hs2 & Hf2 & Ho2 & Hh2).
  split; [congruence|]. split; [congruence|]. split; [by etrans|].
  intros o. specialize (Hh1 o). specialize (Hh2 o).
  destruct (heap st1 !!! o) eqn:E1; try (rewrite Hh1 in Hh2; exact Hh2).
  destruct Hh1 as [m1 Hh1]. rewrite Hh1 in Hh2. destruct Hh2 as [m2 Hh2].
  exists (m1 ++ m2). by rewrite Hh2, app_assoc.
Qed.

Lemma appends_only_print (lines : list pystr) (st : state) :
  appends_only st (add_stdout lines st).
Proof.
  split; [done|]. split; [done|]. split; [by apply prefix_app_r|].
  intros o. cbn [heap add_stdout]. destruct (heap st !!! o); try done.
  exists []. by rewrite app_nil_r.
Qed.

Lemma appends_only_extend (o : nat) (items more : list value) (st : state) :
  heap st !!! o = VList items ->
  appends_only st (set_heap (<[o := VList (items ++ more)]> (heap st)) st).
Proof.
  intros Ho. repeat split; [done|]. intros o'. cbn [heap set_heap].
  destruct (decide (o' = o)) as [->|Hne].
  - rewrite Ho, lookup_total_insert_eq. by exists more.
  - rewrite lookup_total_insert_ne by done.
    destruct (heap st !!! o'); try done. exists []. by rewrite app_nil_r.
Qed.

Lemma appends_ret {A} (a : A) : appends (mret a).
Proof. intros st. apply appends_only_refl. Qed.

Lemma appends_raise {A} (e : exn) : appends (@raise A e).
Proof. intros st. apply appends_only_refl. Qed.

Lemma appends_lift {A} (r : outcome A) : appends (lift r).
Proof. intros st. apply appends_only_refl. Qed.

Lemma appends_snapshot (data : option page) : appends (snapshot data).
Proof. intros st. apply appends_only_refl. Qed.

Lemma appends_print (line : pystr) : appends (print line).
Proof. intros st. apply appends_only_print. Qed.

Lemma appends_bind {A B} (m : M A) (k : A -> M B) :
  appends m -> (forall a, appends (k a)) -> appends (m ≫= k).
Proof.
  intros Hm Hk st. specialize (Hm st). unfold mbind, M_bind.
  destruct (m st) as [[a|e] st1]; cbn [snd] in *; [|done].
  eapply appends_only_trans; [exact Hm | apply Hk].
Qed.

Lemma appends_try {A} (body : M A) (handler : pystr -> M A) :
  appends body -> (forall msg, appends (handler msg)) ->
  appends (try_except_ClientError body handler).
Proof.
  intros Hb Hh st. specialize (Hb st). unfold try_except_ClientError.
  destruct (body st) as [[a|e] st1]; cbn [snd] in *; [done|].
  destruct e; try done.
  eapply appends_only_trans; [exact Hb | apply Hh].
Qed.

Lemma appends_for_each {A} (l : list A) (body : A -> M unit) :
  (forall x, appends (body x)) -> appends (for_each l body).
Proof.
  intros Hb. induction l as [|x l IH]; cbn [for_each].
  - apply appends_ret.
  - apply appends_bind; [apply Hb | intros _; apply IH].
Qed.

Create HintDb appends.
#[local] Hint Resolve appends_ret appends_raise appends_lift appends_snapshot
  appends_print : appends.

Lemma appends_extend_field (data response : page) (k : pystr) :
  appends (extend_field data response k).
Proof.
  intros st. unfold extend_field.
  destruct (dict_get k data) as [o|]; [|apply appends_only_refl].
  unfold mbind at 1, M_bind at 1, load at 1.
  destruct (heap st !!! o) as [| | | | | |items| | |] eqn:Ho; try apply appends_only_refl.
  destruct (dict_get k response) as [o'|]; [|apply appends_only_refl].
  unfold mbind, M_bind, load, lift, store.
  destruct (py_iter (heap st !!! o')) as [more|e]; cbn [snd];
    [by apply appends_only_extend | apply appends_only_refl].
Qed.

Lemma appends_add_page (data : option page) (response : page) :
  appends (add_page data response).
Proof.
  unfold add_page. destruct (negb (truthy data)); [auto with appends|].
  apply appends_bind; [auto with appends|]. intros _.
  apply appends_bind; [|auto with appends].
  apply appends_for_each. intros k. apply appends_extend_field.
Qed.

Lemma appends_iterate_pages (pages : list (outcome page)) (data : option page) :
  appends (iterate_pages data pages).
Proof.
  revert data. induction pages as [|[response|e] pages IH]; intros data;
    cbn [iterate_pages]; auto with appends.
  apply appends_bind; [apply appends_add_page | intros; apply IH].
Qed.

Lemma appends_attempts h m ps (n retry : nat) (data : option page) :
  appends (attempts h m ps n retry data).
Proof.
  revert retry data. induction n as [|n IH]; intros retry data; cbn [attempts].
  - auto with appends.
  - apply appends_bind; [|intros; apply IH].
    unfold attempt. destruct (can_paginate h m).
    + apply appends_iterate_pages.
    + apply appends_bind; auto with appends.
Qed.

Lemma appends_with_retries mr h m ps : appends (with_retries mr h m ps).
Proof.
  unfold with_retries. apply appends_try.
  - apply appends_bind; [apply appends_attempts | auto with appends].
  - intros msg. apply appends_bind; auto with appends.
Qed.

(** X5. Whatever the client answers and however the call ends,
    [with_retries] opens no session and touches no file, only adds lines to
    the output, leaves every object that is not a list as it is, and changes
    a list only by appending to it. *)
Theorem with_retries_appends_only (max_retries : Z) (h : handler) (m : pystr)
    (ps : value) (st : state) :
  appends_only st (snd (with_retries max_retries h m ps st)).
Proof. apply appends_with_retries. Qed.

(** ** Attempts *)

Lemma attempts_last_call (h : handler) (m : pystr) (ps : value) (n retry : nat)
    (data : option page) (st : state) (r : page) :
  can_paginate h m = false ->
  (forall j, (j < n)%nat -> exists r', call h m ps (retry + j) = Ret r') ->
  call h m ps (retry + n) = Ret r ->
  attempts h m ps (S n) retry data st = (Ret (Some r), st).
Proof.
  intros Hcan. revert retry data. induction n as [|n IH]; intros retry data Hpre Hlast.
  - rewrite Nat.add_0_r in Hlast. cbn [attempts]. unfold attempt. rewrite Hcan.
    unfold mbind, M_bind, lift. by rewrite Hlast.
  - destruct (Hpre 0%nat) as [r0 Hr0]; [lia|]. rewrite Nat.add_0_r in Hr0.
    change (attempts h m ps (S (S n)) retry data st)
      with ((data' ← attempt h m ps retry data;
             attempts h m ps (S n) (S retry) data') st).
    unfold attempt. rewrite Hcan.
    unfold mbind at 1 2, M_bind at 1 2, lift. rewrite Hr0.
    apply IH.
    + intros j Hj. destruct (Hpre (S j)) as [r' Hr']; [lia|].
      exists r'. by rewrite <- Hr', Nat.add_succ_r.
    + by rewrite <- Hlast, Nat.add_succ_r.
Qed.

(** X6. An operation that does not paginate, called [max_retries] times with
    every call returning: the response of the last call is returned, the
    earlier responses are dropped, and the state is as before. *)
Theorem unpaginated_returns_last_response (max_retries : Z) (h : handler) (m : pystr)
    (ps : value) (st : state) (r : page) :
  can_paginate h m = false ->
  0 < max_retries ->
  (forall j, (j < Z.to_nat max_retries - 1)%nat -> exists r', call h m ps j = Ret r') ->
  call h m ps (Z.to_nat max_retries - 1) = Ret r ->
  with_retries max_retries h m ps st
  = (Ret (VDict (map (fun ko => (fst ko, heap st !!! snd ko)) r)), st).
Proof.
  intros Hcan Hpos Hpre Hlast. unfold with_retries, try_except_ClientError.
  replace (Z.to_nat max_retries) with (S (Z.to_nat max_retries - 1)) by lia.
  unfold mbind, M_bind.
  by rewrite (attempts_last_call h m ps _ 0 None st r Hcan Hpre Hlast).
Qed.

(** X7. The attempts of a paginated operation are one pass over the pages of
    all of them: [max_retries] attempts give what a single attempt gives on
    a paginator that yields those pages in one sequence. *)
Theorem attempts_are_one_pass (max_retries : Z) (h h' : handler) (m : pystr)
    (ps : value) (st : state) :
  can_paginate h m = true ->
  can_paginate h' m = true ->
  paginate h' m ps 0 = pages_of h m ps 0 (Z.to_nat max_retries) ->
  with_retries max_retries h m ps st = with_retries 1 h' m ps st.
Proof.
  intros Hcan Hcan' Hpages. unfold with_retries, try_except_ClientError.
  unfold mbind, M_bind.
  rewrite (attempts_pages h m ps _ 0 None st Hcan).
  rewrite (attempts_pages h' m ps _ 0 None st Hcan').
  change (Z.to_nat 1) with 1%nat. unfold pages_of at 2. cbn [seq map concat].
  by rewrite app_nil_r, Hpages.
Qed.

Lemma iterate_pages_falsy (pages : list (outcome page)) (st : state) :
  pages <> [] ->
  iterate_pages (Some []) pages st = iterate_pages None pages st.
Proof. by destruct pages as [|[response|e] rest]. Qed.

(** X8. A first page that is the empty [dict] counts as no page: the next
    page takes its place, without the progress notice, and the result is
    that of the pages that follow. *)
Theorem empty_first_page_is_replaced (max_retries : Z) (h h' : handler) (m : pystr)
    (ps : value) (st : state) (rest : list (outcome page)) :
  can_paginate h m = true ->
  can_paginate h' m = true ->
  pages_of h m ps 0 (Z.to_nat max_retries) = Ret [] :: rest ->
  rest <> [] ->
  paginate h' m ps 0 = rest ->
  with_retries max_retries h m ps st = with_retries 1 h' m ps st.
Proof.
  intros Hcan Hcan' Hpages Hrest Hpages'. unfold with_retries, try_except_ClientError.
  unfold mbind, M_bind.
  rewrite (attempts_pages h m ps _ 0 None st Hcan), Hpages.
  rewrite (attempts_pages h' m ps _ 0 None st Hcan').
  change (Z.to_nat 1) with 1%nat. unfold pages_of. cbn [seq map concat].
  rewrite app_nil_r, Hpages'.
  change (iterate_pages None (Ret [] :: rest) st)
    with (iterate_pages (Some []) rest st).
  by rewrite iterate_pages_falsy.
Qed.

(** X9. Pages of different shapes: when the first page holds a list under a
    key the second page lacks, and the keys before it can be merged,
    [with_retries] raises [KeyError] for that key; the exception is not a
    [ClientError] and leaves [with_retries] uncaught. *)
Theorem missing_key_in_later_page (max_retries : Z) (h : handler) (m : pystr)
    (ps : value) (st : state) (P1 P2 : page) (rest : list (outcome page))
    (before after : list pystr) (k : pystr) (o : nat) :
  can_paginate h m = true ->
  pages_of h m ps 0 (Z.to_nat max_retries) = Ret P1 :: Ret P2 :: rest ->
  dict_keys P1 = before ++ k :: after ->
  (forall k' o', k' ∈ before -> dict_get k' P1 = Some o' ->
     is_list (heap st !!! o') = true ->
     exists o2, dict_get k' P2 = Some o2 /\ is_list (heap st !!! o2) = true) ->
  dict_get k P1 = Some o ->
  is_list (heap st !!! o) = true ->
  dict_get k P2 = None ->
  exists st', with_retries max_retries h m ps st = (Raise (KeyError k), st').
Proof.
  intros Hcan Hpages Hkeys Hbefore Hk Hlist Hmiss.
  assert (HP1 : P1 <> []) by (intros ->; by destruct before).
  destruct (for_each_extend P1 P2 before (add_stdout [py "  ...paginating"] st))
    as (h1 & Hfor & Hsame & _).
  { intros k' Hk'.
    assert (Hin : k' ∈ dict_keys P1) by (rewrite Hkeys; apply elem_of_app; by left).
    apply dict_get_keys in Hin as [o' Ho']. exists o'. split; [done|].
    intros Hl. by apply (Hbefore k' o'). }
  exists (set_heap h1 (add_stdout [py "  ...paginating"] st)).
  unfold with_retries, try_except_ClientError. unfold mbind at 1, M_bind at 1.
  rewrite (attempts_pages h m ps _ 0 None st Hcan), Hpages.
  cbn [iterate_pages]. unfold mbind at 1, M_bind at 1. cbn [add_page truthy negb].
  unfold mret at 1, M_ret at 1.
  unfold mbind at 1, M_bind at 1. unfold add_page.
  replace (negb (truthy (Some P1))) with false by (by destruct P1).
  unfold mbind at 1 2, M_bind at 1 2. unfold print at 1. cbn [default].
  unfold id. rewrite Hkeys.
  unfold mbind at 1, M_bind at 1.
  rewrite (for_each_app before (k :: after) _ _ _ Hfor).
  cbn [for_each]. unfold mbind at 1, M_bind at 1.
  unfold extend_field. rewrite Hk, Hmiss.
  unfold mbind at 1, M_bind at 1, load at 1. cbn [heap set_heap].
  specialize (Hsame o). cbn [heap add_stdout] in Hsame. rewrite Hlist in Hsame.
  apply is_list_VList in Hsame as [items ->]. reflexivity.
Qed.

(** ** The collector and the world *)

Lemma collect_output_grows (w : env) (profile region target : pystr) (st : state) :
  stdout st `prefix_of` stdout (snd (collect w profile region target st)).
Proof.
  unfold collect, create_session.
  unfold mbind at 1, M_bind at 1.
  destruct (boto3_Session w (sessions st) profile region) as [sess|e]; [|done].
  assert (Ha : appends
            (cfn_client ← lift (client sess (py "cloudformation"));
             response ← with_retries 1 cfn_client (py "describe_stacks") (VDict []);
             lift (collect_from_response w response target))).
  { apply appends_bind; [apply appends_lift|]. intros cfn.
    apply appends_bind; [|intros; apply appends_lift].
    apply appends_with_retries. }
  by destruct (Ha (add_session profile region st)) as (_ & _ & Ho & _).
Qed.

(** X10. Whatever happens in it, a call of [collect] opens exactly one
    session, for its profile and region, writes no file and takes no line
    of the output back. *)
Theorem collect_opens_one_session (w : env) (profile region target : pystr)
    (st : state) :
  sessions (snd (collect w profile region target st))
    = sessions st ++ [(profile, region)]
  /\ files (snd (collect w profile region target st)) = files st
  /\ stdout st `prefix_of` stdout (snd (collect w profile region target st)).
Proof.
  split; [|split; [|apply collect_output_grows]];
    destruct (collect w profile region target st) as [r st'] eqn:E; cbn [snd];
    by destruct (collect_world _ _ _ _ _ _ _ E).
Qed.

Lemma with_retries_no_page (max_retries : Z) (h : handler) (m : pystr) (ps : value)
    (st : state) :
  can_paginate h m = true ->
  pages_of h m ps 0 (Z.to_nat max_retries) = [] ->
  with_retries max_retries h m ps st = (Ret VNone, st).
Proof.
  intros Hcan Hpages. unfold with_retries, try_except_ClientError.
  unfold mbind, M_bind. by rewrite (attempts_pages h m ps _ 0 None st Hcan), Hpages.
Qed.

(** X11. When the paginator of [describe_stacks] yields no page,
    [with_retries] returns [None], and [collect] raises [AttributeError] at
    [response.get]: the profile gets no entry and the exception leaves
    [collect]. *)
Theorem collect_without_page (w : env) (profile region target : pystr) (st : state)
    (sess : session) (cfn : handler) :
  boto3_Session w (sessions st) profile region = Ret sess ->
  client sess (py "cloudformation") = Ret cfn ->
  can_paginate cfn (py "describe_stacks") = true ->
  paginate cfn (py "describe_stacks") (VDict []) 0 = [] ->
  collect w profile region target st
  = (Raise AttributeError, add_session profile region st).
Proof.
  intros Hsess Hclient Hcan Hpages.
  rewrite (collect_response w profile region target st sess cfn VNone
             (add_session profile region st) Hsess Hclient); [done|].
  apply with_retries_no_page; [done|].
  change (Z.to_nat 1) with 1%nat. unfold pages_of. cbn [seq map concat].
  by rewrite Hpages.
Qed.

(** X12. A value [collect] returns is [None], a failure whose message is a
    [str], or a success with one key; only the outputs of a success can
    keep a result from being serialized. *)
Theorem collect_result_shape (w : env) (profile region target : pystr)
    (st st' : state) (v : value) :
  collect w profile region target st = (Ret v, st') ->
  (v = VNone \/ (exists message, v = Failure message)
   \/ (exists outputs, v = Success outputs))
  /\ (serializable v = false ->
      exists outputs, v = Success outputs /\ serializable outputs = false).
Proof.
  intros Hc. destruct (collect_variants _ _ _ _ _ _ _ Hc) as [[o ->]|[[msg ->]| ->]].
  - split; [right; right; by exists o|].
    intros Hs. exists o. split; [done|]. cbn in Hs. by rewrite andb_true_r in Hs.
  - split; [right; left; by exists msg | done].
  - split; [by left | done].
Qed.

(** ** Stack Filter: elements that are no stack descriptions *)

Lemma not_stack_raises (x : value) (P : pystr) :
  is_stack x
  \/ exists e, (name ← py_get x (py "StackName") (VStr []); py_startswith name P)
               = Raise e /\ is_misuse e = true.
Proof.
  destruct x as [ |b|z|s|b|d|l|d|msg|ty];
    try (right; exists AttributeError; by split).
  unfold is_stack. cbn [py_get mbind outcome_bind].
  destruct (dict_get (py "StackName") d) as [name|] eqn:E; cbn [default].
  - destruct name as [ |b|z|s|b|d'|l|d'|msg|ty];
      try (right; exists AttributeError; by split).
    + left. exists d. split; [done|]. intros x. rewrite E. intros [= <-]. by exists s.
    + right. eexists. by split.
  - left. exists d. split; [done|]. intros x. by rewrite E.
Qed.

Lemma not_stack_not_returned (x : value) (P : pystr) (b : bool) :
  (name ← py_get x (py "StackName") (VStr []); py_startswith name P) = Ret b ->
  is_stack x.
Proof.
  intros Hb. destruct (not_stack_raises x P) as [H|(e & He & _)]; [done|congruence].
Qed.

(** X13. [filter_by_name] returns exactly on the lists whose every element
    is a stack description; an element that is no [dict], or whose
    [StackName] is no [str], makes it raise [AttributeError] or [TypeError],
    also when other stacks match. *)
Theorem filter_by_name_returns_iff (L : list value) (P : pystr) :
  (Forall is_stack L /\ exists R, filter_by_name (VList L) P = Ret R)
  \/ (~ Forall is_stack L
      /\ exists e, filter_by_name (VList L) P = Raise e /\ is_misuse e = true).
Proof.
  unfold filter_by_name. cbn [py_iter mbind outcome_bind].
  induction L as [|x L IH].
  - left. split; [apply Forall_nil_2 | by exists []].
  - cbn [py_filter].
    destruct (not_stack_raises x P) as [Hx|(e & He & Hm)].
    + rewrite (stack_predicate x P Hx). cbn [mbind outcome_bind].
      destruct IH as [[HL [R HR]]|(HL & e & He & Hm)].
      * left. split; [by apply Forall_cons_2|]. rewrite HR. cbn. eauto.
      * right. split; [by intros [_ H]%Forall_cons_1|].
        exists e. rewrite He. by split.
    + right. split.
      * intros [Hx _]%Forall_cons_1.
        rewrite (stack_predicate x P Hx) in He. congruence.
      * exists e. rewrite He. by split.
Qed.

Lemma filter_filter_imp {A} (P Q : A -> Prop) `{!forall x, Decision (P x)}
    `{!forall x, Decision (Q x)} (l : list A) :
  (forall x, Q x -> P x) -> filter Q (filter P l) = filter Q l.
Proof.
  intros Himp. induction l as [|x l IH]; [reflexivity|].
  destruct (decide (P x)) as [HP|HP].
  - rewrite (filter_cons_True P) by done.
    destruct (decide (Q x)) as [HQ|HQ].
    + rewrite !(filter_cons_True Q) by done. by rewrite IH.
    + rewrite !(filter_cons_False Q) by done. exact IH.
  - rewrite (filter_cons_False P) by done.
    rewrite (filter_cons_False Q) by (intros HQ; by apply HP, Himp). exact IH.
Qed.

(** X14. Filtering what was filtered: on stack descriptions the stacks of a
    prefix are kept by a second filter with that prefix, and filtering them
    with a longer prefix gives what the longer prefix gives on the whole
    list. *)
Theorem filter_by_name_refines (L R : list value) (P Q : pystr) :
  Forall is_stack L ->
  P `prefix_of` Q ->
  filter_by_name (VList L) P = Ret R ->
  filter_by_name (VList R) P = Ret R
  /\ filter_by_name (VList R) Q = filter_by_name (VList L) Q.
Proof.
  intros HL HPQ. rewrite (filter_by_name_stacks L P HL). intros [= <-].
  assert (HR : Forall is_stack (filter (fun s => P `prefix_of` stack_name s) L)).
  { apply Forall_forall. intros x [_ Hx]%list_elem_of_filter.
    by apply (proj1 (Forall_forall _ _) HL). }
  rewrite !(filter_by_name_stacks _ _ HR), (filter_by_name_stacks L Q HL).
  split; f_equal.
  - by apply filter_filter_imp.
  - apply filter_filter_imp. intros x Hx. by etrans.
Qed.

(** ** The values that can be written *)

Lemma encode_items_ret (level : nat) (l : list value) :
  (exists cs, encode_items level l = Ret cs)
  <-> Forall (fun x => exists c, iterencode level x = Ret c) l.
Proof.
  induction l as [|x l IH]; cbn [encode_items].
  - split; [intros _; apply Forall_nil_2 | by eauto].
  - split.
    + intros [cs H]. destruct (iterencode level x) as [c|e] eqn:E; [|done].
      cbn [mbind outcome_bind] in H.
      destruct (encode_items level l) as [cs'|e]; [|done].
      apply Forall_cons_2; [by exists c | apply IH; by eauto].
    + intros [[c ->] [cs ->]%IH]%Forall_cons_1. cbn. by eauto.
Qed.

Lemma encode_members_ret (items : list (pystr * outcome pystr)) :
  (exists cs, encode_members items = Ret cs)
  <-> Forall (fun kr => exists c, snd kr = Ret c) items.
Proof.
  induction items as [|[k r] items IH]; cbn [encode_members].
  - split; [intros _; apply Forall_nil_2 | by eauto].
  - split.
    + intros [cs H]. destruct r as [c|e]; [|done].
      cbn [mbind outcome_bind] in H.
      destruct (encode_members items) as [cs'|e]; [|done].
      apply Forall_cons_2; [by eauto | apply IH; by eauto].
    + intros [[c Hc] [cs ->]%IH]%Forall_cons_1. cbn [snd] in Hc. subst r.
      cbn. by eauto.
Qed.

Lemma forallb_Forall {A} (f : A -> bool) (l : list A) :
  forallb f l = true <-> Forall (fun x => f x = true) l.
Proof.
  induction l as [|x l IH]; cbn [forallb]; [by split|].
  by rewrite andb_true_iff, Forall_cons, IH.
Qed.

Lemma iterencode_returns (v : value) :
  forall level, (exists text, iterencode level v = Ret text) <-> serializable v = true.
Proof.
  induction v as [ |b|z|s|b|d|l IH|d IH|msg|ty] using value_induction; intros level.
  - split; [done | by eauto].
  - destruct b; (split; [done | by eauto]).
  - split; [done | by eauto].
  - split; [done | by eauto].
  - cbn [iterencode custom_serializer serializable].
    destruct (bytes_decode b); cbn; split; try done; try by eauto.
    by intros [? ?].
  - split; [done | by eauto].
  - rewrite iterencode_list. cbn [serializable]. rewrite forallb_Forall.
    transitivity (exists cs, encode_items (S level) l = Ret cs).
    + split.
      * intros [text H]. destruct (encode_items (S level) l); [by eauto | done].
      * intros [cs ->]. cbn. by eauto.
    + rewrite encode_items_ret.
      induction IH as [|x l Hx _ IHl]; [by split|].
      by rewrite !Forall_cons, IHl, (Hx (S level)).
  - rewrite iterencode_dict. cbn [serializable]. rewrite forallb_Forall.
    transitivity (exists cs, encode_members (sorted_items (encode_values (S level) d))
                             = Ret cs).
    + split.
      * intros [text H].
        destruct (encode_members (sorted_items (encode_values (S level) d)));
          [by eauto | done].
      * intros [cs ->]. cbn. by eauto.
    + rewrite encode_members_ret.
      rewrite (sorted_items_perm (encode_values (S level) d)).
      unfold encode_values.
      induction IH as [|[k x] d Hx _ IHd]; [by split|].
      cbn [map fst snd] in *. by rewrite !Forall_cons, IHd, (Hx (S level)).
  - split; [by intros [? ?] | done].
  - split; [by intros [? ?] | done].
Qed.

Lemma json_dumps_serializable (contents : value) :
  (exists text, json_dumps contents = Ret text) <-> serializable contents = true.
Proof. apply iterencode_returns. Qed.

(** X15. [json.dumps] with [custom_serializer] returns a document for every
    value built from [None], [bool], [int], [str], [datetime], [bytes] that
    are valid UTF-8, and lists and [dict]s of such values, at every depth. *)
Theorem json_dumps_returns_on_serializable (contents : value) :
  serializable contents = true ->
  exists text, json_dumps contents = Ret text.
Proof.
  intros Hs. unfold json_dumps. revert Hs. generalize 0%nat.
  induction contents as [ |b|z|s|b|d|l IH|d IH|msg|ty] using value_induction;
    intros level Hs; try discriminate; try (by eexists).
  - destruct b; by eexists.
  - cbn [serializable] in Hs. cbn [iterencode custom_serializer].
    destruct (bytes_decode b); [by eexists | discriminate].
  - rewrite iterencode_list. cbn [serializable] in Hs. apply forallb_Forall in Hs.
    destruct (proj2 (encode_items_ret (S level) l)) as [cs ->]; [|by eexists].
    revert Hs. induction IH as [|x l Hx _ IHl]; intros Hs; [apply Forall_nil_2|].
    apply Forall_cons_1 in Hs as [Hsx Hsl].
    apply Forall_cons_2; [by apply Hx | by apply IHl].
  - rewrite iterencode_dict. cbn [serializable] in Hs. apply forallb_Forall in Hs.
    destruct (proj2 (encode_members_ret (sorted_items (encode_values (S level) d))))
      as [cs ->]; [|by eexists].
    rewrite (sorted_items_perm (encode_values (S level) d)).
    unfold encode_values. apply Forall_map.
    revert Hs. induction IH as [|[k x] d Hx _ IHd]; intros Hs; [apply Forall_nil_2|].
    apply Forall_cons_1 in Hs as [Hsx Hsd].
    apply Forall_cons_2; [by apply Hx | by apply IHd].
Qed.

(** ** The files of a run *)

Lemma cleaned_files (args : arguments) (st : state) (q : pystr) :
  files (cleaned args st) !! q
  = if arg_clean args && in_report_dir q then None else files st !! q.
Proof.
  unfold cleaned. destruct (arg_clean args); [|done]. cbn [andb snd rmtree files].
  unfold in_report_dir.
  change (py "account-data/stackset" ++ py "/") with (py "account-data/stackset/").
  destruct (startswith q (py "account-data/stackset/")) eqn:E.
  - apply map_lookup_filter_None. right. intros v _. cbn [fst]. by rewrite E.
  - destruct (files st !! q) as [v|] eqn:F.
    + apply map_lookup_filter_Some. split; [done|]. cbn [fst]. by rewrite E.
    + apply map_lookup_filter_None. by left.
Qed.

Lemma cleaned_sessions (args : arguments) (st : state) :
  sessions (cleaned args st) = sessions st.
Proof. unfold cleaned. by destruct (arg_clean args). Qed.

Lemma collect_profiles_files (w : env) (region target : pystr) (ps : list pystr)
    (outcome : dict value) (st : state) :
  files (snd (collect_profiles w ps region target outcome st)) = files st.
Proof.
  revert outcome st. induction ps as [|p ps IH]; intros outcome st; [done|].
  cbn [collect_profiles]. unfold mbind, M_bind.
  destruct (collect w p region target st) as [[v|e] st1] eqn:E;
    destruct (collect_world _ _ _ _ _ _ _ E) as [_ Hf]; cbn [snd].
  - by rewrite IH.
  - done.
Qed.

Lemma keeps_print_summary (w : env) (summary : dict value) :
  keeps_world (print_summary w summary).
Proof.
  unfold print_summary.
  apply keeps_bind; [auto with keeps|]. intros _.
  apply keeps_bind; [auto with keeps|]. intros failures.
  apply keeps_bind; [auto with keeps|]. intros _.
  destruct (0 <? length failures)%nat; [|auto with keeps].
  apply keeps_bind; [auto with keeps|]. intros _.
  apply keeps_bind; [|auto with keeps].
  apply keeps_for_each. auto with keeps.
Qed.

Lemma run_steps (w : env) (args : arguments) (st : state) :
  run w args st
  = (outcome ← collect_profiles w (split_comma (arg_profiles args)) (arg_region args)
                 (arg_target args) [];
     write_file (VDict outcome) (py "account-data/stackset");;
     print_summary w outcome) (cleaned args st).
Proof.
  unfold run. erewrite (bind_Ret _ _ st tt (cleaned args st)).
  2:{ unfold cleaned. by destruct (arg_clean args). }
  unfold mbind, M_bind.
  by destruct (collect_profiles w _ _ _ [] (cleaned args st)) as [[outcome|e] st1].
Qed.

Lemma write_file_files (contents : value) (st : state) (q : pystr) :
  q <> report_path ->
  files (snd (write_file contents (py "account-data/stackset") st)) !! q = files st !! q.
Proof.
  intros Hq. destruct (json_dumps contents) as [text|e] eqn:E.
  - rewrite (write_file_text _ _ _ _ E). cbn [snd files set_files].
    by rewrite lookup_insert_ne.
  - rewrite (write_file_raise _ _ _ _ E). cbn [snd files set_files].
    by rewrite lookup_insert_ne.
Qed.

(** X16. However it ends, [run] changes no file but the report: a file
    elsewhere is as before, and so is a file below the report directory
    unless [--clean] is given, which removes it. *)
Theorem run_changes_only_the_report (w : env) (args : arguments) (st : state)
    (q : pystr) :
  q <> report_path ->
  files (snd (run w args st)) !! q
  = if arg_clean args && in_report_dir q then None else files st !! q.
Proof.
  intros Hq. rewrite run_steps, <- cleaned_files.
  unfold mbind at 1, M_bind at 1.
  pose proof (collect_profiles_files w (arg_region args) (arg_target args)
                (split_comma (arg_profiles args)) [] (cleaned args st)) as Hc.
  destruct (collect_profiles w _ _ _ [] (cleaned args st)) as [[outcome|e] st1];
    cbn [snd] in *; [|by rewrite Hc].
  rewrite <- Hc. unfold mbind, M_bind.
  pose proof (write_file_files (VDict outcome) st1 q Hq) as Hw.
  destruct (write_file (VDict outcome) (py "account-data/stackset") st1)
    as [[[]|e] st2]; cbn [snd] in *; [|done].
  rewrite <- Hw.
  destruct (print_summary w outcome st2) as [r st3] eqn:E.
  destruct (keeps_print_summary w outcome _ _ _ E) as [_ Hf]. cbn [snd].
  by rewrite Hf.
Qed.

(** ** A profile that raises *)

Lemma collect_profiles_app (w : env) (region target : pystr) (before rest : list pystr)
    (vs : list value) (outcome : dict value) (st st1 : state) :
  collected w region target st before vs st1 ->
  collect_profiles w (before ++ rest) region target outcome st
  = collect_profiles w rest region target (record_results before vs outcome) st1.
Proof.
  intros Hc. revert outcome. induction Hc as [st|st p v st1 ps vs st2 Hp _ IH];
    intros outcome; [done|].
  cbn [app collect_profiles]. erewrite bind_Ret by exact Hp. apply IH.
Qed.

(** X17. An exception that leaves [collect] - a profile that is not
    configured, say - ends [run] at once: no session is opened for the
    profiles after it, the results collected before it are not written, and
    no summary is printed. *)
Theorem run_stops_at_first_exception (w : env) (args : arguments) (st st1 st2 : state)
    (before after : list pystr) (p : pystr) (vs : list value) (e : exn) :
  split_comma (arg_profiles args) = before ++ p :: after ->
  collected w (arg_region args) (arg_target args) (cleaned args st) before vs st1 ->
  collect w p (arg_region args) (arg_target args) st1 = (Raise e, st2) ->
  run w args st = (Raise e, st2)
  /\ sessions st2
     = sessions st ++ map (fun p => (p, arg_region args)) (before ++ [p])
  /\ files st2 = files (cleaned args st)
  /\ stdout st1 `prefix_of` stdout st2.
Proof.
  intros Hps Hc Hp. split; [|split; [|split]].
  - rewrite run_steps, Hps. unfold mbind at 1, M_bind at 1.
    rewrite (collect_profiles_app _ _ _ _ _ _ _ _ _ Hc).
    cbn [collect_profiles]. unfold mbind at 1, M_bind at 1. by rewrite Hp.
  - destruct (collected_world _ _ _ _ _ _ _ Hc) as [Hs _].
    destruct (collect_world _ _ _ _ _ _ _ Hp) as [Hs2 _].
    rewrite Hs2, Hs, cleaned_sessions, map_app, app_assoc. done.
  - destruct (collected_world _ _ _ _ _ _ _ Hc) as [_ Hf].
    destruct (collect_world _ _ _ _ _ _ _ Hp) as [_ Hf2]. congruence.
  - pose proof (collect_output_grows w p (arg_region args) (arg_target args) st1) as H.
    by rewrite Hp in H.
Qed.

(** ** The summary and the exit status *)

Lemma failures_of_elem (summary : dict value) (keys : list pystr) (f : value) :
  f ∈ failures_of summary keys
  <-> exists p, p ∈ keys /\ dict_get p summary ≫= failure_of = Some f.
Proof.
  induction keys as [|k keys IH]; cbn [failures_of].
  - split; [by intros ?%elem_of_nil | by intros (p & ?%elem_of_nil & _)].
  - destruct (dict_get k summary ≫= failure_of) as [f'|] eqn:E.
    + rewrite elem_of_cons, IH. split.
      * intros [->|(p & Hp & Hf)]; [exists k; split; [left|done]|].
        exists p. split; [by right|done].
      * intros (p & [->|Hp]%elem_of_cons & Hf); [left; congruence|].
        right. by exists p.
    + rewrite IH. split.
      * intros (p & Hp & Hf). exists p. split; [by right|done].
      * intros (p & [->|Hp]%elem_of_cons & Hf); [congruence|]. by exists p.
Qed.

Lemma failures_of_length (summary : dict value) (keys : list pystr) :
  (length (failures_of summary keys) <= length keys)%nat.
Proof.
  induction keys as [|k keys IH]; cbn [failures_of length]; [done|].
  destruct (dict_get k summary ≫= failure_of); cbn [length]; lia.
Qed.

Lemma dicts_entries (summary : dict value) :
  Forall (fun kv => is_dict (snd kv) = true) summary ->
  forall p, p ∈ dict_keys summary -> exists d, dict_get p summary = Some (VDict d).
Proof.
  intros Hall p [v Hv]%dict_get_keys.
  pose proof (dict_get_In _ _ _ Hv) as Hin. apply list_elem_of_In in Hin.
  pose proof (proj1 (Forall_forall _ _) Hall _ Hin) as Hd. cbn [snd] in Hd.
  destruct v; try discriminate. by eauto.
Qed.

(** X18. [print_summary] on a summary whose entries are all [dict]s: after
    the separator and the count it returns when no entry has a failure, and
    otherwise prints the failures - the values under [exception] that are not
    [None], one for each such entry, in the order of the entries - and
    leaves with [exit(-1)], status 255. *)
Theorem print_summary_reports_failures (w : env) (summary : dict value) (st : state) :
  Forall (fun kv => is_dict (snd kv) = true) summary ->
  let failures := failures_of summary (dict_keys summary) in
  print_summary w summary st
  = match failures with
    | [] => (Ret tt, add_stdout [dashes; summary_line summary failures] st)
    | _ =>
        (Raise (SystemExit (-1)),
         add_stdout ([dashes; summary_line summary failures; py "Failures:"]
                       ++ map (py_str w) failures) st)
    end
  /\ exit_status (fst (print_summary w summary st))
     = match failures with [] => 0 | _ => 255 end
  /\ (length failures <= length summary)%nat
  /\ forall f, f ∈ failures
       <-> exists p d, dict_get p summary = Some (VDict d)
                       /\ dict_get (py "exception") d = Some f /\ f <> VNone.
Proof.
  intros Hall failures.
  pose proof (print_summary_dicts w summary st (dicts_entries summary Hall)) as Hp.
  cbn zeta in Hp. fold failures in Hp.
  split; [exact Hp|]. split; [|split].
  - rewrite Hp. by destruct failures.
  - unfold failures. etrans; [apply failures_of_length|].
    unfold dict_keys. by rewrite length_map.
  - intros f. unfold failures. rewrite failures_of_elem. split.
    + intros (p & Hk & Hf).
      destruct (dicts_entries summary Hall p Hk) as [d Hd].
      exists p, d. rewrite Hd in Hf. cbn in Hf.
      destruct (dict_get (py "exception") d) as [x|]; [|done].
      destruct x; try done; by injection Hf as <-.
    + intros (p & d & Hd & Hf & Hne). exists p.
      split; [apply dict_get_keys; by eauto|].
      rewrite Hd. cbn. rewrite Hf. by destruct f.
Qed.

(** ** The report and the summary *)

Lemma dict_set_Forall {V} (P : V -> Prop) (k : pystr) (v : V) (d : dict V) :
  Forall (fun kv => P (snd kv)) d -> P v ->
  Forall (fun kv => P (snd kv)) (dict_set k v d).
Proof.
  intros Hd Hv. induction d as [|[k' v'] d IH]; cbn [dict_set].
  - by apply Forall_cons_2.
  - apply Forall_cons_1 in Hd as [Hv' Hd].
    destruct (decide (k = k')); apply Forall_cons_2; auto.
Qed.

Lemma record_results_Forall (P : value -> Prop) (ps : list pystr) (vs : list value)
    (outcome : dict value) :
  Forall (fun kv => P (snd kv)) outcome -> Forall P vs ->
  Forall (fun kv => P (snd kv)) (record_results ps vs outcome).
Proof.
  revert vs outcome. induction ps as [|p ps IH]; intros vs outcome Ho Hvs; [done|].
  destruct vs as [|v vs]; [done|].
  apply Forall_cons_1 in Hvs as [Hv Hvs].
  change (record_results (p :: ps) (v :: vs) outcome)
    with (record_results ps vs (dict_set p v outcome)).
  apply IH; [by apply dict_set_Forall | done].
Qed.

Lemma run_completed (w : env) (args : arguments) (st st1 : state) (vs : list value) :
  collected w (arg_region args) (arg_target args) (cleaned args st)
    (split_comma (arg_profiles args)) vs st1 ->
  run w args st
  = (write_file (VDict (record_results (split_comma (arg_profiles args)) vs []))
       (py "account-data/stackset");;
     print_summary w (record_results (split_comma (arg_profiles args)) vs [])) st1.
Proof.
  intros Hc. apply run_collected. by apply collect_profiles_collected.
Qed.

(** X19. When the report file can be opened for writing and every profile
    gives a result that is a [dict] and can be written, [run] writes the
    whole report before the summary: the file is complete also when the run
    ends with [exit(-1)]; the run returns when no entry of the report is a
    failure and ends with status 255 otherwise. *)
Theorem run_writes_report_then_summary (w : env) (args : arguments) (st st1 : state)
    (vs : list value) :
  let ps := split_comma (arg_profiles args) in
  let outcome := record_results ps vs [] in
  let failures := failures_of outcome (dict_keys outcome) in
  report_can_be_opened st ->
  collected w (arg_region args) (arg_target args) (cleaned args st) ps vs st1 ->
  Forall (fun v => is_dict v = true) vs ->
  Forall (fun v => serializable v = true) vs ->
  exists text,
    json_dumps (VDict outcome) = Ret text
    /\ files (snd (run w args st)) = <[report_path := text]> (files (cleaned args st))
    /\ fst (run w args st)
       = match failures with [] => Ret tt | _ => Raise (SystemExit (-1)) end
    /\ exit_status (fst (run w args st)) = match failures with [] => 0 | _ => 255 end
    /\ stdout (snd (run w args st))
       = stdout st1 ++ [dashes; summary_line outcome failures]
           ++ match failures with
              | [] => []
              | _ => py "Failures:" :: map (py_str w) failures
              end.
Proof.
  intros ps outcome failures _ Hc Hd Hs.
  assert (Hser : serializable (VDict outcome) = true).
  { cbn [serializable]. apply forallb_Forall.
    by apply (record_results_Forall (fun v => serializable v = true)). }
  apply json_dumps_serializable in Hser as [text Htext].
  exists text. split; [done|].
  assert (Hrun : run w args st
                 = print_summary w outcome
                     (set_files (<[report_path := text]> (files st1)) st1)).
  { rewrite (run_completed w args st st1 vs Hc). fold ps. fold outcome.
    erewrite bind_Ret by (by apply write_file_text). done. }
  assert (Hdicts : Forall (fun kv => is_dict (snd kv) = true) outcome).
  { by apply (record_results_Forall (fun v => is_dict v = true)). }
  rewrite Hrun, (print_summary_dicts w outcome _ (dicts_entries outcome Hdicts)).
  cbn zeta. fold failures.
  destruct (collected_world _ _ _ _ _ _ _ Hc) as [_ Hf].
  destruct failures; cbn [fst snd files stdout add_stdout set_files exit_status];
    rewrite Hf; done.
Qed.

(** X20. When the loop completes but some result cannot be written, [run]
    ends at [write_file] with the exception of the serializer: the report
    file is left empty, no summary is printed, the failures of the other
    profiles are not shown, and the status is 1, not that of [exit(-1)]. *)
Theorem run_loses_summary_on_unwritable_report (w : env) (args : arguments)
    (st st1 : state) (vs : list value) (p : pystr) (v : value) :
  let ps := split_comma (arg_profiles args) in
  let outcome := record_results ps vs [] in
  collected w (arg_region args) (arg_target args) (cleaned args st) ps vs st1 ->
  dict_get p outcome = Some v ->
  serializable v = false ->
  exists e,
    run w args st = (Raise e, set_files (<[report_path := []]> (files st1)) st1)
    /\ (e = TypeError (py "Unknown type") \/ e = UnicodeDecodeError)
    /\ exit_status (fst (run w args st)) = 1
    /\ stdout (snd (run w args st)) = stdout st1.
Proof.
  intros ps outcome Hc Hp Hv.
  destruct (json_dumps (VDict outcome)) as [text|e] eqn:E.
  - assert (Hser : serializable (VDict outcome) = true)
      by (apply json_dumps_serializable; by exists text).
    cbn [serializable] in Hser. apply forallb_Forall in Hser.
    pose proof (dict_get_In _ _ _ Hp) as Hin. apply list_elem_of_In in Hin.
    pose proof (proj1 (Forall_forall _ _) Hser _ Hin) as Hs. cbn [snd] in Hs.
    congruence.
  - exists e.
    assert (Hrun : run w args st
                   = (Raise e, set_files (<[report_path := []]> (files st1)) st1)).
    { rewrite (run_completed w args st st1 vs Hc). fold ps. fold outcome.
      erewrite bind_Raise by (by apply write_file_raise). done. }
    rewrite Hrun. split; [done|].
    destruct (iterencode_errors _ _ _ E) as [->| ->]; by repeat split; eauto.
Qed.

(** ** The characters of the document *)

Lemma plain_app (a b : pystr) : plain (a ++ b) = plain a && plain b.
Proof. apply forallb_app. Qed.

Lemma plain_concat (l : list pystr) :
  Forall (fun c => plain c = true) l -> plain (concat l) = true.
Proof.
  induction 1 as [|c l Hc _ IH]; [done|]. cbn [concat]. by rewrite plain_app, Hc, IH.
Qed.

Lemma plain_join (sep : pystr) (chunks : list pystr) :
  plain sep = true -> Forall (fun c => plain c = true) chunks ->
  plain (join sep chunks) = true.
Proof.
  intros Hsep [|c l Hc Hl]; [done|]. cbn [join]. rewrite plain_app, Hc. cbn [andb].
  apply plain_concat. apply Forall_map.
  eapply Forall_impl; [exact Hl|]. intros x Hx. cbn. by rewrite plain_app, Hsep, Hx.
Qed.

Lemma plain_spaces (n : nat) : plain (repeat 32%N n) = true.
Proof. induction n as [|n IH]; [done|]. cbn [repeat]. exact IH. Qed.

Lemma plain_newline_indent (level : nat) : plain (newline_indent level) = true.
Proof. unfold newline_indent. apply plain_spaces. Qed.

Lemma plain_bracket (opening closing : N) (level : nat) (chunks : list pystr) :
  is_plain_char opening = true -> is_plain_char closing = true ->
  Forall (fun c => plain c = true) chunks ->
  plain (bracket opening closing level chunks) = true.
Proof.
  intros Ho Hc Hall. unfold bracket. destruct chunks as [|c l].
  - cbn [plain forallb]. by rewrite Ho, Hc.
  - rewrite !plain_app, plain_newline_indent, plain_newline_indent.
    rewrite plain_join; [| apply (plain_newline_indent (S level)) | done].
    cbn [plain forallb]. by rewrite Ho, Hc.
Qed.

Lemma hex_digit_plain (n : N) : (n < 16)%N -> is_plain_char (hex_digit n) = true.
Proof.
  intros Hn. unfold hex_digit, is_plain_char.
  destruct (N.ltb_spec n 10);
    apply orb_true_iff; right; apply andb_true_iff; split; apply N.leb_le; lia.
Qed.

Lemma plain_u_escape (n : N) : plain (u_escape n) = true.
Proof.
  unfold u_escape. cbn [plain forallb].
  rewrite !hex_digit_plain by (apply N.mod_lt; lia). done.
Qed.

Lemma plain_escape_char (c : N) : plain (escape_char c) = true.
Proof.
  unfold escape_char.
  repeat (match goal with |- context [if ?b then _ else _] =>
                            destruct b eqn:? end;
          try done; try apply plain_u_escape).
  - cbn [plain forallb]. unfold is_plain_char. by rewrite Heqb6, orb_true_r.
  - by rewrite plain_app, !plain_u_escape.
Qed.

Lemma plain_encode_basestring_ascii (s : pystr) :
  plain (encode_basestring_ascii s) = true.
Proof.
  unfold encode_basestring_ascii. rewrite !plain_app.
  rewrite plain_concat; [done|].
  apply Forall_map, Forall_forall. intros c _. apply plain_escape_char.
Qed.

Lemma plain_string_of_uint (d : Decimal.uint) :
  plain (py (NilEmpty.string_of_uint d)) = true.
Proof. induction d; cbn [NilEmpty.string_of_uint]; rewrite ?py_String; done. Qed.

Lemma plain_int_repr (z : Z) : plain (int_repr z) = true.
Proof.
  unfold int_repr, NilZero.string_of_int, NilZero.string_of_uint.
  destruct (Z.to_int z) as [d|d]; [destruct d|rewrite py_String; destruct d];
    try done; cbn [plain forallb]; try apply plain_string_of_uint;
    (change (plain (py (NilEmpty.string_of_uint ?u)) = true);
     apply plain_string_of_uint).
Qed.

Lemma plain_encode_items (level : nat) (l : list value) (cs : list pystr) :
  Forall (fun x => forall level text, iterencode level x = Ret text -> plain text = true) l ->
  encode_items level l = Ret cs -> Forall (fun c => plain c = true) cs.
Proof.
  intros Hall. revert cs. induction Hall as [|x l Hx _ IH]; intros cs; cbn [encode_items].
  - intros [= <-]. apply Forall_nil_2.
  - destruct (iterencode level x) as [c|e] eqn:E; [|done]. cbn [mbind outcome_bind].
    destruct (encode_items level l) as [cs'|e]; [|done]. cbn [mbind outcome_bind].
    intros [= <-]. apply Forall_cons_2; [by eapply Hx | by apply IH].
Qed.

Lemma plain_encode_members (items : list (pystr * outcome pystr)) (cs : list pystr) :
  Forall (fun kr => forall text, snd kr = Ret text -> plain text = true) items ->
  encode_members items = Ret cs -> Forall (fun c => plain c = true) cs.
Proof.
  intros Hall. revert cs. induction Hall as [|[k r] l Hx _ IH]; intros cs;
    cbn [encode_members].
  - intros [= <-]. apply Forall_nil_2.
  - destruct r as [c|e]; [|done]. cbn [mbind outcome_bind].
    destruct (encode_members l) as [cs'|e]; [|done]. cbn [mbind outcome_bind].
    intros Hcs.
    assert (cs = (encode_basestring_ascii k ++ py ": " ++ c) :: cs') as -> by congruence.
    apply Forall_cons_2; [|by apply IH]. cbn beta.
    rewrite !plain_app, plain_encode_basestring_ascii, (Hx c eq_refl). done.
Qed.

Lemma plain_iterencode (v : value) :
  forall level text, iterencode level v = Ret text -> plain text = true.
Proof.
  induction v as [ |b|z|s|b|d|l IH|d IH|msg|ty] using value_induction;
    intros level text.
  - by intros [= <-].
  - destruct b; by intros [= <-].
  - intros [= <-]. apply plain_int_repr.
  - intros [= <-]. apply plain_encode_basestring_ascii.
  - cbn [iterencode custom_serializer]. destruct (bytes_decode b); [|done].
    intros [= <-]. apply plain_encode_basestring_ascii.
  - intros [= <-]. apply plain_encode_basestring_ascii.
  - rewrite iterencode_list.
    destruct (encode_items (S level) l) as [cs|e] eqn:E; [|done].
    intros [= <-]. apply plain_bracket; [done|done|].
    by apply (plain_encode_items (S level) l).
  - rewrite iterencode_dict.
    destruct (encode_members (sorted_items (encode_values (S level) d)))
      as [cs|e] eqn:E; [|done].
    intros [= <-]. apply plain_bracket; [done|done|].
    eapply plain_encode_members; [|exact E].
    rewrite (sorted_items_perm (encode_values (S level) d)).
    unfold encode_values. apply Forall_map.
    eapply Forall_impl; [exact IH|]. intros [k x] Hx text'. cbn [snd]. apply Hx.
  - done.
  - done.
Qed.

(** X21. The document [write_file] writes holds only line breaks and
    printable ASCII characters, whatever characters the values hold: the
    others are written as escapes. *)
Theorem report_is_plain_ascii (contents : value) (path : pystr) (st : state)
    (text : pystr) :
  json_dumps contents = Ret text ->
  plain text = true
  /\ files (snd (write_file contents path st)) !! (path ++ py "/stack_outputs.json")
     = Some text.
Proof.
  intros Ht. split; [by apply (plain_iterencode contents 0)|].
  rewrite (write_file_text _ _ _ _ Ht). cbn [snd files set_files].
  apply lookup_insert_eq.
Qed.

(** ** The keys of a paginated result *)

Lemma iterate_pages_truthy (P1 : page) (rest : list (outcome page)) (st st' : state)
    (data' : option page) :
  P1 <> [] ->
  iterate_pages (Some P1) rest st = (Ret data', st') -> data' = Some P1.
Proof.
  intros HP1. revert st. induction rest as [|[response|e] rest IH]; intros st;
    cbn [iterate_pages].
  - by intros [= <- _].
  - unfold mbind at 1, M_bind at 1. unfold add_page.
    replace (negb (truthy (Some P1))) with false by (by destruct P1).
    unfold mbind at 1 2, M_bind at 1 2, print at 1.
    destruct (for_each _ _ _) as [[[]|e] st1]; [|done].
    unfold mret, M_ret. apply IH.
  - done.
Qed.

(** X22. The result of a paginated call has the keys of the first page and
    no other: a key that only a later page has is dropped, a field of the
    first page that is not a list keeps the value of the first page, and a
    list of the first page is returned with items added at its end - unless
    a [ClientError] replaced the result. *)
Theorem paginated_result_has_first_page_keys (max_retries : Z) (h : handler)
    (m : pystr) (ps : value) (st st' : state) (P1 : page) (rest : list (outcome page))
    (v : value) :
  can_paginate h m = true ->
  pages_of h m ps 0 (Z.to_nat max_retries) = Ret P1 :: rest ->
  P1 <> [] ->
  with_retries max_retries h m ps st = (Ret v, st') ->
  (exists msg, v = VDict [(py "exception", VExc msg)])
  \/ (exists d, v = VDict d /\ dict_keys d = dict_keys P1
        /\ forall k o, dict_get k P1 = Some o ->
             match heap st !!! o with
             | VList l => exists more, dict_get k d = Some (VList (l ++ more))
             | x => dict_get k d = Some x
             end).
Proof.
  intros Hcan Hpages HP1 Hrun.
  pose proof (appends_with_retries max_retries h m ps st) as Happ.
  rewrite Hrun in Happ. cbn [snd] in Happ. destruct Happ as (_ & _ & _ & Hheap).
  revert Hrun. unfold with_retries, try_except_ClientError.
  unfold mbind at 1, M_bind at 1.
  rewrite (attempts_pages h m ps _ 0 None st Hcan), Hpages.
  change (iterate_pages None (Ret P1 :: rest) st)
    with (iterate_pages (Some P1) rest st).
  destruct (iterate_pages (Some P1) rest st) as [[data'|e] st1] eqn:E.
  - rewrite (iterate_pages_truthy P1 rest st st1 data' HP1 E).
    unfold snapshot. intros [= <- <-]. right.
    exists (map (fun ko => (fst ko, heap st1 !!! snd ko)) P1).
    split; [done|]. split; [apply (dict_keys_map (fun o => heap st1 !!! o))|].
    intros k o Hk. rewrite (dict_get_map (fun o => heap st1 !!! o)), Hk.
    cbn [fmap option_fmap option_map]. specialize (Hheap o).
    destruct (heap st !!! o); try (by rewrite Hheap).
    destruct Hheap as [more ->]. by exists more.
  - destruct e; try done. unfold mbind, M_bind, print, mret, M_ret.
    intros [= <- _]. left. by eexists.
Qed.

(** * The further properties at the example data *)

Lemma split_comma_join_witness :
  split_comma (join_comma [py "a"; py "b"]) = [py "a"; py "b"].
Proof.
  apply split_comma_join; [done|].
  exact (bool_decide_unpack (Forall (fun p => 44%N ∉ p) [py "a"; py "b"]) I).
Defined.

Lemma report_keys_in_order_witness :
  exists (outcome : dict value) (st' : state),
    collect_profiles Sample.world [py "c"; py "b"; py "c"] (py "eu-west-1")
      (py "proj-foo") [] Sample.initial = (Ret outcome, st')
    /\ dict_keys outcome = [py "c"; py "b"]
    /\ length (sessions st') = 3%nat.
Proof.
  evar (outcome : dict value). evar (st' : state).
  assert (H : collect_profiles Sample.world [py "c"; py "b"; py "c"] (py "eu-west-1")
                (py "proj-foo") [] Sample.initial = (Ret outcome, st')).
  { subst outcome st'. vm_compute. reflexivity. }
  destruct (report_keys_in_order _ _ _ _ _ _ _ H) as [Hk Hs].
  exists outcome, st'. split; [exact H|]. split.
  - rewrite Hk. vm_compute. reflexivity.
  - rewrite Hs. reflexivity.
Defined.

Lemma unpaginated_returns_last_response_witness :
  with_retries 2 Cases.changing (py "describe_stacks") (VDict []) Cases.initial
  = (Ret (VDict (map (fun ko => (fst ko, heap Cases.initial !!! snd ko))
                   [(py "Stacks", 3%nat)])), Cases.initial).
Proof.
  apply unpaginated_returns_last_response.
  - reflexivity.
  - lia.
  - intros j Hj. change (Z.to_nat 2 - 1)%nat with 1%nat in Hj.
    destruct j as [|j]; [|lia]. eexists. reflexivity.
  - reflexivity.
Defined.

Lemma attempts_are_one_pass_witness :
  with_retries 2 Cases.page_an_attempt (py "describe_stacks") (VDict []) Cases.initial
  = with_retries 1 Cases.both_pages (py "describe_stacks") (VDict []) Cases.initial.
Proof. apply attempts_are_one_pass; reflexivity. Defined.

Lemma empty_first_page_is_replaced_witness :
  with_retries 1 Cases.empty_first (py "describe_stacks") (VDict []) Cases.initial
  = with_retries 1 Cases.good (py "describe_stacks") (VDict []) Cases.initial.
Proof.
  apply (empty_first_page_is_replaced 1 Cases.empty_first Cases.good _ _ _
           [Ret [(py "Stacks", 0%nat)]]); done.
Defined.

Lemma missing_key_in_later_page_witness :
  exists st',
    with_retries 1 Cases.ragged (py "describe_stacks") (VDict []) Cases.initial
    = (Raise (KeyError (py "Exports")), st').
Proof.
  apply (missing_key_in_later_page 1 Cases.ragged (py "describe_stacks") (VDict [])
           Cases.initial [(py "Stacks", 0%nat); (py "Exports", 2%nat)]
           [(py "Stacks", 3%nat)] [] [py "Stacks"] [] (py "Exports") 2%nat).
  - reflexivity.
  - reflexivity.
  - reflexivity.
  - intros k' o' ->%list_elem_of_singleton. intros [= <-] _.
    exists 3%nat. split; vm_compute; reflexivity.
  - vm_compute. reflexivity.
  - vm_compute. reflexivity.
  - vm_compute. reflexivity.
Defined.

Lemma collect_without_page_witness :
  collect Cases.world (py "none") (py "eu-west-1") (py "proj-foo") Cases.initial
  = (Raise AttributeError, add_session (py "none") (py "eu-west-1") Cases.initial).
Proof.
  apply (collect_without_page Cases.world (py "none") (py "eu-west-1") (py "proj-foo")
           Cases.initial (mkSession (fun _ => Ret Cases.no_page)) Cases.no_page);
    reflexivity.
Defined.

Lemma collect_result_shape_witness :
  (Success (VList [Sample.url]) = VNone
   \/ (exists message, Success (VList [Sample.url]) = Failure message)
   \/ (exists outputs, Success (VList [Sample.url]) = Success outputs))
  /\ (serializable (Success (VList [Sample.url])) = false ->
      exists outputs, Success (VList [Sample.url]) = Success outputs
                      /\ serializable outputs = false).
Proof.
  refine (collect_result_shape Sample.world (py "a") (py "eu-west-1") (py "proj-foo")
            Sample.initial _ _ _).
  vm_compute. reflexivity.
Defined.

Lemma filter_by_name_refines_witness :
  filter_by_name (VList [Sample.foo; Sample.bar]) (py "proj")
    = Ret [Sample.foo; Sample.bar]
  /\ filter_by_name (VList [Sample.foo; Sample.bar]) (py "proj-f")
     = filter_by_name (VList [Sample.other; Sample.foo; Sample.bar]) (py "proj-f").
Proof.
  apply (filter_by_name_refines [Sample.other; Sample.foo; Sample.bar]).
  - apply sample_stacks.
  - by exists (py "-f").
  - vm_compute. reflexivity.
Defined.

Lemma run_changes_only_the_report_witness :
  files (snd (run Cases.world
                (mkArguments (py "proj-foo") (py "eu-west-1") (py "good") true)
                Cases.initial)) !! py "account-data/stackset/old.json"
  = if arg_clean (mkArguments (py "proj-foo") (py "eu-west-1") (py "good") true)
       && in_report_dir (py "account-data/stackset/old.json")
    then None
    else files Cases.initial !! py "account-data/stackset/old.json".
Proof.
  apply run_changes_only_the_report. intros H. vm_compute in H. discriminate.
Defined.

Lemma run_stops_at_first_exception_witness :
  exists st2,
    run Cases.world (mkArguments (py "proj-foo") (py "eu-west-1") (py "good,nope,odd") false)
      Cases.initial
    = (Raise (OtherError (py "ProfileNotFound")), st2)
    /\ sessions st2 = [(py "good", py "eu-west-1"); (py "nope", py "eu-west-1")]
    /\ files st2 = files Cases.initial.
Proof.
  evar (st1 : state). evar (st2 : state).
  assert (Hc : collected Cases.world (py "eu-west-1") (py "proj-foo") Cases.initial
                 [py "good"] [Success (VList [Sample.url])] st1).
  { subst st1. eapply collected_cons; [vm_compute; reflexivity | apply collected_nil]. }
  assert (Hp : collect Cases.world (py "nope") (py "eu-west-1") (py "proj-foo") st1
               = (Raise (OtherError (py "ProfileNotFound")), st2)).
  { subst st1 st2. vm_compute. reflexivity. }
  destruct (run_stops_at_first_exception Cases.world
              (mkArguments (py "proj-foo") (py "eu-west-1") (py "good,nope,odd") false)
              Cases.initial st1 st2 [py "good"] [py "odd"] (py "nope")
              [Success (VList [Sample.url])] (OtherError (py "ProfileNotFound")))
    as (Hrun & Hs & Hf & _).
  - vm_compute. reflexivity.
  - exact Hc.
  - exact Hp.
  - exists st2. split; [exact Hrun|]. split; [exact Hs | exact Hf].
Defined.

Lemma print_summary_reports_failures_witness :
  exit_status
    (fst (print_summary Sample.world
            [(py "a", Success (VList [Sample.url])); (py "b", Failure (py "AccessDenied"))]
            Sample.initial)) = 255.
Proof.
  destruct (print_summary_reports_failures Sample.world
              [(py "a", Success (VList [Sample.url])); (py "b", Failure (py "AccessDenied"))]
              Sample.initial) as (_ & Hstatus & _).
  - repeat apply Forall_cons_2; [reflexivity | reflexivity | apply Forall_nil_2].
  - rewrite Hstatus. reflexivity.
Defined.

Lemma run_writes_report_then_summary_witness :
  exists text,
    files (snd (run Sample.world
                  (mkArguments (py "proj-foo") (py "eu-west-1") (py "a,b") false)
                  Sample.initial)) !! report_path = Some text
    /\ exit_status
         (fst (run Sample.world
                 (mkArguments (py "proj-foo") (py "eu-west-1") (py "a,b") false)
                 Sample.initial)) = 255.
Proof.
  evar (st1 : state).
  assert (Hc : collected Sample.world (py "eu-west-1") (py "proj-foo") Sample.initial
                 [py "a"; py "b"]
                 [Success (VList [Sample.url]); Failure (py "AccessDenied")] st1).
  { subst st1. eapply collected_cons; [vm_compute; reflexivity|].
    eapply collected_cons; [vm_compute; reflexivity|]. apply collected_nil. }
  destruct (run_writes_report_then_summary Sample.world
              (mkArguments (py "proj-foo") (py "eu-west-1") (py "a,b") false)
              Sample.initial st1
              [Success (VList [Sample.url]); Failure (py "AccessDenied")])
    as (text & _ & Hfile & _ & Hstatus & _).
  - split; [reflexivity|]. split; [reflexivity|]. intros q _. apply lookup_empty.
  - exact Hc.
  - repeat apply Forall_cons_2; [reflexivity | reflexivity | apply Forall_nil_2].
  - repeat apply Forall_cons_2; [reflexivity | reflexivity | apply Forall_nil_2].
  - exists text. split.
    + rewrite Hfile. apply lookup_insert_eq.
    + rewrite Hstatus. reflexivity.
Defined.

Lemma run_loses_summary_on_unwritable_report_witness :
  exit_status
    (fst (run Cases.world
            (mkArguments (py "proj") (py "eu-west-1") (py "good,odd") false)
            Cases.initial)) = 1.
Proof.
  evar (st1 : state).
  assert (Hc : collected Cases.world (py "eu-west-1") (py "proj") Cases.initial
                 [py "good"; py "odd"]
                 [Success (VList [Sample.url]); Success (VList [VOther (py "set")])] st1).
  { subst st1. eapply collected_cons; [vm_compute; reflexivity|].
    eapply collected_cons; [vm_compute; reflexivity|]. apply collected_nil. }
  destruct (run_loses_summary_on_unwritable_report Cases.world
              (mkArguments (py "proj") (py "eu-west-1") (py "good,odd") false)
              Cases.initial st1
              [Success (VList [Sample.url]); Success (VList [VOther (py "set")])]
              (py "odd") (Success (VList [VOther (py "set")])))
    as (e & _ & _ & Hstatus & _).
  - exact Hc.
  - vm_compute. reflexivity.
  - reflexivity.
  - exact Hstatus.
Defined.

Lemma report_is_plain_ascii_witness :
  exists text,
    json_dumps (VDict [(py "name", VStr [233%N; 10%N; 128512%N])]) = Ret text
    /\ plain text = true.
Proof.
  evar (text : pystr).
  assert (H : json_dumps (VDict [(py "name", VStr [233%N; 10%N; 128512%N])]) = Ret text).
  { subst text. vm_compute. reflexivity. }
  exists text. split; [exact H|].
  exact (proj1 (report_is_plain_ascii _ (py "account-data/stackset") Sample.initial _ H)).
Defined.

Lemma paginated_result_has_first_page_keys_witness :
  exists (v : value) (st' : state),
    with_retries 1 Sample.two_pages (py "describe_stacks") (VDict []) Sample.initial
    = (Ret v, st')
    /\ exists d, v = VDict d /\ dict_keys d = [py "Stacks"; py "NextToken"].
Proof.
  evar (v : value). evar (st' : state).
  assert (H : with_retries 1 Sample.two_pages (py "describe_stacks") (VDict [])
                Sample.initial = (Ret v, st')).
  { subst v st'. vm_compute. reflexivity. }
  destruct (paginated_result_has_first_page_keys 1 Sample.two_pages
              (py "describe_stacks") (VDict []) Sample.initial st' Sample.page1
              [Ret Sample.page2] v) as [[msg Hm]|(d & Hd & Hk & _)].
  - reflexivity.
  - reflexivity.
  - done.
  - exact H.
  - subst v. discriminate Hm.
  - exists v, st'. split; [exact H|]. exists d. split; [exact Hd | exact Hk].
Defined.

Lemma json_dumps_returns_on_serializable_witness :
  exists text,
    json_dumps (VDict [(py "outputs", VList [Sample.url; VBytes [Byte.x41]; VInt 3])])
    = Ret text.
Proof. apply json_dumps_returns_on_serializable. reflexivity. Defined.
